(** * A shallow embedding of the serverless job scheduler

    The repository consists of AWS Lambda handlers written in JavaScript:
    - [createJob]  (POST /jobs): validates a request, writes the job record and
      registers a schedule rule;
    - [getJob]     (GET /jobs/{id}): returns a job, its invocations and
      statistics over them (the statistics are what is embedded here);
    - [deleteJob]  (DELETE /jobs/{id}): removes the rule and the job record;
    - [jobExecutor]: the dispatcher fired by a rule or by an asynchronous
      invocation; it runs the job logic and does the bookkeeping.

    The handlers talk to three services (DynamoDB, EventBridge, Lambda).  The
    embedding threads a [World] holding the state of those services through a
    state-and-exception monad; whatever the handlers cannot decide themselves
    (the clock, fresh identifiers, service faults, the JSON and date functions
    of the runtime, the pluggable job logic) is an [Env]. *)

From Stdlib Require Import ZArith QArith Qround Qpower Lia Lqa Ascii
  DecimalString.
From stdpp Require Import gmap strings list fin_maps.

Local Open Scope string_scope.

(** ** JavaScript values *)

(** A value as [JSON.parse] produces it, plus [undefined] for an absent
    property.  Numbers are the integers among the JS numbers. *)
#[warnings="-register-all"]
Inductive value : Type :=
| VUndefined
| VNull
| VBool (b : bool)
| VNum (n : Z)
| VStr (s : string)
| VArr (items : list value)
| VObj (fields : list (string * value)).

(** [!!v] of JavaScript: the falsy values are undefined, null, false, 0 and
    the empty string. *)
Definition truthy (v : value) : bool :=
  match v with
  | VUndefined | VNull => false
  | VBool b => b
  | VNum n => negb (n =? 0)%Z
  | VStr s => negb (String.eqb s "")
  | VArr _ | VObj _ => true
  end.

(** [a || b] *)
Definition js_or (a b : value) : value := if truthy a then a else b.

Fixpoint assoc (k : string) (l : list (string * value)) : value :=
  match l with
  | [] => VUndefined
  | (k', v) :: l' => if String.eqb k k' then v else assoc k l'
  end.

(** The values a property cannot be read from: [const { name } = v] throws
    a TypeError on them. *)
Definition nullish (v : value) : bool :=
  match v with
  | VUndefined | VNull => true
  | _ => false
  end.

(** [v.k] for one of the request's property names on a value that is neither
    null nor undefined: only an object has such a property. *)
Definition get_field (v : value) (k : string) : value :=
  match v with
  | VObj l => assoc k l
  | _ => VUndefined
  end.

(** The string of an integer as JavaScript prints it, for an integer below
    10^21 (a larger number is printed with an exponent). *)
Definition string_of_Z (n : Z) : string := NilZero.string_of_int (Z.to_int n).

(** [String(v)], as a template literal applies it: an array prints its
    elements separated by commas, null and undefined elements as nothing. *)
Fixpoint to_string (v : value) : string :=
  match v with
  | VUndefined => "undefined"
  | VNull => "null"
  | VBool true => "true"
  | VBool false => "false"
  | VNum n => string_of_Z n
  | VStr s => s
  | VArr items =>
      (fix join (l : list value) : string :=
         match l with
         | [] => ""
         | x :: l' =>
             match x with VUndefined | VNull => "" | _ => to_string x end
             ++ match l' with [] => "" | _ => "," ++ join l' end
         end) items
  | VObj _ => "[object Object]"
  end.

(** A thrown JavaScript [Error]. *)
Record Error : Type := {
  err_name : string;
  err_message : string;
  err_stack : string
}.

(** ** Records of the two tables *)

(** An item of JOBS_TABLE, keyed by [jobId].  [type] and [status] are the
    string literals the handlers compare with; [name], [description],
    [scheduleExpression], [executeAt] and [payload] are copied from the
    request.  [lastExecutedAt] and [ruleName] are absent ([None]) until
    something sets them. *)
Record Job : Type := {
  jobId : string;
  name : value;
  description : value;
  type : string;
  scheduleExpression : value;
  executeAt : value;
  payload : value;
  status : string;
  createdAt : Z;
  updatedAt : Z;
  invocationCount : Z;
  lastExecutedAt : option Z;
  ruleName : option string
}.

(** An item of INVOCATIONS_TABLE, keyed by [invocationId]. *)
Record Invocation : Type := {
  invocationId : string;
  inv_jobId : string;
  timestamp : Z;
  inv_status : string;
  startedAt : Z;
  input : value;
  completedAt : option Z;
  duration : option Z;
  output : option value;
  error : option string;
  errorStack : option string
}.

(** ** The schedule-rule service *)

Record Rule : Type := {
  ScheduleExpression : value;
  State : string;
  Description : string
}.

(** A target of a rule; [Input] is the object [{ jobId, payload }] the rule
    hands to the executor. *)
Record Target : Type := {
  Id : string;
  Input : string * value
}.

(** ** Commands sent to the services *)

Inductive Call : Type :=
| GetCommand (key : string)
| PutJob (Item : Job)
| PutInvocation (Item : Invocation)
| UpdateCommand (key : string) (ts : Z) (newStatus : string)
| DeleteCommand (key : string)
| InvokeCommand (Payload : string * value)
| PutRuleCommand (Name : string) (rule : Rule)
| AddPermissionCommand (StatementId : string)
| PutTargetsCommand (rule : string) (Targets : list Target)
| ListTargetsByRuleCommand (rule : string)
| RemoveTargetsCommand (rule : string) (Ids : list string)
| DeleteRuleCommand (Name : string)
| RemovePermissionCommand (StatementId : string).

(** The commands of the document store, as opposed to those of the rule
    service and of the function service. *)
Definition store_call (c : Call) : bool :=
  match c with
  | GetCommand _ | PutJob _ | PutInvocation _ | UpdateCommand _ _ _
  | DeleteCommand _ => true
  | _ => false
  end.

(** The commands that register or unregister a rule, its targets or its
    invoke permission. *)
Definition rule_call (c : Call) : bool :=
  match c with
  | PutRuleCommand _ _ | AddPermissionCommand _ | PutTargetsCommand _ _
  | ListTargetsByRuleCommand _ | RemoveTargetsCommand _ _
  | DeleteRuleCommand _ | RemovePermissionCommand _ => true
  | _ => false
  end.

(** ** The world *)

Record World : Type := {
  jobs : gmap string Job;
  invocations : gmap string Invocation;
  rules : gmap string Rule;
  targets : gmap string (list Target);
  permissions : gset string;
  queued : list (string * value);  (* asynchronous executor invocations *)
  trace : list Call;               (* every command sent, oldest first *)
  ticks : nat;                     (* clock readings taken so far *)
  uuids : nat                      (* identifiers drawn so far *)
}.

Definition set_jobs (f : gmap string Job -> gmap string Job) (w : World) :=
  {| jobs := f (jobs w); invocations := invocations w; rules := rules w;
     targets := targets w; permissions := permissions w; queued := queued w;
     trace := trace w; ticks := ticks w; uuids := uuids w |}.

Definition set_invocations
    (f : gmap string Invocation -> gmap string Invocation) (w : World) :=
  {| jobs := jobs w; invocations := f (invocations w); rules := rules w;
     targets := targets w; permissions := permissions w; queued := queued w;
     trace := trace w; ticks := ticks w; uuids := uuids w |}.

Definition set_rules (f : gmap string Rule -> gmap string Rule) (w : World) :=
  {| jobs := jobs w; invocations := invocations w; rules := f (rules w);
     targets := targets w; permissions := permissions w; queued := queued w;
     trace := trace w; ticks := ticks w; uuids := uuids w |}.

Definition set_targets
    (f : gmap string (list Target) -> gmap string (list Target)) (w : World) :=
  {| jobs := jobs w; invocations := invocations w; rules := rules w;
     targets := f (targets w); permissions := permissions w;
     queued := queued w; trace := trace w; ticks := ticks w;
     uuids := uuids w |}.

Definition set_permissions (f : gset string -> gset string) (w : World) :=
  {| jobs := jobs w; invocations := invocations w; rules := rules w;
     targets := targets w; permissions := f (permissions w);
     queued := queued w; trace := trace w; ticks := ticks w;
     uuids := uuids w |}.

Definition set_queued
    (f : list (string * value) -> list (string * value)) (w : World) :=
  {| jobs := jobs w; invocations := invocations w; rules := rules w;
     targets := targets w; permissions := permissions w;
     queued := f (queued w); trace := trace w; ticks := ticks w;
     uuids := uuids w |}.

Definition log (c : Call) (w : World) :=
  {| jobs := jobs w; invocations := invocations w; rules := rules w;
     targets := targets w; permissions := permissions w; queued := queued w;
     trace := trace w ++ [c]; ticks := ticks w; uuids := uuids w |}.

Definition tick (w : World) :=
  {| jobs := jobs w; invocations := invocations w; rules := rules w;
     targets := targets w; permissions := permissions w; queued := queued w;
     trace := trace w; ticks := S (ticks w); uuids := uuids w |}.

Definition draw (w : World) :=
  {| jobs := jobs w; invocations := invocations w; rules := rules w;
     targets := targets w; permissions := permissions w; queued := queued w;
     trace := trace w; ticks := ticks w; uuids := S (uuids w) |}.

(** ** What the handlers do not decide *)

Record Env : Type := {
(** [JSON.parse] on a text; [None] is a thrown SyntaxError *)
JSON_parse : string -> option value;
(** [new Date(v).getTime()]; [None] is NaN, an invalid date *)
Date_time : value -> option Z;
(** [new Date(t).toISOString()] *)
toISOString : Z -> string;
(** the successive readings of the clock, in milliseconds *)
clock : nat -> Z;
(** the successive results of [uuidv4()] *)
uuidv4 : nat -> string;
(** whether the n-th command sent fails, and with which error *)
fault : nat -> Call -> option Error;
(** the job logic: a result, or a thrown error *)
executeJobLogic : Job -> value -> Error + value
}.

(** ** State and exceptions *)

(** A computation changes the world and either throws or returns.  The
    changes made before a throw stay. *)
Definition M (A : Type) : Type := World -> (Error + A) * World.

#[global] Instance M_ret : MRet M := fun A a w => (inr a, w).

#[global] Instance M_bind : MBind M := fun A B k m w =>
  match m w with
  | (inl e, w') => (inl e, w')
  | (inr a, w') => k a w'
  end.

Definition throw {A} (e : Error) : M A := fun w => (inl e, w).

(** [try { m } catch (e) { h e }] *)
Definition try_catch {A} (m : M A) (h : Error -> M A) : M A := fun w =>
  match m w with
  | (inl e, w') => h e w'
  | r => r
  end.

(** Reading the world. *)
Definition gets {A} (f : World -> A) : M A := fun w => (inr (f w), w).

(** [if (c) { m }] *)
Definition when_ (c : bool) (m : M unit) : M unit :=
  if c then m else mret tt.

(** ** The runtime and the three services *)

Section Services.
Context (env : Env).

(** [Date.now()], and the time of [new Date()] *)
Definition Date_now : M Z := fun w => (inr (clock env (ticks w)), tick w).

Definition uuid : M string := fun w => (inr (uuidv4 env (uuids w)), draw w).

(** [await client.send(c)]: the command is logged; when the service does
    not fail it takes effect. *)
Definition send (c : Call) (effect : World -> World) : M unit := fun w =>
  match fault env (length (trace w)) c with
  | Some e => (inl e, log c w)
  | None => (inr tt, effect (log c w))
  end.

(** *** The document store *)

Definition ddb_get (key : string) : M (option Job) :=
  send (GetCommand key) id ;; gets (fun w => jobs w !! key).

Definition ddb_put_job (Item : Job) : M unit :=
  send (PutJob Item) (set_jobs <[jobId Item := Item]>).

(** The document client marshals an item before it sends it; when it
    refuses the item, that is a fault of the command. *)
Definition ddb_put_invocation (Item : Invocation) : M unit :=
  send (PutInvocation Item) (set_invocations <[invocationId Item := Item]>).

Definition ddb_delete (key : string) : M unit :=
  send (DeleteCommand key) (set_jobs (delete key)).

(** The update expression
    [SET invocationCount = invocationCount + :inc, lastExecutedAt = :timestamp,
     updatedAt = :timestamp, #status = :status] with [:inc = 1]. *)
Definition apply_update (ts : Z) (newStatus : string) (j : Job) : Job :=
  {| jobId := jobId j; name := name j; description := description j;
     type := type j; scheduleExpression := scheduleExpression j;
     executeAt := executeAt j; payload := payload j;
     status := newStatus;
     createdAt := createdAt j;
     updatedAt := ts;
     invocationCount := invocationCount j + 1;
     lastExecutedAt := Some ts;
     ruleName := ruleName j |}.

(** The store rejects [invocationCount + :inc] on an item that is not
    there: the attribute is missing. *)
Definition missing_attribute : Error :=
  {| err_name := "ValidationException";
     err_message := "The provided expression refers to an attribute that does not exist in the item";
     err_stack := "" |}.

Definition ddb_update (key : string) (ts : Z) (newStatus : string) : M unit :=
  fun w =>
    let c := UpdateCommand key ts newStatus in
    match fault env (length (trace w)) c with
    | Some e => (inl e, log c w)
    | None =>
        match jobs w !! key with
        | Some j =>
            (inr tt, set_jobs <[key := apply_update ts newStatus j]> (log c w))
        | None => (inl missing_attribute, log c w)
        end
    end.

(** *** The rule service *)

Definition eb_put_rule (Name : string) (r : Rule) : M unit :=
  send (PutRuleCommand Name r) (set_rules <[Name := r]>).

Definition has_id (ids : list string) (t : Target) : bool :=
  existsb (String.eqb (Id t)) ids.

(** Targets are added to a rule, replacing those with the same id. *)
Definition add_targets (new old : list Target) : list Target :=
  List.filter (fun t => negb (has_id (Id <$> new) t)) old ++ new.

Definition eb_put_targets (rule : string) (Targets : list Target) : M unit :=
  send (PutTargetsCommand rule Targets)
       (set_targets (fun m => <[rule := add_targets Targets (default [] (m !! rule))]> m)).

Definition eb_list_targets (rule : string) : M (list Target) :=
  send (ListTargetsByRuleCommand rule) id ;;
  gets (fun w => default [] (targets w !! rule)).

Definition eb_remove_targets (rule : string) (Ids : list string) : M unit :=
  send (RemoveTargetsCommand rule Ids)
       (set_targets (alter (List.filter (fun t => negb (has_id Ids t))) rule)).

Definition eb_delete_rule (Name : string) : M unit :=
  send (DeleteRuleCommand Name) (set_rules (delete Name)).

(** *** The function service *)

Definition lambda_add_permission (StatementId : string) : M unit :=
  send (AddPermissionCommand StatementId) (set_permissions (union {[StatementId]})).

Definition lambda_remove_permission (StatementId : string) : M unit :=
  send (RemovePermissionCommand StatementId)
       (set_permissions (fun s => s ∖ {[StatementId]})).

(** [InvocationType: 'Event']: the executor is queued, not run. *)
Definition lambda_invoke (Payload : string * value) : M unit :=
  send (InvokeCommand Payload) (set_queued (fun q => (q ++ [Payload])%list)).

End Services.

(** ** Responses *)

(** The object a handler passes to [JSON.stringify] for the body. *)
Inductive Body : Type :=
| BError (msg : string)                       (* { error } *)
| BFailure (msg details : string)             (* { error, details } *)
| BCreated (job : Job)                        (* { message, job } *)
| BDeleted (key : string) (jobName : value)   (* { message, jobId, jobName } *)
| BExecuted (inv job : string) (dur : Z) (result : value)
| BExecutionFailed (inv job : string) (dur : Z) (msg : string)
| BCritical (details inv : string).           (* { error, details, invocationId } *)

Record Response : Type := {
  statusCode : Z;
  body : Body
}.

(** A handler's outermost [try { ... } catch (error) { ... }]: whatever is
    thrown inside is turned into a response. *)
Definition catch_all (m : M Response) (h : Error -> World -> Response * World)
    : World -> Response * World := fun w =>
  match m w with
  | (inl e, w') => h e w'
  | (inr r, w') => (r, w')
  end.

(** A string that is there and not empty: a truthy [jobId] or [ruleName]. *)
Definition present (o : option string) : option string :=
  match o with
  | Some s => if String.eqb s "" then None else Some s
  | None => None
  end.

(** ** The job executor (the dispatcher) *)

Module jobExecutor.

(** The event a rule target or an asynchronous invocation delivers:
    [{ jobId, payload }]. *)
Record Event : Type := {
  ev_jobId : option string;
  ev_payload : value
}.

Section Handler.
Context (env : Env).

Definition running (invocationId jobId : string) (timestamp startTime : Z)
    (payload : value) : Invocation :=
  {| invocationId := invocationId; inv_jobId := jobId;
     timestamp := timestamp; inv_status := "running";
     startedAt := startTime; input := payload;
     completedAt := None; duration := None; output := None;
     error := None; errorStack := None |}.

(** "Update invocation with result" *)
Definition finalize (invocation : Invocation) (outcome : Error + value)
    (endTime dur : Z) : Invocation :=
  match outcome with
  | inl executionError =>
      {| invocationId := invocationId invocation;
         inv_jobId := inv_jobId invocation;
         timestamp := timestamp invocation;
         inv_status := "failed";
         startedAt := startedAt invocation; input := input invocation;
         completedAt := Some endTime; duration := Some dur;
         output := output invocation;
         error := Some (err_message executionError);
         errorStack := Some (err_stack executionError) |}
  | inr result =>
      {| invocationId := invocationId invocation;
         inv_jobId := inv_jobId invocation;
         timestamp := timestamp invocation;
         inv_status := "completed";
         startedAt := startedAt invocation; input := input invocation;
         completedAt := Some endTime; duration := Some dur;
         output := Some result;
         error := error invocation;
         errorStack := errorStack invocation |}
  end.

(** "Update status based on job type and execution result" *)
Definition newStatus (job : Job) (outcome : Error + value) : string :=
  if String.eqb (type job) "immediate" then
    match outcome with inl _ => "failed" | inr _ => "completed" end
  else if String.eqb (type job) "once" then
    match outcome with inl _ => "failed" | inr _ => "completed" end
  else if String.eqb (type job) "cron" then "scheduled"
  else status job.

(** "For one-time jobs, delete the EventBridge rule after execution":
    [if (job.type === 'once' && job.ruleName) { try { ... } catch { } }] *)
Definition cleanup (job : Job) : M unit :=
  match (if String.eqb (type job) "once"
         then present (ruleName job) else None) with
  | Some ruleName =>
      try_catch
        (eb_remove_targets env ruleName ["1"];;
         eb_delete_rule env ruleName;;
         try_catch
           (lambda_remove_permission env (ruleName ++ "-permission"))
           (fun _ => mret tt))
        (fun _ => mret tt)
  | None => mret tt
  end.

(** The body of the handler's [try]. *)
Definition run (event : Event) (invocationId : string) (timestamp : Z)
    : M Response :=
  match present (ev_jobId event) with
  | None =>
      mret {| statusCode := 400;
              body := BError "Invalid event format - jobId required" |}
  | Some jobId =>
      let payload := js_or (ev_payload event) (VObj []) in
      jobResult ← ddb_get env jobId;
      match jobResult with
      | None =>
          mret {| statusCode := 404; body := BError "Job not found" |}
      | Some job =>
          startTime ← Date_now env;
          let invocation :=
            running invocationId jobId timestamp startTime payload in
          ddb_put_invocation env invocation;;
          let outcome := executeJobLogic env job payload in
          endTime ← Date_now env;
          let dur := (endTime - startTime)%Z in
          let invocation := finalize invocation outcome endTime dur in
          ddb_put_invocation env invocation;;
          ddb_update env jobId timestamp (newStatus job outcome);;
          cleanup job;;
          mret match outcome with
               | inl executionError =>
                   {| statusCode := 500;
                      body := BExecutionFailed invocationId jobId dur
                                (err_message executionError) |}
               | inr result =>
                   {| statusCode := 200;
                      body := BExecuted invocationId jobId dur result |}
               end
      end
  end.

(** The handler's [catch]: "Try to record failed invocation". *)
Definition critical (event : Event) (invocationId : string) (timestamp : Z)
    (err : Error) : World -> Response * World := fun w =>
  let record : M unit :=
    completed ← Date_now env;
    now ← Date_now env;
    ddb_put_invocation env
      {| invocationId := invocationId;
         inv_jobId := default "unknown" (present (ev_jobId event));
         timestamp := timestamp; inv_status := "failed";
         startedAt := timestamp; input := VUndefined;
         completedAt := Some completed;
         duration := Some (now - timestamp)%Z;
         output := None;
         error := Some (err_message err);
         errorStack := Some (err_stack err) |} in
  ({| statusCode := 500;
      body := BCritical (err_message err) invocationId |},
   snd (try_catch record (fun _ => mret tt) w)).

Definition handler (event : Event) : World -> Response * World := fun w =>
  let invocationId := uuidv4 env (uuids w) in
  let timestamp := clock env (ticks w) in
  catch_all (run event invocationId timestamp)
            (critical event invocationId timestamp)
            (tick (draw w)).

End Handler.

End jobExecutor.

(** ** Creating a job *)

Module createJob.

(** The request: [event.body], a JSON text when the client sent one. *)
Record Event : Type := {
  event_body : value
}.

Definition syntax_error : Error :=
  {| err_name := "SyntaxError"; err_message := "Unexpected token in JSON";
     err_stack := "" |}.

Definition type_error : Error :=
  {| err_name := "TypeError";
     err_message := "Cannot destructure property 'name' of 'body'";
     err_stack := "" |}.

Definition range_error : Error :=
  {| err_name := "RangeError"; err_message := "Invalid time value";
     err_stack := "" |}.

Definition bad_request (msg : string) : Response :=
  {| statusCode := 400; body := BError msg |}.

Definition created (job : Job) : Response :=
  {| statusCode := 201; body := BCreated job |}.

Definition jobTypes : list string := ["immediate"; "once"; "cron"].

(** [job.status = s] and [job.ruleName = r] on the handler's own copy of
    the record, the one it returns. *)
Definition with_status (s : string) (j : Job) : Job :=
  {| jobId := jobId j; name := name j; description := description j;
     type := type j; scheduleExpression := scheduleExpression j;
     executeAt := executeAt j; payload := payload j; status := s;
     createdAt := createdAt j; updatedAt := updatedAt j;
     invocationCount := invocationCount j;
     lastExecutedAt := lastExecutedAt j; ruleName := ruleName j |}.

Definition with_ruleName (r : string) (j : Job) : Job :=
  {| jobId := jobId j; name := name j; description := description j;
     type := type j; scheduleExpression := scheduleExpression j;
     executeAt := executeAt j; payload := payload j; status := status j;
     createdAt := createdAt j; updatedAt := updatedAt j;
     invocationCount := invocationCount j;
     lastExecutedAt := lastExecutedAt j; ruleName := Some r |}.

Section Handler.
Context (env : Env).

(** [JSON.parse(event.body)] *)
Definition parse (b : value) : M value :=
  match JSON_parse env (to_string b) with
  | Some v => mret v
  | None => throw syntax_error
  end.

(** The three steps both scheduled branches take: the rule, the
    permission to invoke the executor (a conflict means it is there
    already), the target. *)
Definition register (jobId ruleName : string) (expression : value)
    (desc : string) (payload : value) : M unit :=
  eb_put_rule env ruleName
    {| ScheduleExpression := expression; State := "ENABLED";
       Description := desc |};;
  try_catch
    (lambda_add_permission env (ruleName ++ "-permission"))
    (fun err =>
       if String.eqb (err_name err) "ResourceConflictException"
       then mret tt else throw err);;
  eb_put_targets env ruleName [{| Id := "1"; Input := (jobId, payload) |}].

(** The record [const job = { ... }]. *)
Definition new_job (jobId : string) (timestamp : Z)
    (name description : value) (type : string)
    (scheduleExpression executeAt payload : value) : Job :=
  {| jobId := jobId;
     name := name;
     description := js_or description (VStr "");
     type := type;
     scheduleExpression := js_or scheduleExpression VNull;
     executeAt := js_or executeAt VNull;
     payload := js_or payload (VObj []);
     status := if String.eqb type "immediate"
               then "executing" else "scheduled";
     createdAt := timestamp;
     updatedAt := timestamp;
     invocationCount := 0;
     lastExecutedAt := None;
     ruleName := None |}.

(** "Handle different job types": what follows the write of the record.
    [job] is the record just written; the schedule expression, the
    execution time and the payload are those of the request. *)
Definition schedule (job : Job)
    (scheduleExpression executeAt payload : value) : M Response :=
  if String.eqb (type job) "immediate" then
    lambda_invoke env (jobId job, payload);;
    mret (created (with_status "executing" job))
  else if String.eqb (type job) "once" then
    let ruleName := "job-" ++ jobId job in
    match Date_time env executeAt with
    | None => throw range_error
    | Some executeDate =>
        let atExpression :=
          "at(" ++ String.substring 0 19 (toISOString env executeDate)
          ++ ")" in
        register (jobId job) ruleName (VStr atExpression)
                 ("One-time job: " ++ to_string (name job)) payload;;
        mret (created (with_ruleName ruleName job))
    end
  else if String.eqb (type job) "cron" then
    let ruleName := "job-" ++ jobId job in
    register (jobId job) ruleName scheduleExpression
             ("Recurring job: " ++ to_string (name job)) payload;;
    mret (created (with_ruleName ruleName job))
  else
    mret (created job).

(** From [const jobId = uuidv4()] to the 201 response: the record is
    written, then the job is scheduled. *)
Definition create (name description : value) (type : string)
    (scheduleExpression executeAt payload : value) : M Response :=
  jobId ← uuid env;
  timestamp ← Date_now env;
  let job := new_job jobId timestamp name description type
                     scheduleExpression executeAt payload in
  ddb_put_job env job;;
  schedule job scheduleExpression executeAt payload.

(** The body of the handler's [try]: parsing, validation, creation. *)
Definition run (event : Event) : M Response :=
  body ← parse (event_body event);
  if nullish body then throw type_error
  else
      let name := get_field body "name" in
      let description := get_field body "description" in
      let type := get_field body "type" in
      let scheduleExpression := get_field body "scheduleExpression" in
      let executeAt := get_field body "executeAt" in
      let payload := get_field body "payload" in
      if negb (truthy name) || negb (truthy type) then
        mret (bad_request "name and type are required fields")
      else
        match type with
        | VStr type =>
            if negb (existsb (String.eqb type) jobTypes) then
              mret (bad_request
                      "Invalid job type. Must be: immediate, once, or cron")
            else if String.eqb type "once" && negb (truthy executeAt) then
              mret (bad_request
                      "executeAt is required for once type jobs (ISO 8601 format)")
            else if String.eqb type "cron"
                    && negb (truthy scheduleExpression) then
              mret (bad_request
                      "scheduleExpression is required for cron type jobs")
            else if String.eqb type "once" then
              match Date_time env executeAt with
              | None =>
                  mret (bad_request
                          "Invalid executeAt format. Use ISO 8601 (e.g., 2026-01-15T10:00:00Z)")
              | Some executeDate =>
                  now ← Date_now env;
                  if (executeDate <=? now)%Z then
                    mret (bad_request "executeAt must be in the future")
                  else
                    create name description type scheduleExpression
                           executeAt payload
              end
            else
              create name description type scheduleExpression
                     executeAt payload
        | _ =>
            mret (bad_request
                    "Invalid job type. Must be: immediate, once, or cron")
        end.

Definition handler (event : Event) : World -> Response * World :=
  catch_all (run event)
    (fun err w =>
       ({| statusCode := 500;
           body := BFailure "Failed to create job" (err_message err) |},
        w)).

End Handler.

End createJob.

(** ** Deleting a job *)

Module deleteJob.

(** [event.pathParameters?.jobId] *)
Record Event : Type := {
  pathParameters_jobId : option string
}.

Section Handler.
Context (env : Env).

(** "Delete EventBridge rule if it exists (for once and cron jobs)":
    every error is logged and dropped. *)
Definition remove_rule (job : Job) : M unit :=
  match (if String.eqb (type job) "once" || String.eqb (type job) "cron"
         then present (ruleName job) else None) with
  | Some ruleName =>
      try_catch
        (Targets ← eb_list_targets env ruleName;
         when_ (0 <? length Targets)%nat
               (eb_remove_targets env ruleName (Id <$> Targets));;
         eb_delete_rule env ruleName;;
         try_catch
           (lambda_remove_permission env (ruleName ++ "-permission"))
           (fun _ => mret tt))
        (fun _ => mret tt)
  | None => mret tt
  end.

Definition run (event : Event) : M Response :=
  match present (pathParameters_jobId event) with
  | None =>
      mret {| statusCode := 400; body := BError "jobId is required" |}
  | Some jobId =>
      jobResult ← ddb_get env jobId;
      match jobResult with
      | None =>
          mret {| statusCode := 404; body := BError "Job not found" |}
      | Some job =>
          remove_rule job;;
          ddb_delete env jobId;;
          mret {| statusCode := 200; body := BDeleted jobId (name job) |}
      end
  end.

Definition handler (event : Event) : World -> Response * World :=
  catch_all (run event)
    (fun err w =>
       ({| statusCode := 500;
           body := BFailure "Failed to delete job" (err_message err) |},
        w)).

End Handler.

End deleteJob.

(** ** JavaScript numbers *)

(** A JavaScript number is a binary64 float, and an arithmetic operation
    gives the number nearest to the exact result.  Numbers are kept as the
    rationals they are; [binary64] rounds a rational to the nearest number
    with 53 significant bits, a tie going to the even significand.
    Overflow and subnormal numbers are out of its range. *)

(** [floor (log2 x)] for [0 < x] *)
Definition binade (x : Q) : Z :=
  let d := (Z.log2 (Qnum x) - Z.log2 (Zpos (Qden x)))%Z in
  if Qle_bool (2 ^ d) x then d else (d - 1)%Z.

(** The integer nearest to [x], a tie going to the even one. *)
Definition nearest_even (x : Q) : Z :=
  let f := Qfloor x in
  match Qcompare (x - inject_Z f) (1 # 2) with
  | Lt => f
  | Gt => (f + 1)%Z
  | Eq => if Z.even f then f else (f + 1)%Z
  end.

Definition binary64 (x : Q) : Q :=
  let x := Qred x in
  match Qnum x with
  | Z0 => 0%Q
  | Zpos _ =>
      let ulp := (2 ^ (binade x - 52))%Q in
      (inject_Z (nearest_even (x / ulp)) * ulp)%Q
  | Zneg _ =>
      let ulp := (2 ^ (binade (- x) - 52))%Q in
      (- (inject_Z (nearest_even (- x / ulp)) * ulp))%Q
  end.

(** The relative error of one rounding is at most [2^-53]. *)
Definition unit_roundoff : Q := 1 # (2 ^ 53).

(** ** Statistics over the invocations of a job *)

Module getJob.

Record Statistics : Type := {
  totalInvocations : nat;
  completed : nat;
  failed : nat;
  running : nat;
  averageDuration : Z;
  successRate : value
}.

(** [inv.status === s] *)
Definition has_status (s : string) (inv : Invocation) : bool :=
  String.eqb (inv_status inv) s.

(** [Math.round]: the nearest integer, a tie going up. *)
Definition Math_round (x : Q) : Z := Qfloor (x + (1 # 2))%Q.

Definition two_digits (n : Z) : string :=
  if (n <? 10)%Z then "0" ++ string_of_Z n else string_of_Z n.

(** [x.toFixed(2)] for a number [0 <= x]: the hundredths nearest to the
    number, the larger at a tie, printed with two decimals. *)
Definition hundredths (x : Q) : Z := Qfloor (x * 100 + (1 # 2))%Q.

Definition toFixed2 (x : Q) : string :=
  let n := hundredths x in
  string_of_Z (n / 100) ++ "." ++ two_digits (n mod 100).

(** "Calculate statistics", on the items the query returned.  The success
    rate is computed as the code computes it, [(completed / total) * 100] on
    binary64 numbers, then [toFixed(2)].  The mean of the durations is taken
    exactly. *)
Definition statistics (invocations : list Invocation) : Statistics :=
  let completedInvocations :=
    List.filter (has_status "completed") invocations in
  let failedInvocations := List.filter (has_status "failed") invocations in
  let runningInvocations := List.filter (has_status "running") invocations in
  let averageDuration : Q :=
    if (0 <? length completedInvocations)%nat then
      (inject_Z (fold_left (fun sum inv => (sum + default 0 (duration inv))%Z)
                           completedInvocations 0%Z)
       / inject_Z (Z.of_nat (length completedInvocations)))%Q
    else 0%Q in
  {| totalInvocations := length invocations;
     completed := length completedInvocations;
     failed := length failedInvocations;
     running := length runningInvocations;
     averageDuration := Math_round averageDuration;
     successRate :=
       if (0 <? length invocations)%nat then
         VStr (toFixed2
                 (binary64
                    (binary64
                       (inject_Z (Z.of_nat (length completedInvocations))
                        / inject_Z (Z.of_nat (length invocations)))
                     * 100))%Q)
       else VNum 0 |}.

End getJob.

(** ** A concrete environment and concrete requests *)

Module Example.

Definition quote : string := String "034"%char "".

(** [JSON.stringify] on the values the requests below are made of. *)
Fixpoint stringify (v : value) : string :=
  match v with
  | VUndefined => "undefined"
  | VNull => "null"
  | VBool true => "true"
  | VBool false => "false"
  | VNum n => string_of_Z n
  | VStr s => quote ++ s ++ quote
  | VArr items =>
      "[" ++ (fix join (l : list value) : string :=
                match l with
                | [] => ""
                | x :: l' =>
                    stringify x
                    ++ match l' with [] => "" | _ => "," ++ join l' end
                end) items ++ "]"
  | VObj fields =>
      "{" ++ (fix join (l : list (string * value)) : string :=
                match l with
                | [] => ""
                | (k, x) :: l' =>
                    quote ++ k ++ quote ++ ":" ++ stringify x
                    ++ match l' with [] => "" | _ => "," ++ join l' end
                end) fields ++ "}"
  end.

Definition immediate_request : value :=
  VObj [("name", VStr "report"); ("type", VStr "immediate");
        ("executeAt", VStr "2030-01-01T00:00:00Z")].

Definition once_request : value :=
  VObj [("name", VStr "backup"); ("type", VStr "once");
        ("executeAt", VStr "2030-01-01T00:00:00Z")].

Definition late_request : value :=
  VObj [("name", VStr "backup"); ("type", VStr "once");
        ("executeAt", VStr "2020-01-01T00:00:00Z")].

Definition cron_request : value :=
  VObj [("name", VStr "sync"); ("type", VStr "cron");
        ("scheduleExpression", VStr "rate(15 minutes)")].

Definition failing_request : value :=
  VObj [("name", VStr "import"); ("type", VStr "immediate");
        ("payload", VObj [("action", VStr "fail")])].

Definition requests : list value :=
  [immediate_request; once_request; late_request; cron_request;
   failing_request; VNull].

(** A parser that knows the texts of the requests above and rejects every
    other text. *)
Definition parse (s : string) : option value :=
  List.find (fun v => String.eqb (stringify v) s) requests.

Definition time_of (v : value) : option Z :=
  match v with
  | VStr "2030-01-01T00:00:00Z" => Some 1893456000000%Z
  | VStr "2020-01-01T00:00:00Z" => Some 1577836800000%Z
  | VNum n => Some n
  | _ => None
  end.

Definition iso (t : Z) : string :=
  if (t =? 1893456000000)%Z then "2030-01-01T00:00:00.000Z"
  else "1970-01-01T00:00:00.000Z".

Definition boom : Error :=
  {| err_name := "Error"; err_message := "boom"; err_stack := "" |}.

(** Job logic that throws when the payload asks for it. *)
Definition logic (job : Job) (payload : value) : Error + value :=
  match get_field payload "action" with
  | VStr "fail" => inl boom
  | _ => inr (VObj [("message", VStr "Job completed successfully")])
  end.

(** The clock starts in November 2023 and advances by a quarter of a second
    between two readings; no service ever fails. *)
Definition env : Env :=
  {| JSON_parse := parse;
     Date_time := time_of;
     toISOString := iso;
     clock := fun n => (1700000000000 + 250 * Z.of_nat n)%Z;
     uuidv4 := fun n => "uuid-" ++ string_of_Z (Z.of_nat n);
     fault := fun _ _ => None;
     executeJobLogic := logic |}.

Definition unavailable : Error :=
  {| err_name := "ServiceUnavailable"; err_message := "unavailable";
     err_stack := "" |}.

(** The same, with a rule service that is down. *)
Definition env_rules_down : Env :=
  {| JSON_parse := parse;
     Date_time := time_of;
     toISOString := iso;
     clock := clock env;
     uuidv4 := uuidv4 env;
     fault := fun _ c => if rule_call c then Some unavailable else None;
     executeJobLogic := logic |}.

Definition empty : World :=
  {| jobs := ∅; invocations := ∅; rules := ∅; targets := ∅;
     permissions := ∅; queued := []; trace := []; ticks := 0; uuids := 0 |}.

Definition post (v : value) : createJob.Event :=
  {| createJob.event_body := VStr (stringify v) |}.

Definition fire (id : string) : jobExecutor.Event :=
  {| jobExecutor.ev_jobId := Some id; jobExecutor.ev_payload := VUndefined |}.

End Example.

(** Worlds the requests above lead to, and the records they write. *)
Module Scenario.
Import Example.

Definition once_created : World :=
  (createJob.handler env (post once_request) empty).2.

Definition cron_created : World :=
  (createJob.handler env (post cron_request) empty).2.

Definition once_job : Job :=
  createJob.new_job "uuid-0" 1700000000250 (VStr "backup") VUndefined "once"
    VUndefined (VStr "2030-01-01T00:00:00Z") VUndefined.

Definition cron_job : Job :=
  createJob.new_job "uuid-0" 1700000000000 (VStr "sync") VUndefined "cron"
    (VStr "rate(15 minutes)") VUndefined VUndefined.

(** Invocations as the executor records them. *)
Definition finished_in (d : Z) : Invocation :=
  {| invocationId := "i"; inv_jobId := "j"; timestamp := 0;
     inv_status := "completed"; startedAt := 0; input := VObj [];
     completedAt := Some d; duration := Some d;
     output := Some (VObj []); error := None; errorStack := None |}.

Definition failed_in (d : Z) : Invocation :=
  {| invocationId := "i"; inv_jobId := "j"; timestamp := 0;
     inv_status := "failed"; startedAt := 0; input := VObj [];
     completedAt := Some d; duration := Some d;
     output := None; error := Some "boom"; errorStack := Some "" |}.

End Scenario.

(** ** Further vocabulary *)

(** The statuses the executor writes to the table of invocations. *)
Definition known_status (inv : Invocation) : Prop :=
  In (inv_status inv) ["completed"; "failed"; "running"].

(** Every invocation of the table has one of them. *)
Definition ledger_ok (w : World) : Prop :=
  forall k inv, invocations w !! k = Some inv -> known_status inv.


(** [returns P m]: whenever [m] returns, what it returns satisfies [P]. *)
Definition returns {A} (P : A -> Prop) (m : M A) : Prop :=
  forall w a w', m w = (inr a, w') -> P a.

(** [preserves I m]: [m] keeps the property [I] of the world, whether it
    returns or throws. *)
Definition preserves {A} (I : World -> Prop) (m : M A) : Prop :=
  forall w, I w -> I (m w).2.

(** *** What the document client refuses *)

(** The handlers build their document client with its default options: it
    throws on an item that holds somewhere [undefined] or a number outside
    the safe integers, before anything is sent to the store. *)
Definition safe_integer (n : Z) : bool :=
  (- (2 ^ 53 - 1) <=? n)%Z && (n <=? 2 ^ 53 - 1)%Z.

Fixpoint unmarshallable (v : value) : bool :=
  match v with
  | VUndefined => true
  | VNum n => negb (safe_integer n)
  | VArr items => existsb unmarshallable items
  | VObj fields =>
      existsb (fun kv => match kv with (_, x) => unmarshallable x end) fields
  | _ => false
  end.

(** An invocation item the client refuses.  The record of the [catch] has
    no [input]: that absence is written [VUndefined] and is no property. *)
Definition refused_invocation (Item : Invocation) : bool :=
  match input Item with
  | VUndefined => false
  | v => unmarshallable v
  end
  || match output Item with
     | Some v => unmarshallable v
     | None => false
     end.

Definition refused_job (Item : Job) : bool :=
  unmarshallable (name Item) || unmarshallable (description Item)
  || unmarshallable (scheduleExpression Item)
  || unmarshallable (executeAt Item) || unmarshallable (payload Item).

Definition refused (c : Call) : bool :=
  match c with
  | PutInvocation Item => refused_invocation Item
  | PutJob Item => refused_job Item
  | _ => false
  end.

(** Services that answer every command, behind a client that throws [err]
    on the items it refuses: the only failures are the client's. *)
Definition ClientRefuses (env : Env) (err : Error) : Prop :=
  forall n c, fault env n c = if refused c then Some err else None.

(** An outcome of the job logic that the client can store: a throw, or a
    result that it marshals. *)
Definition storable (outcome : Error + value) : bool :=
  match outcome with
  | inl _ => true
  | inr result => negb (unmarshallable result)
  end.

(** Further worlds and environments for the examples. *)
Module Scenario2.

(** The world after the creation of the one-time job, had the rule name been
    stored with the record. *)
Definition once_recorded : World :=
  set_jobs <["uuid-0" := createJob.with_ruleName "job-uuid-0" Scenario.once_job]>
           Scenario.once_created.

(** The same for the cron job. *)
Definition cron_recorded : World :=
  set_jobs <["uuid-0" := createJob.with_ruleName "job-uuid-0" Scenario.cron_job]>
           Scenario.cron_created.

(** A store that rejects every update and accepts everything else. *)
Definition env_updates_rejected : Env :=
  {| JSON_parse := Example.parse;
     Date_time := Example.time_of;
     toISOString := Example.iso;
     clock := clock Example.env;
     uuidv4 := uuidv4 Example.env;
     fault := fun _ c => match c with
                         | UpdateCommand _ _ _ => Some Example.unavailable
                         | _ => None
                         end;
     executeJobLogic := Example.logic |}.

(** Requests that validation turns down, and one that it accepts. *)
Definition nameless_request : value := VObj [("type", VStr "immediate")].

Definition odd_request : value :=
  VObj [("name", VStr "test-job"); ("type", VStr "invalid-type")].

Definition bare_cron_request : value :=
  VObj [("name", VStr "sync"); ("type", VStr "cron")].

Definition plain_request : value :=
  VObj [("name", VStr "test-job"); ("type", VStr "immediate");
        ("payload", VObj [("key", VStr "value")])].

Definition parse (s : string) : option value :=
  List.find (fun v => String.eqb (Example.stringify v) s)
    [nameless_request; odd_request; bare_cron_request; plain_request;
     Example.once_request; Example.cron_request].

(** The example environment with a parser for these requests. *)
Definition env : Env :=
  {| JSON_parse := parse;
     Date_time := Example.time_of;
     toISOString := Example.iso;
     clock := clock Example.env;
     uuidv4 := uuidv4 Example.env;
     fault := fun _ _ => None;
     executeJobLogic := Example.logic |}.





End Scenario2.

(** ** The job logic *)

(** [jobLogic.js]: what the executor runs for a job.  The logic routes on
    [payload.action] to one of five examples or to a default; its results
    are plain objects.  The waits of [simulateWork] only take time and are
    left out; the readings of [new Date().toISOString()] and of
    [Math.random()] during one execution are parameters. *)
Module jobLogic.

(** [v === s] for a string literal [s] *)
Definition is_string (v : value) (s : string) : bool :=
  match v with
  | VStr s' => String.eqb s' s
  | _ => false
  end.

(** A text is held as its UTF-8 bytes; JavaScript indexes a string by
    UTF-16 code units.  [code_units] gives the units of a text, each as the
    text of that unit alone: a character of the basic plane is one unit (its
    own bytes), any other character is a pair of surrogates, each held in
    the three-byte form of its code.  A byte that starts no character is
    taken alone. *)
Definition unit_bytes (u : N) : string :=
  String (ascii_of_N (224 + u / 4096))
    (String (ascii_of_N (128 + (u / 64) mod 64))
       (String (ascii_of_N (128 + u mod 64)) EmptyString)).

Fixpoint code_units (s : string) : list string :=
  match s with
  | EmptyString => []
  | String b0 s1 =>
      let n0 := N_of_ascii b0 in
      if (n0 <? 192)%N then String b0 EmptyString :: code_units s1
      else if (n0 <? 224)%N then
        match s1 with
        | String b1 s2 =>
            String b0 (String b1 EmptyString) :: code_units s2
        | _ => String b0 EmptyString :: code_units s1
        end
      else if (n0 <? 240)%N then
        match s1 with
        | String b1 (String b2 s3) =>
            String b0 (String b1 (String b2 EmptyString)) :: code_units s3
        | _ => String b0 EmptyString :: code_units s1
        end
      else
        match s1 with
        | String b1 (String b2 (String b3 s4)) =>
            let point := ((n0 mod 8) * 262144
                          + (N_of_ascii b1 mod 64) * 4096
                          + (N_of_ascii b2 mod 64) * 64
                          + N_of_ascii b3 mod 64)%N in
            let v := (point - 65536)%N in
            unit_bytes (55296 + v / 1024)
              :: unit_bytes (56320 + v mod 1024) :: code_units s4
        | _ => String b0 EmptyString :: code_units s1
        end
  end.

Definition index_key (i : nat) : string := string_of_Z (Z.of_nat i).

(** What a spread [{ ...v }] copies: the fields of an object, the elements
    of an array and the code units of a string under their indices, and
    nothing of another value. *)
Definition own_properties (v : value) : list (string * value) :=
  match v with
  | VObj fields => fields
  | VArr items => imap (fun i x => (index_key i, x)) items
  | VStr s => imap (fun i c => (index_key i, VStr c)) (code_units s)
  | _ => []
  end.

(** A later property of an object literal: it replaces the value of a
    property already there and is added otherwise. *)
Fixpoint set_field (k : string) (v : value) (l : list (string * value))
    : list (string * value) :=
  match l with
  | [] => [(k, v)]
  | (k', v') :: l' =>
      if String.eqb k k' then (k, v) :: l' else (k', v') :: set_field k v l'
  end.

Section Logic.
(** the successive readings of [new Date().toISOString()] *)
Context (stamp : nat -> string).
(** the successive results of [Math.random()], binary64 numbers of [0, 1) *)
Context (random : nat -> Q).
(** the stack the runtime gives a TypeError *)
Context (stack : string).

Definition not_a_function : Error :=
  {| err_name := "TypeError"; err_message := "data.map is not a function";
     err_stack := stack |}.

(** Reading a property of null or undefined. *)
Definition cannot_read (v : value) (property : string) : Error :=
  {| err_name := "TypeError";
     err_message := "Cannot read properties of " ++ to_string v
                    ++ " (reading '" ++ property ++ "')";
     err_stack := stack |}.

(** [{ ...item, processed: true, processedAt: ..., processedBy: job.jobId }] *)
Definition mark (job : Job) (i : nat) (item : value) : value :=
  VObj (set_field "processedBy" (VStr (jobId job))
          (set_field "processedAt" (VStr (stamp i))
             (set_field "processed" (VBool true) (own_properties item)))).

(** [data.map] exists on an array only. *)
Definition processData (job : Job) (payload : value) : Error + value :=
  match js_or (get_field payload "data") (VArr []) with
  | VArr data =>
      let processed := imap (mark job) data in
      inr (VObj [("message", VStr "Data processed successfully");
                 ("itemsProcessed", VNum (Z.of_nat (length processed)));
                 ("data", VArr processed)])
  | _ => inl not_a_function
  end.

Definition sendNotification (job : Job) (payload : value) : Error + value :=
  inr (VObj [("message", VStr "Notification sent successfully");
             ("recipient", get_field payload "recipient");
             ("sentAt", VStr (stamp 0))]).

Definition performCleanup (job : Job) (payload : value) : Error + value :=
  let target := js_or (get_field payload "target") (VStr "unknown") in
  let olderThan := js_or (get_field payload "olderThan") (VStr "30days") in
  let recordsDeleted := Qfloor (binary64 (random 0 * 100)%Q) in
  inr (VObj [("message", VStr "Cleanup completed successfully");
             ("target", target);
             ("olderThan", olderThan);
             ("recordsDeleted", VNum recordsDeleted);
             ("cleanupDate", VStr (stamp 0))]).

Definition generateReport (job : Job) (payload : value) : Error + value :=
  let reportType := js_or (get_field payload "reportType") (VStr "general") in
  inr (VObj [("message", VStr "Report generated successfully");
             ("reportType", reportType);
             ("generatedAt", VStr (stamp 0));
             ("reportUrl",
              VStr ("https://example.com/reports/" ++ jobId job ++ ".pdf"));
             ("recordsIncluded",
              VNum (Qfloor (binary64 (random 0 * 1000)%Q)))]).

Definition callExternalAPI (job : Job) (payload : value) : Error + value :=
  let endpoint := get_field payload "endpoint" in
  let method := js_or (get_field payload "method") (VStr "GET") in
  inr (VObj [("message", VStr "API call completed successfully");
             ("endpoint", endpoint);
             ("method", method);
             ("status", VNum 200);
             ("responseTime", VStr "1.5s")]).

Definition defaultJobExecution (job : Job) (payload : value)
    : Error + value :=
  inr (VObj [("message", VStr "Job completed successfully");
             ("executedAt", VStr (stamp 0));
             ("jobName", name job);
             ("payload", payload);
             ("customData", VObj [("processingTime", VStr "1s");
                                  ("status", VStr "success")])]).

(** [switch (payload.action)]: the cases compare with [===]. *)
Definition executeJobLogic (job : Job) (payload : value) : Error + value :=
  if nullish payload then inl (cannot_read payload "action")
  else
    let action := get_field payload "action" in
    if is_string action "process-data" then processData job payload
    else if is_string action "send-notification" then
      sendNotification job payload
    else if is_string action "cleanup" then performCleanup job payload
    else if is_string action "generate-report" then generateReport job payload
    else if is_string action "api-call" then callExternalAPI job payload
    else defaultJobExecution job payload.

End Logic.

End jobLogic.

(** Payloads and an environment for the examples of the job logic. *)
Module Scenario3.

Definition stamp (n : nat) : string :=
  Example.iso (1700000000000 + 250 * Z.of_nat n).

Definition random (n : nat) : Q := 3 # 8.

Definition logic : Job -> value -> Error + value :=
  jobLogic.executeJobLogic stamp random "".

Definition rows : list value :=
  [VObj [("id", VNum 1)]; VObj [("id", VNum 2); ("processed", VBool false)]].

Definition process_rows : value :=
  VObj [("action", VStr "process-data"); ("data", VArr rows)].


Definition cleanup_logs : value :=
  VObj [("action", VStr "cleanup"); ("target", VStr "logs")].

(** A notification without a recipient, as a request and as the payload
    the executor receives. *)
Definition notify : value :=
  VObj [("action", VStr "send-notification"); ("message", VStr "hello")].

Definition notify_request : value :=
  VObj [("name", VStr "notify"); ("type", VStr "immediate");
        ("payload", notify)].

Definition parse (s : string) : option value :=
  List.find (fun v => String.eqb (Example.stringify v) s)
    [notify_request; Example.once_request; Example.cron_request].

(** What the document client throws on an item that holds [undefined]. *)
Definition undefined_value : Error :=
  {| err_name := "Error";
     err_message := "Pass options.removeUndefinedValues=true to remove undefined values from map/array/set.";
     err_stack := "" |}.

(** The job logic of the repository, services that answer, and the
    document client in front of them. *)
Definition env_client : Env :=
  {| JSON_parse := parse;
     Date_time := Example.time_of;
     toISOString := Example.iso;
     clock := clock Example.env;
     uuidv4 := uuidv4 Example.env;
     fault := fun _ c => if refused c then Some undefined_value else None;
     executeJobLogic := logic |}.

(** The world after the creation of the notification job, and the record
    the creation stored. *)
Definition notify_created : World :=
  (createJob.handler env_client (Example.post notify_request) Example.empty).2.

Definition notify_job : Job :=
  createJob.new_job "uuid-0" 1700000000000 (VStr "notify") VUndefined
    "immediate" VUndefined VUndefined notify.

(** The example environment with the job logic of the repository. *)
Definition env : Env :=
  {| JSON_parse := Example.parse;
     Date_time := Example.time_of;
     toISOString := Example.iso;
     clock := clock Example.env;
     uuidv4 := uuidv4 Example.env;
     fault := fun _ _ => None;
     executeJobLogic := logic |}.

End Scenario3.

(** ** Reading the tables *)

(** [Array.prototype.sort(compare)]: a stable sort; [compare a b <= 0]
    keeps [a] before [b]. *)
Fixpoint sort_insert {A} (compare : A -> A -> Z) (x : A) (l : list A)
    : list A :=
  match l with
  | [] => [x]
  | y :: l' =>
      if (compare x y <=? 0)%Z then x :: l else y :: sort_insert compare x l'
  end.

Definition Array_sort {A} (compare : A -> A -> Z) (l : list A) : list A :=
  foldr (sort_insert compare) [] l.

(** A scan or a query evaluates at most [Limit] items, and filters what it
    has evaluated.  The store rejects a limit below 1; what it does with a
    limit that is not a number ([None]) is [nan_limit]: it refuses, or it
    evaluates up to some number of items.  One call is taken to fit in a
    page of the store. *)
Definition invalid_limit : Error :=
  {| err_name := "ValidationException";
     err_message := "Limit must be greater than or equal to 1";
     err_stack := "" |}.

Definition evaluated (nan_limit : Error + nat) (Limit : option Z)
    : Error + nat :=
  match Limit with
  | None => nan_limit
  | Some n => if (n <? 1)%Z then inl invalid_limit else inr (Z.to_nat n)
  end.

(** *** Listing the jobs *)

Module listJobs.

Record QueryStringParameters : Type := {
  qs_type : option string;
  qs_status : option string;
  qs_limit : option string
}.

(** The request: [event.queryStringParameters], when there are any. *)
Record Event : Type := {
  queryStringParameters : option QueryStringParameters
}.

(** [{}] *)
Definition no_parameters : QueryStringParameters :=
  {| qs_type := None; qs_status := None; qs_limit := None |}.

(** The parameters of the scan.  The filter expression is the conjunction
    of its conditions, each [#attribute = :value]; it is absent when there
    is none. *)
Record ScanParams : Type := {
  Limit : option Z;
  FilterExpression : list (string * string)
}.

Record ScanResult : Type := {
  Items : list Job;
  ScannedCount : nat
}.

Inductive Body : Type :=
| BJobs (count : nat) (jobs : list Job) (scannedCount : nat)
| BFailure (error details : string).

Record Response : Type := {
  statusCode : Z;
  body : Body
}.

(** The two attributes a filter can name, as the store compares them. *)
Definition attribute (j : Job) (a : string) : option string :=
  if String.eqb a "type" then Some (type j)
  else if String.eqb a "status" then Some (status j)
  else None.

Definition passes (conditions : list (string * string)) (j : Job) : bool :=
  forallb (fun c => match attribute j (fst c) with
                    | Some x => String.eqb x (snd c)
                    | None => false
                    end) conditions.

Section Handler.
(** [parseInt]; [None] is NaN *)
Context (parseInt : string -> option Z).
Context (nan_limit : Error + nat).
(** the order in which the store scans a table *)
Context (scan_order : gmap string Job -> list Job).
(** whether the scan fails *)
Context (scan_fault : option Error).

(** [await docClient.send(new ScanCommand(scanParams))] *)
Definition scan (p : ScanParams) (w : World) : Error + ScanResult :=
  match scan_fault with
  | Some e => inl e
  | None =>
      match evaluated nan_limit (Limit p) with
      | inl e => inl e
      | inr n =>
          let page := take n (scan_order (jobs w)) in
          inr {| Items := List.filter (passes (FilterExpression p)) page;
                 ScannedCount := length page |}
      end
  end.

(** The handler reads the table and changes nothing. *)
Definition handler (event : Event) (w : World) : Response :=
  let queryParams := default no_parameters (queryStringParameters event) in
  let type := present (qs_type queryParams) in
  let status := present (qs_status queryParams) in
  let limit := match present (qs_limit queryParams) with
               | Some s => parseInt s
               | None => Some 100%Z
               end in
  let filterExpressions :=
    (match type with Some t => [("type", t)] | None => [] end
     ++ match status with Some s => [("status", s)] | None => [] end)%list in
  let scanParams :=
    {| Limit := limit; FilterExpression := filterExpressions |} in
  match scan scanParams w with
  | inl error =>
      {| statusCode := 500;
         body := BFailure "Failed to fetch jobs" (err_message error) |}
  | inr result =>
      let jobs :=
        Array_sort (fun a b => (createdAt b - createdAt a)%Z) (Items result) in
      {| statusCode := 200;
         body := BJobs (length jobs) jobs (ScannedCount result) |}
  end.

End Handler.

End listJobs.

(** *** Fetching a job with its invocations *)

Module getJobHandler.

Record QueryStringParameters : Type := {
  invocationLimit : option string;
  invocationStatus : option string
}.

(** The request: [event.pathParameters?.jobId] and
    [event.queryStringParameters]. *)
Record Event : Type := {
  pathParameters_jobId : option string;
  queryStringParameters : option QueryStringParameters
}.

Definition no_parameters : QueryStringParameters :=
  {| invocationLimit := None; invocationStatus := None |}.

(** The parameters of the query on the index [JobIdIndex]. *)
Record QueryParams : Type := {
  key_jobId : string;
  Limit : option Z;
  filter_status : option string
}.

Inductive Body : Type :=
| BJob (job : Job) (invocations : list Invocation)
       (statistics : getJob.Statistics)
| BError (error : string)
| BFailure (error details : string).

Record Response : Type := {
  statusCode : Z;
  body : Body
}.

Section Handler.
Context (parseInt : string -> option Z).
Context (nan_limit : Error + nat).
(** the invocations of a job as the index gives them with
    [ScanIndexForward: false], from the last key to the first *)
Context (index : gmap string Invocation -> string -> list Invocation).
(** whether the read of the job and the query fail *)
Context (get_fault query_fault : option Error).

(** [await docClient.send(new QueryCommand(queryInvocationsParams))] *)
Definition query (p : QueryParams) (w : World) : Error + list Invocation :=
  match query_fault with
  | Some e => inl e
  | None =>
      match evaluated nan_limit (Limit p) with
      | inl e => inl e
      | inr n =>
          let page := take n (index (invocations w) (key_jobId p)) in
          inr match filter_status p with
              | Some s => List.filter (getJob.has_status s) page
              | None => page
              end
      end
  end.

(** The handler reads the two tables and changes nothing. *)
Definition handler (event : Event) (w : World) : Response :=
  match present (pathParameters_jobId event) with
  | None => {| statusCode := 400; body := BError "jobId is required" |}
  | Some jobId =>
      match get_fault with
      | Some error =>
          {| statusCode := 500;
             body := BFailure "Failed to fetch job" (err_message error) |}
      | None =>
          match jobs w !! jobId with
          | None => {| statusCode := 404; body := BError "Job not found" |}
          | Some job =>
              let queryParams :=
                default no_parameters (queryStringParameters event) in
              let invocationLimit :=
                match present (invocationLimit queryParams) with
                | Some s => parseInt s
                | None => Some 50%Z
                end in
              let invocationStatus :=
                present (invocationStatus queryParams) in
              match query {| key_jobId := jobId; Limit := invocationLimit;
                             filter_status := invocationStatus |} w with
              | inl error =>
                  {| statusCode := 500;
                     body := BFailure "Failed to fetch job"
                               (err_message error) |}
              | inr invocations =>
                  {| statusCode := 200;
                     body := BJob job invocations
                               (getJob.statistics invocations) |}
              end
          end
      end
  end.

End Handler.

End getJobHandler.

(** Tables and requests for the examples of the two readers. *)
Module Scenario4.

Definition parseInt (s : string) : option Z :=
  if String.eqb s "2" then Some 2%Z
  else if String.eqb s "10" then Some 10%Z
  else if String.eqb s "0" then Some 0%Z
  else None.

Definition job_at (id : string) (ty st : string) (t : Z) : Job :=
  {| jobId := id; name := VStr id; description := VStr ""; type := ty;
     scheduleExpression := VNull; executeAt := VNull; payload := VObj [];
     status := st; createdAt := t; updatedAt := t; invocationCount := 0;
     lastExecutedAt := None; ruleName := None |}.

Definition table : gmap string Job :=
  <["a" := job_at "a" "cron" "scheduled" 100]>
    (<["b" := job_at "b" "once" "completed" 300]>
       (<["c" := job_at "c" "cron" "scheduled" 200]> ∅)).

Definition three_jobs : World := set_jobs (fun _ => table) Example.empty.

Definition scan_order (m : gmap string Job) : list Job := (map_to_list m).*2.

Definition list_cron : listJobs.Event :=
  {| listJobs.queryStringParameters :=
       Some {| listJobs.qs_type := Some "cron"; listJobs.qs_status := None;
               listJobs.qs_limit := Some "10" |} |}.

Definition run (i : string) (st : string) (t : Z) : Invocation :=
  {| invocationId := i; inv_jobId := "a"; timestamp := t; inv_status := st;
     startedAt := t; input := VObj []; completedAt := Some (t + 40)%Z;
     duration := Some 40%Z; output := None; error := None;
     errorStack := None |}.

Definition ledger : gmap string Invocation :=
  <["i1" := run "i1" "completed" 1000]>
    (<["i2" := run "i2" "failed" 2000]>
       (<["i3" := run "i3" "completed" 3000]> ∅)).

Definition with_history : World :=
  set_invocations (fun _ => ledger) three_jobs.

(** The invocations of a job, the newest first. *)
Definition index (m : gmap string Invocation) (id : string)
    : list Invocation :=
  Array_sort (fun a b => (timestamp b - timestamp a)%Z)
    (List.filter (fun inv => String.eqb (inv_jobId inv) id)
       ((map_to_list m).*2)).

Definition completed_only : getJobHandler.Event :=
  {| getJobHandler.pathParameters_jobId := Some "a";
     getJobHandler.queryStringParameters :=
       Some {| getJobHandler.invocationLimit := Some "10";
               getJobHandler.invocationStatus := Some "completed" |} |}.

End Scenario4.

(** [descending key l]: along [l] the keys never grow. *)
Definition descending {A} (key : A -> Z) (l : list A) : Prop :=
  forall i j a b,
    (i < j)%nat -> l !! i = Some a -> l !! j = Some b -> (key b <= key a)%Z.

(** The same by recursion on the list. *)
Fixpoint sorted_down {A} (key : A -> Z) (l : list A) : Prop :=
  match l with
  | [] => True
  | x :: l' => Forall (fun y => (key y <= key x)%Z) l' /\ sorted_down key l'
  end.

(** The limit the listing sends to the store. *)
Definition sent_limit (parseInt : string -> option Z)
    (event : listJobs.Event) : option Z :=
  match present (listJobs.qs_limit
                   (default listJobs.no_parameters
                      (listJobs.queryStringParameters event))) with
  | Some s => parseInt s
  | None => Some 100%Z
  end.

(** The limit the fetch of a job sends with its query. *)
Definition fetch_limit (parseInt : string -> option Z)
    (event : getJobHandler.Event) : option Z :=
  match present (getJobHandler.invocationLimit
                   (default getJobHandler.no_parameters
                      (getJobHandler.queryStringParameters event))) with
  | Some s => parseInt s
  | None => Some 50%Z
  end.

(** ** Vocabulary of the statements *)

(** No command of the document store fails. *)
Definition StoreOk (env : Env) : Prop :=
  forall n c, store_call c = true -> fault env n c = None.

(** The state of the services: everything but the counters of the clock and
    of the identifier source. *)
Definition services (w : World) :=
  (jobs w, invocations w, rules w, targets w, permissions w, queued w, trace w).

(** What validation establishes about the arguments of [create]. *)
Definition validated (env : Env) (now : Z) (ty : string)
    (scheduleExpression executeAt : value) : Prop :=
  In ty createJob.jobTypes
  /\ (ty = "once" ->
      truthy executeAt = true
      /\ exists t, Date_time env executeAt = Some t /\ (now < t)%Z)
  /\ (ty = "cron" -> truthy scheduleExpression = true).

(** [frame f m]: running [m] does not change the part [f] of the world,
    whether it returns or throws. *)
Definition frame {A X} (f : World -> X) (m : M A) : Prop :=
  forall w, f (m w).2 = f w.

(** [safe m]: [m] never throws. *)
Definition safe {A} (m : M A) : Prop :=
  forall w, exists a, (m w).1 = inr a.

(** [emits Q m]: running [m] appends commands to the trace, all of them
    satisfying [Q]. *)
Definition emits {A} (Q : Call -> Prop) (m : M A) : Prop :=
  forall w, exists new, trace (m w).2 = (trace w ++ new)%list /\ Forall Q new.

(** * Reasoning about the handlers *)

(** ** Running a computation *)

Lemma bind_run {A B} (m : M A) (k : A -> M B) (w : World) :
  (m ≫= k) w = match m w with
               | (inl e, w') => (inl e, w')
               | (inr a, w') => k a w'
               end.
Proof. reflexivity. Qed.

Lemma try_catch_run {A} (m : M A) (h : Error -> M A) (w : World) :
  try_catch m h w = match m w with
                    | (inl e, w') => h e w'
                    | (inr a, w') => (inr a, w')
                    end.
Proof. unfold try_catch. destruct (m w) as [[e|a] w']; reflexivity. Qed.

(** The projections of a world after the elementary changes. *)
Ltac world :=
  cbn [jobs invocations rules targets permissions queued trace ticks uuids
       log tick draw set_jobs set_invocations set_rules set_targets
       set_permissions set_queued fst snd] in *.

(** ** What a computation leaves alone, and what it sends *)

Section Composition.
Context (env : Env).
Context {X : Type} (f : World -> X).

Lemma frame_ret {A} (a : A) : frame f (mret a : M A).
Proof. intros w. reflexivity. Qed.

Lemma frame_throw {A} (e : Error) : frame f (throw e : M A).
Proof. intros w. reflexivity. Qed.

Lemma frame_gets {A} (g : World -> A) : frame f (gets g).
Proof. intros w. reflexivity. Qed.

Lemma frame_bind {A B} (m : M A) (k : A -> M B) :
  frame f m -> (forall a, frame f (k a)) -> frame f (m ≫= k).
Proof.
  intros Hm Hk w. rewrite bind_run. specialize (Hm w).
  destruct (m w) as [[e|a] w']; simpl in *; [assumption|].
  rewrite Hk. assumption.
Qed.

Lemma frame_try_catch {A} (m : M A) (h : Error -> M A) :
  frame f m -> (forall e, frame f (h e)) -> frame f (try_catch m h).
Proof.
  intros Hm Hh w. rewrite try_catch_run. specialize (Hm w).
  destruct (m w) as [[e|a] w']; simpl in *; [|assumption].
  rewrite Hh. assumption.
Qed.

Lemma frame_send (c : Call) (effect : World -> World) :
  (forall w, f (log c w) = f w) -> (forall w, f (effect w) = f w) ->
  frame f (send env c effect).
Proof.
  intros Hl He w. unfold send.
  destruct (fault env _ c); simpl; [apply Hl|]. rewrite He. apply Hl.
Qed.

Lemma frame_Date_now : (forall w, f (tick w) = f w) -> frame f (Date_now env).
Proof. intros H w. apply H. Qed.

Lemma frame_uuid : (forall w, f (draw w) = f w) -> frame f (uuid env).
Proof. intros H w. apply H. Qed.

Lemma frame_when (c : bool) (m : M unit) : frame f m -> frame f (when_ c m).
Proof. intros H. destruct c; [assumption | apply frame_ret]. Qed.

End Composition.

Section Safety.

Lemma safe_ret {A} (a : A) : safe (mret a : M A).
Proof. intros w. eexists. reflexivity. Qed.

Lemma safe_try_catch {A} (m : M A) (h : Error -> M A) :
  (forall e, safe (h e)) -> safe (try_catch m h).
Proof.
  intros Hh w. rewrite try_catch_run.
  destruct (m w) as [[e|a] w']; [apply Hh | eexists; reflexivity].
Qed.

End Safety.

Section Emission.
Context (env : Env) (Q : Call -> Prop).

Lemma emits_ret {A} (a : A) : emits Q (mret a : M A).
Proof. intros w. exists []. split; [symmetry; apply app_nil_r | constructor]. Qed.

Lemma emits_throw {A} (e : Error) : emits Q (throw e : M A).
Proof. intros w. exists []. split; [symmetry; apply app_nil_r | constructor]. Qed.

Lemma emits_gets {A} (g : World -> A) : emits Q (gets g).
Proof. intros w. exists []. split; [symmetry; apply app_nil_r | constructor]. Qed.

Lemma emits_Date_now : emits Q (Date_now env).
Proof. intros w. exists []. split; [symmetry; apply app_nil_r | constructor]. Qed.

Lemma emits_uuid : emits Q (uuid env).
Proof. intros w. exists []. split; [symmetry; apply app_nil_r | constructor]. Qed.

Lemma emits_bind {A B} (m : M A) (k : A -> M B) :
  emits Q m -> (forall a, emits Q (k a)) -> emits Q (m ≫= k).
Proof.
  intros Hm Hk w. rewrite bind_run. destruct (Hm w) as (n1 & E1 & F1).
  destruct (m w) as [[e|a] w']; simpl in *; [exists n1; auto|].
  destruct (Hk a w') as (n2 & E2 & F2).
  exists (n1 ++ n2)%list. split.
  - rewrite E2, E1. symmetry. apply app_assoc.
  - apply Forall_app. auto.
Qed.

Lemma emits_try_catch {A} (m : M A) (h : Error -> M A) :
  emits Q m -> (forall e, emits Q (h e)) -> emits Q (try_catch m h).
Proof.
  intros Hm Hh w. rewrite try_catch_run. destruct (Hm w) as (n1 & E1 & F1).
  destruct (m w) as [[e|a] w']; simpl in *; [|exists n1; auto].
  destruct (Hh e w') as (n2 & E2 & F2).
  exists (n1 ++ n2)%list. split.
  - rewrite E2, E1. symmetry. apply app_assoc.
  - apply Forall_app. auto.
Qed.

Lemma emits_send (c : Call) (effect : World -> World) :
  Q c -> (forall w, trace (effect w) = trace w) -> emits Q (send env c effect).
Proof.
  intros Hc He w. exists [c]. split; [|repeat constructor; assumption].
  unfold send. destruct (fault env _ c); simpl; [reflexivity|].
  rewrite He. reflexivity.
Qed.

Lemma emits_when (c : bool) (m : M unit) : emits Q m -> emits Q (when_ c m).
Proof. intros H. destruct c; [assumption | apply emits_ret]. Qed.

End Emission.

(** Decomposing a computation along its structure. *)
Ltac compose :=
  repeat first
    [ apply frame_ret | apply frame_throw | apply frame_gets
    | apply frame_Date_now; reflexivity | apply frame_uuid; reflexivity
    | apply frame_send; reflexivity
    | apply frame_when
    | apply frame_bind; [|intros ?]
    | apply frame_try_catch; [|intros ?]
    | apply emits_ret | apply emits_throw | apply emits_gets
    | apply emits_Date_now | apply emits_uuid
    | apply emits_send; [try reflexivity | reflexivity]
    | apply emits_when
    | apply emits_bind; [|intros ?]
    | apply emits_try_catch; [|intros ?]
    | apply safe_ret
    | apply safe_try_catch; intros ?
    | match goal with
      | |- frame _ (match ?x with _ => _ end) => destruct x
      | |- emits _ (match ?x with _ => _ end) => destruct x
      | |- safe (match ?x with _ => _ end) => destruct x
      end ].

(** ** The services, step by step *)

Section Steps.
Context (env : Env).

Lemma send_ok c effect w :
  fault env (length (trace w)) c = None ->
  send env c effect w = (inr tt, effect (log c w)).
Proof. intros H. unfold send. rewrite H. reflexivity. Qed.

Lemma send_fails c effect w e :
  fault env (length (trace w)) c = Some e ->
  send env c effect w = (inl e, log c w).
Proof. intros H. unfold send. rewrite H. reflexivity. Qed.

Lemma ddb_get_ok key w :
  fault env (length (trace w)) (GetCommand key) = None ->
  ddb_get env key w = (inr (jobs w !! key), log (GetCommand key) w).
Proof. intros H. unfold ddb_get. rewrite bind_run, send_ok by exact H. reflexivity. Qed.

Lemma ddb_get_fails key w e :
  fault env (length (trace w)) (GetCommand key) = Some e ->
  ddb_get env key w = (inl e, log (GetCommand key) w).
Proof.
  intros H. unfold ddb_get.
  rewrite bind_run, (send_fails _ _ _ e) by exact H. reflexivity.
Qed.

Lemma ddb_update_ok key ts st w j :
  fault env (length (trace w)) (UpdateCommand key ts st) = None ->
  jobs w !! key = Some j ->
  ddb_update env key ts st w =
    (inr tt, set_jobs <[key := apply_update ts st j]>
               (log (UpdateCommand key ts st) w)).
Proof. intros H Hj. unfold ddb_update. rewrite H, Hj. reflexivity. Qed.

Lemma finalize_id i o t d :
  invocationId (jobExecutor.finalize i o t d) = invocationId i.
Proof. destruct o; reflexivity. Qed.

(** *** The cleanup after a one-time job *)

Lemma cleanup_safe job : safe (jobExecutor.cleanup env job).
Proof. unfold jobExecutor.cleanup. compose. Qed.

Lemma cleanup_frame {X} (f : World -> X) job :
  (forall c w, f (log c w) = f w) ->
  (forall g w, f (set_targets g w) = f w) ->
  (forall g w, f (set_rules g w) = f w) ->
  (forall g w, f (set_permissions g w) = f w) ->
  frame f (jobExecutor.cleanup env job).
Proof.
  intros Hl Ht Hr Hp.
  unfold jobExecutor.cleanup, eb_remove_targets, eb_delete_rule,
    lambda_remove_permission.
  compose; apply frame_send; auto.
Qed.

Lemma cleanup_returns job w :
  exists w', jobExecutor.cleanup env job w = (inr tt, w')
             /\ jobs w' = jobs w /\ invocations w' = invocations w.
Proof.
  destruct (cleanup_safe job w) as [[] Hs].
  pose proof (cleanup_frame jobs job) as Hj.
  pose proof (cleanup_frame invocations job) as Hi.
  specialize (Hj ltac:(reflexivity) ltac:(reflexivity) ltac:(reflexivity) ltac:(reflexivity) w).
  specialize (Hi ltac:(reflexivity) ltac:(reflexivity) ltac:(reflexivity) ltac:(reflexivity) w).
  destruct (jobExecutor.cleanup env job w) as [r w']. simpl in *. subst r.
  exists w'. auto.
Qed.

(** *** A dispatch that finds its job, on a store that answers *)

Lemma dispatch_found event w jobId job :
  present (jobExecutor.ev_jobId event) = Some jobId ->
  jobs w !! jobId = Some job ->
  StoreOk env ->
  let invocationId := uuidv4 env (uuids w) in
  let timestamp := clock env (ticks w) in
  let startTime := clock env (S (ticks w)) in
  let endTime := clock env (S (S (ticks w))) in
  let payload := js_or (jobExecutor.ev_payload event) (VObj []) in
  let outcome := executeJobLogic env job payload in
  let dur := (endTime - startTime)%Z in
  exists w',
    jobExecutor.handler env event w =
      (match outcome with
       | inl executionError =>
           {| statusCode := 500;
              body := BExecutionFailed invocationId jobId dur
                        (err_message executionError) |}
       | inr result =>
           {| statusCode := 200;
              body := BExecuted invocationId jobId dur result |}
       end, w')
    /\ jobs w' =
         <[jobId := apply_update timestamp
                      (jobExecutor.newStatus job outcome) job]> (jobs w)
    /\ invocations w' =
         <[invocationId :=
             jobExecutor.finalize
               (jobExecutor.running invocationId jobId timestamp startTime
                  payload)
               outcome endTime dur]> (invocations w).
Proof.
  intros Hid Hjob Hok. cbv zeta.
  unfold jobExecutor.handler, catch_all, jobExecutor.run.
  rewrite Hid.
  rewrite bind_run, ddb_get_ok by (apply Hok; reflexivity).
  world. rewrite Hjob.
  rewrite bind_run. unfold Date_now at 1. world.
  rewrite bind_run. unfold ddb_put_invocation at 1.
  rewrite send_ok by (apply Hok; reflexivity). world.
  rewrite bind_run. unfold Date_now at 1. world.
  rewrite bind_run. unfold ddb_put_invocation at 1.
  rewrite send_ok by (apply Hok; reflexivity). world.
  rewrite bind_run.
  erewrite ddb_update_ok; [| apply Hok; reflexivity | world; exact Hjob].
  rewrite bind_run.
  match goal with
  | |- context [jobExecutor.cleanup env job ?w1] =>
      destruct (cleanup_returns job w1) as (w2 & -> & Hj & Hi)
  end.
  world. exists w2. split; [reflexivity|]. split; [exact Hj|].
  rewrite Hi, finalize_id. cbn [invocationId jobExecutor.running].
  apply insert_insert_eq.
Qed.

End Steps.

(** ** Creation *)

Section Creation.
Context (env : Env).

(** A request either throws before anything is sent (its body is no JSON
    text, or no object can be read from it), or is turned down with a 400
    before anything is sent, or reaches [create] with validated
    arguments. *)
Lemma run_cases event w :
  (exists e, createJob.run env event w = (inl e, w)
             /\ forall body,
                  JSON_parse env (to_string (createJob.event_body event))
                    = Some body -> nullish body = true)
  \/ (exists msg w',
        createJob.run env event w = (inr (createJob.bad_request msg), w')
        /\ services w' = services w)
  \/ (exists body ty w0,
        JSON_parse env (to_string (createJob.event_body event)) = Some body
        /\ get_field body "type" = VStr ty
        /\ createJob.run env event w =
             createJob.create env (get_field body "name")
               (get_field body "description") ty
               (get_field body "scheduleExpression")
               (get_field body "executeAt") (get_field body "payload") w0
        /\ services w0 = services w
        /\ validated env (clock env (ticks w)) ty
             (get_field body "scheduleExpression")
             (get_field body "executeAt")).
Proof.
  unfold createJob.run. rewrite bind_run. unfold createJob.parse.
  destruct (JSON_parse env (to_string (createJob.event_body event)))
    as [body|];
    [|left; eexists; split; [reflexivity | discriminate]].
  cbv beta iota delta [mret M_ret].
  destruct (nullish body) eqn:Hnull;
    [left; eexists; split; [reflexivity | intros ? [= <-]; exact Hnull]|].
  right.
  assert (Hearly : forall msg,
             exists msg' w',
               (inr (createJob.bad_request msg), w)
               = (inr (createJob.bad_request msg') : Error + Response, w')
               /\ services w' = services w).
  { intros msg. exists msg, w. split; reflexivity. }
  destruct (negb (truthy (get_field body "name"))
            || negb (truthy (get_field body "type")));
    [left; apply Hearly|].
  destruct (get_field body "type") as [| | | |ty| |] eqn:Hty;
    try (left; apply Hearly).
  destruct (negb (existsb (String.eqb ty) createJob.jobTypes)) eqn:Hin;
    [left; apply Hearly|].
  destruct (String.eqb ty "once" && negb (truthy (get_field body "executeAt")))
    eqn:Hea; [left; apply Hearly|].
  destruct (String.eqb ty "cron"
            && negb (truthy (get_field body "scheduleExpression")))
    eqn:Hse; [left; apply Hearly|].
  apply negb_false_iff, existsb_exists in Hin.
  destruct Hin as (ty' & Hin & Heq). apply String.eqb_eq in Heq. subst ty'.
  assert (Hcron : ty = "cron" ->
                  truthy (get_field body "scheduleExpression") = true).
  { intros ->. apply andb_false_iff in Hse.
    destruct Hse as [Hse|Hse]; [discriminate|].
    apply negb_false_iff in Hse. exact Hse. }
  destruct (String.eqb ty "once") eqn:Honce.
  - destruct (Date_time env (get_field body "executeAt")) as [t|] eqn:Ht;
      [|left; apply Hearly].
    rewrite bind_run. unfold Date_now. cbv beta iota.
    destruct (t <=? clock env (ticks w))%Z eqn:Hle;
      [left; do 2 eexists; split; reflexivity|].
    right. exists body, ty, (tick w).
    split; [reflexivity|]. split; [exact Hty|]. split; [reflexivity|].
    split; [reflexivity|]. split; [exact Hin|]. split; [|exact Hcron].
    intros _. apply andb_false_iff in Hea.
    destruct Hea as [Hea|Hea]; [discriminate|].
    apply negb_false_iff in Hea. split; [exact Hea|].
    exists t. split; [exact Ht | apply Z.leb_gt; exact Hle].
  - right. exists body, ty, w.
    split; [reflexivity|]. split; [exact Hty|]. split; [reflexivity|].
    split; [reflexivity|]. split; [exact Hin|]. split; [|exact Hcron].
    intros ->. discriminate.
Qed.

End Creation.

Section Scheduling.
Context (env : Env).

Lemma schedule_emits job se ea p :
  emits (fun c => store_call c = false) (createJob.schedule env job se ea p).
Proof.
  unfold createJob.schedule, createJob.register, lambda_invoke, eb_put_rule,
    lambda_add_permission, eb_put_targets.
  compose.
Qed.

Lemma schedule_jobs job se ea p :
  frame jobs (createJob.schedule env job se ea p).
Proof.
  unfold createJob.schedule, createJob.register, lambda_invoke, eb_put_rule,
    lambda_add_permission, eb_put_targets.
  compose.
Qed.

(** The record is the first thing written; nothing that follows touches the
    table of jobs. *)
Lemma create_spec name description ty se ea payload w :
  let job := createJob.new_job (uuidv4 env (uuids w)) (clock env (ticks w))
               name description ty se ea payload in
  exists r w' rest,
    createJob.create env name description ty se ea payload w = (r, w')
    /\ trace w' = (trace w ++ PutJob job :: rest)%list
    /\ Forall (fun c => store_call c = false) rest
    /\ ((exists e, r = inl e /\ rest = [] /\ jobs w' = jobs w)
        \/ jobs w' = <[jobId job := job]> (jobs w)).
Proof.
  intros job. unfold createJob.create.
  rewrite bind_run. unfold uuid. cbv beta iota.
  rewrite bind_run. unfold Date_now. cbv beta iota. world.
  fold job. rewrite bind_run. unfold ddb_put_job, send. world.
  destruct (fault env (length (trace w)) (PutJob job)) as [e|].
  - exists (inl e), (log (PutJob job) (tick (draw w))), [].
    split; [reflexivity|]. split; [reflexivity|]. split; [constructor|].
    left. exists e. auto.
  - set (w2 := set_jobs _ _).
    destruct (schedule_emits job se ea payload w2) as (rest & Ht & Hr).
    pose proof (schedule_jobs job se ea payload w2) as Hj.
    destruct (createJob.schedule env job se ea payload w2) as [r w'].
    exists r, w', rest. split; [reflexivity|]. simpl in Ht, Hj.
    split; [rewrite Ht; unfold w2; world; rewrite <- app_assoc; reflexivity|].
    split; [exact Hr|]. right. rewrite Hj. reflexivity.
Qed.

(** A scheduled job whose registration goes through. *)
Lemma schedule_registers job se ea p w resp w' :
  type job = "once" \/ type job = "cron" ->
  createJob.schedule env job se ea p w = (inr resp, w') ->
  let ruleName := "job-" ++ jobId job in
  exists rule,
    trace w' = (trace w ++ [PutRuleCommand ruleName rule;
                            AddPermissionCommand (ruleName ++ "-permission");
                            PutTargetsCommand ruleName
                              [{| Id := "1"; Input := (jobId job, p) |}]])%list
    /\ rules w' = <[ruleName := rule]> (rules w)
    /\ jobs w' = jobs w
    /\ resp = createJob.created (createJob.with_ruleName ruleName job).
Proof.
  intros Hty. unfold createJob.schedule.
  assert (Hreg : forall expr desc,
    (createJob.register env (jobId job) ("job-" ++ jobId job) expr desc p
     ≫= fun _ => mret (createJob.created
                         (createJob.with_ruleName ("job-" ++ jobId job) job)))
      w = (inr resp, w') ->
    exists rule,
      trace w' = (trace w ++ [PutRuleCommand ("job-" ++ jobId job) rule;
                   AddPermissionCommand (("job-" ++ jobId job) ++ "-permission");
                   PutTargetsCommand ("job-" ++ jobId job)
                     [{| Id := "1"; Input := (jobId job, p) |}]])%list
      /\ rules w' = <["job-" ++ jobId job := rule]> (rules w)
      /\ jobs w' = jobs w
      /\ resp = createJob.created
                  (createJob.with_ruleName ("job-" ++ jobId job) job)).
  { intros expr desc. unfold createJob.register.
    rewrite !bind_run. unfold eb_put_rule at 1. unfold send at 1.
    destruct (fault env _ (PutRuleCommand _ _)); [discriminate|].
    cbv beta iota. rewrite bind_run, try_catch_run.
    unfold lambda_add_permission, send. world.
    destruct (fault env _ (AddPermissionCommand _)) as [e|].
    - destruct (String.eqb (err_name e) "ResourceConflictException");
        [|discriminate].
      cbv beta iota delta [mret M_ret]. unfold eb_put_targets, send. world.
      destruct (fault env _ (PutTargetsCommand _ _)); [discriminate|].
      intros [= <- <-]. eexists. world.
      rewrite <- !app_assoc. repeat split; reflexivity.
    - cbv beta iota delta [mret M_ret]. unfold eb_put_targets, send. world.
      destruct (fault env _ (PutTargetsCommand _ _)); [discriminate|].
      intros [= <- <-]. eexists. world.
      rewrite <- !app_assoc. repeat split; reflexivity. }
  destruct Hty as [Hty|Hty]; rewrite Hty; cbn [String.eqb Ascii.eqb Bool.eqb andb].
  - destruct (Date_time env ea); [|discriminate]. apply Hreg.
  - apply Hreg.
Qed.

End Scheduling.

(** ** Deletion *)

Section Deletion.
Context (env : Env).

Lemma remove_rule_safe job : safe (deleteJob.remove_rule env job).
Proof. unfold deleteJob.remove_rule. compose. Qed.

Lemma remove_rule_jobs job : frame jobs (deleteJob.remove_rule env job).
Proof.
  unfold deleteJob.remove_rule, eb_list_targets, eb_remove_targets,
    eb_delete_rule, lambda_remove_permission.
  compose.
Qed.

Lemma remove_rule_returns job w :
  exists w', deleteJob.remove_rule env job w = (inr tt, w')
             /\ jobs w' = jobs w.
Proof.
  destruct (remove_rule_safe job w) as [[] Hs].
  pose proof (remove_rule_jobs job w) as Hj.
  destruct (deleteJob.remove_rule env job w) as [r w']. simpl in *. subst r.
  exists w'. auto.
Qed.

End Deletion.

Section CreationFacts.
Context (env : Env).

(** The catch-all of [createJob] turns a throw into a response and leaves
    the world as the throw left it. *)
Lemma create_handler_world event w :
  (createJob.handler env event w).2 = (createJob.run env event w).2.
Proof.
  unfold createJob.handler, catch_all.
  destruct (createJob.run env event w) as [[e|r] w']; reflexivity.
Qed.


(** An immediate job is scheduled without a word to the rule service. *)
Lemma schedule_immediate_emits job se ea p :
  type job = "immediate" ->
  emits (fun c => rule_call c = false) (createJob.schedule env job se ea p).
Proof.
  intros Hty. unfold createJob.schedule, lambda_invoke. rewrite Hty.
  cbn [String.eqb Ascii.eqb Bool.eqb andb]. compose.
Qed.

(** When [create] returns, the record was written and [schedule]
    returned. *)
Lemma create_returns name description ty se ea payload w resp w' :
  createJob.create env name description ty se ea payload w = (inr resp, w') ->
  let job := createJob.new_job (uuidv4 env (uuids w)) (clock env (ticks w))
               name description ty se ea payload in
  createJob.schedule env job se ea payload
    (set_jobs <[jobId job := job]> (log (PutJob job) (tick (draw w))))
  = (inr resp, w').
Proof.
  unfold createJob.create.
  rewrite bind_run. unfold uuid. cbv beta iota.
  rewrite bind_run. unfold Date_now. cbv beta iota. world.
  rewrite bind_run. unfold ddb_put_job, send. world.
  destruct (fault env _ (PutJob _)); [discriminate|]. intros H. exact H.
Qed.

Lemma truthy_js_or a b : truthy a = true -> js_or a b = a.
Proof. intros H. unfold js_or. rewrite H. reflexivity. Qed.

Lemma new_segment_head (c c' : Call) (pre post rest : list Call) :
  (pre ++ c :: post = c' :: rest)%list ->
  (pre = [] /\ c = c') \/ In c rest.
Proof.
  destruct pre as [|x pre]; cbn [app]; intros [= <- <-].
  - left. auto.
  - right. apply in_or_app. right. left. reflexivity.
Qed.

End CreationFacts.

(** ** Rounding *)

Section Rounding.

(** The integer nearest to [n / d], a tie going up. *)
Lemma nearest_bounds (n d : Z) :
  (0 < d)%Z ->
  let a := ((2 * n + d) / (2 * d))%Z in
  (2 * d * a - d <= 2 * n < 2 * d * a + d)%Z.
Proof.
  intros Hd a.
  pose proof (Z.div_mod (2 * n + d) (2 * d) ltac:(lia)) as Hdm.
  pose proof (Z.mod_pos_bound (2 * n + d) (2 * d) ltac:(lia)) as Hb.
  fold a in Hdm. lia.
Qed.

Lemma Math_round_quotient (s : Z) (k : positive) :
  getJob.Math_round (inject_Z s / inject_Z (Zpos k))
  = ((2 * s + Zpos k) / (2 * Zpos k))%Z.
Proof.
  unfold getJob.Math_round, Qdiv, Qinv, Qmult, Qplus, Qfloor, inject_Z.
  cbn [Qnum Qden]. f_equal; lia.
Qed.

(** *** Rounding to binary64 *)

Local Open Scope Q_scope.

Lemma nearest_even_spec (x : Q) :
  (x - (1 # 2) <= inject_Z (nearest_even x) <= x + (1 # 2))%Q.
Proof.
  unfold nearest_even.
  pose proof (Qfloor_le x) as Hlo. pose proof (Qlt_floor x) as Hhi.
  rewrite inject_Z_plus in Hhi. change (inject_Z 1) with 1 in Hhi.
  destruct (Qcompare_spec (x - inject_Z (Qfloor x)) (1 # 2)) as [H|H|H].
  - destruct (Z.even (Qfloor x)).
    + lra.
    + rewrite inject_Z_plus. change (inject_Z 1) with 1. lra.
  - lra.
  - rewrite inject_Z_plus. change (inject_Z 1) with 1. lra.
Qed.

Lemma inject_Z_pow2 (n : Z) : (0 <= n)%Z -> inject_Z (2 ^ n) == 2 ^ n.
Proof. intros H. rewrite Zpower_Qpower by exact H. reflexivity. Qed.

Lemma binade_le (x : Q) : 0 < x -> 2 ^ binade x <= x.
Proof.
  intros Hx. unfold binade.
  set (a := Qnum x). set (b := Zpos (Qden x)).
  set (d := (Z.log2 a - Z.log2 b)%Z).
  destruct (Qle_bool (2 ^ d) x) eqn:E; [apply Qle_bool_iff, E|].
  assert (Ha : (0 < a)%Z).
  { unfold a. destruct x as [n p]. unfold Qlt in Hx. cbn in *. lia. }
  assert (Hb : (0 < b)%Z) by (unfold b; lia).
  destruct (Z.log2_spec a Ha) as [Ha1 _].
  destruct (Z.log2_spec b Hb) as [_ Hb2].
  pose proof (Z.log2_nonneg a) as Hla. pose proof (Z.log2_nonneg b) as Hlb.
  (* x = a / b,  2^la <= a,  b < 2^(lb+1) *)
  assert (Hx' : x == inject_Z a / inject_Z b).
  { unfold a, b. destruct x as [n p]. cbn. rewrite Qmake_Qdiv. reflexivity. }
  assert (Hpow : 2 ^ (d - 1) == 2 ^ Z.log2 a / 2 ^ (Z.log2 b + 1)).
  { unfold d. replace (Z.log2 a - Z.log2 b - 1)%Z
      with (Z.log2 a - (Z.log2 b + 1))%Z by lia.
    apply Qpower_minus. discriminate. }
  rewrite Hpow, Hx'.
  rewrite <- !inject_Z_pow2 by lia.
  assert (H1 : inject_Z (2 ^ Z.log2 a) <= inject_Z a)
    by (rewrite <- Zle_Qle; exact Ha1).
  assert (H2 : inject_Z b < inject_Z (2 ^ (Z.log2 b + 1))).
  { rewrite <- Zlt_Qlt. replace (Z.log2 b + 1)%Z with (Z.succ (Z.log2 b)) by lia.
    exact Hb2. }
  assert (H3 : 0 < inject_Z b) by (change 0 with (inject_Z 0); rewrite <- Zlt_Qlt; exact Hb).
  assert (H4 : 0 < inject_Z (2 ^ Z.log2 a)).
  { change 0 with (inject_Z 0). rewrite <- Zlt_Qlt. apply Z.pow_pos_nonneg; lia. }
  set (A := inject_Z a) in *. set (B := inject_Z b) in *.
  set (PA := inject_Z (2 ^ Z.log2 a)) in *.
  set (PB := inject_Z (2 ^ (Z.log2 b + 1))) in *.
  apply Qle_shift_div_l; [exact H3|].
  apply Qle_trans with PA; [|exact H1].
  assert (H5 : 0 < PB) by lra.
  assert (Hq : B / PB <= 1) by (apply Qle_shift_div_r; [exact H5 | lra]).
  assert (Heq : PA / PB * B == PA * (B / PB)) by (field; lra).
  rewrite Heq.
  set (R := B / PB) in *. nra.
Qed.

Lemma binary64_Qeq (x y : Q) : x == y -> binary64 x = binary64 y.
Proof. intros H. unfold binary64. rewrite (Qred_complete x y H). reflexivity. Qed.

Lemma binary64_error (x : Q) :
  0 < x -> x * (1 - unit_roundoff) <= binary64 x <= x * (1 + unit_roundoff).
Proof.
  intros Hx. unfold binary64.
  pose proof (Qred_correct x) as Hr.
  set (x' := Qred x) in *.
  assert (Hx' : 0 < x') by (rewrite Hr; exact Hx).
  destruct (Qnum x') eqn:En.
  - exfalso. clear -Hx' En. destruct x' as [n q]. unfold Qlt in Hx'.
    cbn in *. lia.
  - cbv zeta.
    set (e := binade x').
    pose proof (binade_le x' Hx') as He. fold e in He.
    assert (Hulp : 2 ^ (e - 52) == 2 ^ e * (1 # 2 ^ 52)).
    { rewrite Qpower_minus by discriminate. unfold Qdiv.
      apply Qmult_comp; [reflexivity|]. reflexivity. }
    assert (Hpos : 0 < 2 ^ (e - 52)) by (apply Qpower_0_lt; reflexivity).
    set (ulp := 2 ^ (e - 52)) in *.
    pose proof (nearest_even_spec (x' / ulp)) as [Hlo Hhi].
    set (m := inject_Z (nearest_even (x' / ulp))) in *.
    assert (Hq : x' / ulp * ulp == x') by (field; lra).
    set (q := x' / ulp) in *.
    assert (Hu : ulp * (1 # 2) <= x' * unit_roundoff).
    { rewrite Hulp. unfold unit_roundoff.
      assert (0 < 2 ^ e) by (apply Qpower_0_lt; reflexivity).
      assert (Hc : (1 # 2 ^ 52) * (1 # 2) == 1 # 2 ^ 53) by reflexivity.
      rewrite <- Qmult_assoc, Hc.
      apply Qmult_le_compat_r; [exact He | discriminate]. }
    rewrite <- Hr. split; nra.
  - exfalso. clear -Hx' En. destruct x' as [n q]. unfold Qlt in Hx'.
    cbn in *. lia.
Qed.

Lemma binary64_0 (x : Q) : x == 0 -> binary64 x = 0.
Proof. intros H. rewrite (binary64_Qeq x 0 H). reflexivity. Qed.

Lemma rate_nearest (K N : Z) :
  (0 <= K <= N)%Z -> (0 < N)%Z -> (N < 2 ^ 32)%Z ->
  let n := getJob.hundredths (binary64 (binary64 (inject_Z K / inject_Z N) * 100)) in
  (2 * N * n - N <= 2 * (10000 * K) <= 2 * N * n + N)%Z
  /\ (0 <= n <= 10000)%Z.
Proof.
  intros HK HN Hsmall n.
  assert (HqN : 0 < inject_Z N)
    by (change 0 with (inject_Z 0); rewrite <- Zlt_Qlt; exact HN).
  destruct (Z.eq_dec K 0%Z) as [->|HK0].
  { assert (Hn : n = 0%Z).
    { unfold n. rewrite (binary64_0 (inject_Z 0 / inject_Z N)) by (field; lra).
      reflexivity. }
    rewrite Hn. lia. }
  assert (HqK : 0 < inject_Z K)
    by (change 0 with (inject_Z 0); rewrite <- Zlt_Qlt; lia).
  assert (HKN : inject_Z K <= inject_Z N) by (rewrite <- Zle_Qle; lia).
  assert (HK32 : inject_Z K <= inject_Z (2 ^ 32))
    by (rewrite <- Zle_Qle; lia).
  set (qK := inject_Z K) in *. set (qN := inject_Z N) in *.
  set (q := qK / qN) in *.
  assert (Hq : q * qN == qK) by (unfold q; field; lra).
  assert (Hq0 : 0 < q) by (unfold q; apply Qlt_shift_div_l; lra).
  destruct (binary64_error q Hq0) as [H1lo H1hi].
  set (x1 := binary64 q) in *.
  assert (Hx1 : 0 < x1 * 100).
  { assert (0 < 1 - unit_roundoff) by reflexivity. nra. }
  destruct (binary64_error (x1 * 100) Hx1) as [H2lo H2hi].
  set (x2 := binary64 (x1 * 100)) in *.
  assert (Hn1 : inject_Z n <= x2 * 100 + (1 # 2)) by apply Qfloor_le.
  assert (Hn2 : x2 * 100 + (1 # 2) < inject_Z n + 1).
  { pose proof (Qlt_floor (x2 * 100 + (1 # 2))) as H.
    rewrite inject_Z_plus in H. exact H. }
  set (u := unit_roundoff) in *.
  assert (Hu0 : 0 <= u) by discriminate.
  assert (Hu1 : u * u <= u) by (unfold u, unit_roundoff; vm_compute; discriminate).
  (* the two products, bounded linearly in u *)
  assert (Hhi : x2 <= 100 * q + 300 * (q * u)) by nra.
  assert (Hlo : 100 * q - 200 * (q * u) <= x2) by nra.
  (* multiply through by N *)
  assert (Hqu : qK * u * 60000 < 1).
  { apply Qle_lt_trans with (inject_Z (2 ^ 32) * u * 60000).
    - apply Qmult_le_compat_r; [|discriminate].
      apply Qmult_le_compat_r; [exact HK32 | exact Hu0].
    - reflexivity. }
  assert (Hup : inject_Z n * (2 * qN) < 20000 * qK + qN + 1).
  { assert (inject_Z n * (2 * qN)
            <= (10000 * q + 30000 * (q * u) + (1 # 2)) * (2 * qN)).
    { apply Qmult_le_compat_r; [lra | lra]. }
    assert ((10000 * q + 30000 * (q * u) + (1 # 2)) * (2 * qN)
            == 20000 * qK + 60000 * (qK * u) + qN).
    { rewrite <- Hq. ring. }
    lra. }
  assert (Hdn : 20000 * qK - qN - 1 < (inject_Z n + 1) * (2 * qN) - 2 * qN).
  { assert ((10000 * q - 20000 * (q * u) + (1 # 2) - 1) * (2 * qN)
            < inject_Z n * (2 * qN)).
    { apply Qmult_lt_compat_r; [lra | lra]. }
    assert ((10000 * q - 20000 * (q * u) + (1 # 2) - 1) * (2 * qN)
            == 20000 * qK - 40000 * (qK * u) - qN).
    { rewrite <- Hq. ring. }
    lra. }
  assert (Hz1 : (n * (2 * N) < 20000 * K + N + 1)%Z).
  { rewrite Zlt_Qlt. rewrite inject_Z_mult, !inject_Z_plus, !inject_Z_mult.
    exact Hup. }
  assert (Hz2 : (20000 * K - N - 1 < n * (2 * N))%Z).
  { rewrite Zlt_Qlt.
    unfold Z.sub. rewrite !inject_Z_plus, !inject_Z_opp, !inject_Z_mult.
    fold qK qN. change (inject_Z 20000) with 20000.
    change (inject_Z 2) with 2. change (inject_Z 1) with 1. lra. }
  split; [lia|]. nia.
Qed.

Local Close Scope Q_scope.

(** The two digits [toFixed(2)] prints after the point. *)
Lemma two_digits_spec (m : Z) :
  (0 <= m < 100)%Z ->
  getJob.two_digits m = string_of_Z (m / 10) ++ string_of_Z (m mod 10).
Proof.
  intros Hm.
  assert (Hall : forallb
                   (fun k => String.eqb
                               (getJob.two_digits (Z.of_nat k))
                               (string_of_Z (Z.of_nat k / 10)
                                ++ string_of_Z (Z.of_nat k mod 10)))
                   (seq 0 100) = true) by (vm_compute; reflexivity).
  rewrite forallb_forall in Hall.
  specialize (Hall (Z.to_nat m)). rewrite Z2Nat.id in Hall by lia.
  apply String.eqb_eq, Hall, in_seq. lia.
Qed.

Lemma fold_left_sum {A} (g : A -> Z) (l : list A) (acc : Z) :
  fold_left (fun sum x => (sum + g x)%Z) l acc
  = (acc + foldr Z.add 0%Z (g <$> l))%Z.
Proof.
  revert acc. induction l as [|x l IH]; intros acc; cbn.
  - lia.
  - rewrite IH. lia.
Qed.

(** The three classes the statistics count are disjoint, and cover the
    invocations whose status is one of the three. *)
Lemma status_classes (l : list Invocation) :
  (length (List.filter (getJob.has_status "completed") l)
   + length (List.filter (getJob.has_status "failed") l)
   + length (List.filter (getJob.has_status "running") l)
   <= length l)%nat
  /\ ((forall inv, In inv l ->
         In (inv_status inv) ["completed"; "failed"; "running"]) ->
      (length (List.filter (getJob.has_status "completed") l)
       + length (List.filter (getJob.has_status "failed") l)
       + length (List.filter (getJob.has_status "running") l)
       = length l)%nat).
Proof.
  induction l as [|inv l [IHle IHeq]];
    [split; [reflexivity | intros _; reflexivity]|].
  assert (Htail : (forall inv', In inv' (inv :: l) ->
                     In (inv_status inv') ["completed"; "failed"; "running"]) ->
                  (length (List.filter (getJob.has_status "completed") l)
                   + length (List.filter (getJob.has_status "failed") l)
                   + length (List.filter (getJob.has_status "running") l)
                   = length l)%nat).
  { intros Hall. apply IHeq. intros inv' Hin. apply Hall. right. exact Hin. }
  cbn [List.filter].
  destruct (getJob.has_status "completed" inv) eqn:E1,
           (getJob.has_status "failed" inv) eqn:E2,
           (getJob.has_status "running" inv) eqn:E3;
    unfold getJob.has_status in E1, E2, E3;
    first [apply String.eqb_eq in E1 | apply String.eqb_neq in E1];
    first [apply String.eqb_eq in E2 | apply String.eqb_neq in E2];
    first [apply String.eqb_eq in E3 | apply String.eqb_neq in E3];
    try congruence; cbn [length];
    (split; [lia | intros Hall; specialize (Htail Hall)]); try lia.
  exfalso. destruct (Hall inv (or_introl eq_refl)) as [H | [H | [H | []]]];
    congruence.
Qed.

End Rounding.

Section Registered.
Context (env : Env).

(** What a 201 for a one-time or a cron job means: the record was written
    without a rule name, then the rule, the permission and the target were
    sent, and the rule is registered under the name the response gives. *)
Lemma creation_registered event w job :
  (createJob.handler env event w).1 = createJob.created job ->
  type job = "once" \/ type job = "cron" ->
  let w' := (createJob.handler env event w).2 in
  let name := "job-" ++ jobId job in
  exists stored rule payload,
    job = createJob.with_ruleName name stored
    /\ ruleName stored = None
    /\ trace w' =
         (trace w ++ [PutJob stored;
                      PutRuleCommand name rule;
                      AddPermissionCommand (name ++ "-permission");
                      PutTargetsCommand name
                        [{| Id := "1"; Input := (jobId job, payload) |}]])%list
    /\ jobs w' !! jobId job = Some stored
    /\ rules w' !! name = Some rule.
Proof.
  unfold createJob.handler, catch_all.
  destruct (run_cases env event w)
    as [(e & Hr & _) | [(msg & w' & Hr & Hs)
                       | (body & ty & w0 & Hp & Hty & Hr & Hs & Hv)]].
  - rewrite Hr. cbn [fst]. discriminate.
  - rewrite Hr. cbn [fst]. discriminate.
  - rewrite Hr.
    destruct (createJob.create env _ _ _ _ _ _ w0) as [[e|resp] w'] eqn:Hcr;
      cbn [fst snd]; [discriminate|].
    intros -> Hjob. apply create_returns in Hcr. cbv zeta in Hcr.
    set (stored := createJob.new_job _ _ _ _ _ _ _ _) in Hcr.
    assert (Ht0 : trace w0 = trace w) by (unfold services in Hs; congruence).
    assert (Hstored : type stored = "once" \/ type stored = "cron").
    { pose proof Hcr as Hcr'. unfold createJob.schedule in Hcr'.
      destruct Hv as (Hin & _). cbn [type stored createJob.new_job] in *.
      destruct Hin as [<- | [<- | [<- | []]]]; auto.
      exfalso. cbn [String.eqb Ascii.eqb Bool.eqb andb] in Hcr'.
      rewrite bind_run in Hcr'.
      destruct (lambda_invoke env _ _) as [[?|?] ?]; [discriminate|].
      injection Hcr' as <- _. destruct Hjob; discriminate. }
    destruct (schedule_registers env stored _ _ _ _ _ _ Hstored Hcr)
      as (rule & Ht & Hrules & Hj & Hresp).
    injection Hresp as ->.
    exists stored, rule, (get_field body "payload").
    cbn [jobId createJob.with_ruleName].
    split; [reflexivity|]. split; [reflexivity|]. split; [|split].
    + rewrite Ht. world. rewrite Ht0, <- app_assoc. reflexivity.
    + rewrite Hj. world. apply lookup_insert_eq.
    + rewrite Hrules. apply lookup_insert_eq.
Qed.

End Registered.

(** ** A dispatch that finds no rule name *)

Section Unclean.
Context (env : Env).
Context {X : Type} (f : World -> X).
Hypothesis f_log : forall c w, f (log c w) = f w.
Hypothesis f_tick : forall w, f (tick w) = f w.
Hypothesis f_draw : forall w, f (draw w) = f w.
Hypothesis f_jobs : forall g w, f (set_jobs g w) = f w.
Hypothesis f_invocations : forall g w, f (set_invocations g w) = f w.

Lemma cleanup_skipped job :
  present (ruleName job) = None -> jobExecutor.cleanup env job = mret tt.
Proof.
  intros H. unfold jobExecutor.cleanup. rewrite H.
  destruct (type job =? "once"); reflexivity.
Qed.

Lemma critical_frame event i t e w :
  f (jobExecutor.critical env event i t e w).2 = f w.
Proof.
  unfold jobExecutor.critical. cbn [snd].
  assert (H : frame f
    (try_catch
       (completed ← Date_now env;
        now ← Date_now env;
        ddb_put_invocation env
          {| invocationId := i;
             inv_jobId := default "unknown"
                            (present (jobExecutor.ev_jobId event));
             timestamp := t; inv_status := "failed"; startedAt := t;
             input := VUndefined; completedAt := Some completed;
             duration := Some (now - t)%Z; output := None;
             error := Some (err_message e);
             errorStack := Some (err_stack e) |})
       (fun _ => mret tt))).
  { unfold ddb_put_invocation. compose; try apply frame_Date_now; auto.
    apply frame_send; auto. }
  apply H.
Qed.

(** The part [f] of the rule service is untouched by the dispatch of a job
    whose record holds no rule name, whatever fails. *)
Lemma dispatch_skips_cleanup event w jobId :
  present (jobExecutor.ev_jobId event) = Some jobId ->
  (forall job, jobs w !! jobId = Some job -> present (ruleName job) = None) ->
  f (jobExecutor.handler env event w).2 = f w.
Proof.
  intros Hid Hno.
  unfold jobExecutor.handler, catch_all, jobExecutor.run. rewrite Hid.
  rewrite bind_run. unfold ddb_get. rewrite bind_run. unfold send at 1.
  destruct (fault env _ (GetCommand jobId)); cbv beta iota.
  { rewrite critical_frame, f_log, f_tick, f_draw. reflexivity. }
  unfold gets, id. cbv beta iota.
  change (jobs (log (GetCommand jobId) (tick (draw w)))) with (jobs w).
  destruct (jobs w !! jobId) as [job|] eqn:Hjob.
  2: { unfold mret, M_ret. cbn [snd]. rewrite f_log, f_tick, f_draw.
       reflexivity. }
  specialize (Hno job eq_refl).
  match goal with
  | |- f (let (s, w') := ?m ?w0 in _).2 = _ =>
      assert (Hm : frame f m); [|specialize (Hm w0); destruct (m w0) as [[e|r] w']]
  end.
  - rewrite (cleanup_skipped job Hno). unfold ddb_put_invocation.
    assert (Hup : forall k t s, frame f (ddb_update env k t s)).
    { intros k t s w0. unfold ddb_update.
      destruct (fault env _ _); [apply f_log|].
      destruct (jobs w0 !! k); cbn [snd]; [rewrite f_jobs|]; apply f_log. }
    compose; try apply frame_Date_now; try apply frame_send; auto.
  - cbn [snd] in Hm. rewrite critical_frame, Hm, f_log, f_tick, f_draw.
    reflexivity.
  - cbn [snd] in Hm |- *. rewrite Hm, f_log, f_tick, f_draw. reflexivity.
Qed.

End Unclean.

(** ** The document client in front of the store *)

Section Client.
Context (env : Env) (err : Error).
Hypothesis Hclient : ClientRefuses env err.

Lemma client_answers c n : refused c = false -> fault env n c = None.
Proof. intros H. rewrite Hclient, H. reflexivity. Qed.

Lemma client_throws c n : refused c = true -> fault env n c = Some err.
Proof. intros H. rewrite Hclient, H. reflexivity. Qed.

Lemma running_accepted i j t s p :
  unmarshallable p = false ->
  refused_invocation (jobExecutor.running i j t s p) = false.
Proof.
  intros Hp. unfold refused_invocation.
  cbn [jobExecutor.running input output]. rewrite orb_false_r.
  destruct p; try exact Hp. reflexivity.
Qed.

Lemma finalized_refused i j t s p outcome e d :
  unmarshallable p = false ->
  refused_invocation
    (jobExecutor.finalize (jobExecutor.running i j t s p) outcome e d)
  = negb (storable outcome).
Proof.
  intros Hp. unfold refused_invocation.
  destruct outcome as [thrown|result];
    cbn [jobExecutor.finalize jobExecutor.running input output storable negb].
  - rewrite orb_false_r. destruct p; try exact Hp. reflexivity.
  - rewrite negb_involutive.
    destruct p; try discriminate Hp; try reflexivity; rewrite Hp; reflexivity.
Qed.


(** A dispatch whose job logic returns a result that the client does not
    marshal: the client refuses the record of the finished invocation, the
    [catch] answers, and the update of the job is never sent. *)
Lemma dispatch_refused event w jobId job result :
  present (jobExecutor.ev_jobId event) = Some jobId ->
  jobs w !! jobId = Some job ->
  let payload := js_or (jobExecutor.ev_payload event) (VObj []) in
  unmarshallable payload = false ->
  executeJobLogic env job payload = inr result ->
  unmarshallable result = true ->
  exists w' record,
    jobExecutor.handler env event w =
      ({| statusCode := 500;
          body := BCritical (err_message err) (uuidv4 env (uuids w)) |}, w')
    /\ jobs w' = jobs w
    /\ rules w' = rules w /\ targets w' = targets w
    /\ permissions w' = permissions w
    /\ invocations w' = <[uuidv4 env (uuids w) := record]> (invocations w)
    /\ inv_status record = "failed"
    /\ inv_jobId record = jobId
    /\ output record = None
    /\ error record = Some (err_message err).
Proof.
  intros Hid Hjob. cbv zeta. intros Hp Hres Hund.
  unfold jobExecutor.handler, catch_all, jobExecutor.run.
  rewrite Hid.
  rewrite bind_run, ddb_get_ok by (apply client_answers; reflexivity).
  world. rewrite Hjob.
  rewrite bind_run. unfold Date_now at 1. world.
  rewrite bind_run. unfold ddb_put_invocation at 1.
  rewrite send_ok
    by (apply client_answers; cbn [refused]; apply running_accepted, Hp).
  world.
  rewrite bind_run. unfold Date_now at 1. world.
  rewrite bind_run. unfold ddb_put_invocation at 1.
  rewrite (send_fails env _ _ _ err)
    by (apply client_throws; cbn [refused];
        rewrite finalized_refused by exact Hp; rewrite Hres;
        cbn [storable]; rewrite Hund; reflexivity).
  unfold jobExecutor.critical.
  rewrite try_catch_run, bind_run. unfold Date_now at 1. cbv beta iota.
  rewrite bind_run. unfold Date_now at 1. cbv beta iota.
  unfold ddb_put_invocation.
  rewrite send_ok by (apply client_answers; reflexivity).
  do 2 eexists. split; [reflexivity|]. world.
  split; [reflexivity|]. split; [reflexivity|]. split; [reflexivity|].
  split; [reflexivity|].
  split; [cbn [invocationId jobExecutor.running]; apply insert_insert_eq|].
  rewrite Hid. repeat split; reflexivity.
Qed.

End Client.

(** * The claims *)

(** ** Dispatch *)

(** C1 fails when the result of the job logic holds [undefined].  The
    executor means to mark the job and to count the invocation after every
    execution, but it stores the result first, through a document client
    that throws on an item holding [undefined].  With the job logic of the
    repository a notification without a recipient returns
    [{ message, recipient: undefined, sentAt }]: the logic succeeds, the
    client refuses the record of the finished invocation, the [catch]
    answers 500, and the update of the job is never sent.  The job keeps
    its status and its invocation count, and the invocation is recorded as
    failed with the client's message.  The services answer every command
    here: the only failure is the client's. *)
Theorem dispatch_with_undefined_result_leaves_job
    (env : Env) (event : jobExecutor.Event) (w : World)
    (jobId : string) (job : Job)
    (stamp : nat -> string) (random : nat -> Q) (stack : string)
    (err : Error) :
  executeJobLogic env = jobLogic.executeJobLogic stamp random stack ->
  ClientRefuses env err ->
  present (jobExecutor.ev_jobId event) = Some jobId ->
  jobs w !! jobId = Some job ->
  get_field (jobExecutor.ev_payload event) "action"
  = VStr "send-notification" ->
  get_field (jobExecutor.ev_payload event) "recipient" = VUndefined ->
  unmarshallable (jobExecutor.ev_payload event) = false ->
  let r := jobExecutor.handler env event w in
  executeJobLogic env job (jobExecutor.ev_payload event)
  = inr (VObj [("message", VStr "Notification sent successfully");
               ("recipient", VUndefined);
               ("sentAt", VStr (stamp 0%nat))])
  /\ r.1 = {| statusCode := 500;
              body := BCritical (err_message err) (uuidv4 env (uuids w)) |}
  /\ jobs r.2 !! jobId = Some job
  /\ jobs r.2 = jobs w
  /\ exists record,
       invocations r.2 !! uuidv4 env (uuids w) = Some record
       /\ inv_status record = "failed"
       /\ output record = None
       /\ error record = Some (err_message err).
Proof.
  intros Hlogic Hclient Hid Hjob Hact Hrec Hp. cbv zeta.
  assert (Hpay : js_or (jobExecutor.ev_payload event) (VObj [])
                 = jobExecutor.ev_payload event).
  { unfold js_or.
    destruct (jobExecutor.ev_payload event); try discriminate Hact.
    reflexivity. }
  assert (Hres : executeJobLogic env job (jobExecutor.ev_payload event)
                 = inr (VObj [("message", VStr "Notification sent successfully");
                              ("recipient", VUndefined);
                              ("sentAt", VStr (stamp 0%nat))])).
  { rewrite Hlogic. unfold jobLogic.executeJobLogic.
    assert (Hnn : nullish (jobExecutor.ev_payload event) = false)
      by (destruct (jobExecutor.ev_payload event); try reflexivity;
          discriminate Hact).
    rewrite Hnn, Hact.
    cbn [jobLogic.is_string String.eqb Ascii.eqb Bool.eqb andb].
    unfold jobLogic.sendNotification. rewrite Hrec. reflexivity. }
  destruct (dispatch_refused env err Hclient event w jobId job
              (VObj [("message", VStr "Notification sent successfully");
                     ("recipient", VUndefined);
                     ("sentAt", VStr (stamp 0%nat))]) Hid Hjob)
    as (w' & record & Hrun & Hj & _ & _ & _ & Hi & Hs & _ & Ho & He).
  - rewrite Hpay. exact Hp.
  - rewrite Hpay. exact Hres.
  - reflexivity.
  - rewrite Hrun. cbn [fst snd]. split; [exact Hres|].
    split; [reflexivity|]. split; [rewrite Hj; exact Hjob|].
    split; [exact Hj|]. exists record. rewrite Hi, lookup_insert_eq. auto.
Qed.

Lemma dispatch_with_undefined_result_leaves_job_witness :
  let r := jobExecutor.handler Scenario3.env_client
             {| jobExecutor.ev_jobId := Some "uuid-0";
                jobExecutor.ev_payload := Scenario3.notify |}
             Scenario3.notify_created in
  (status <$> (jobs Scenario3.notify_created !! "uuid-0")) = Some "executing"
  /\ statusCode r.1 = 500%Z
  /\ (status <$> (jobs r.2 !! "uuid-0")) = Some "executing"
  /\ (invocationCount <$> (jobs r.2 !! "uuid-0")) = Some 0%Z
  /\ (inv_status <$> (invocations r.2 !! "uuid-1")) = Some "failed".
Proof.
  intros r.
  destruct (dispatch_with_undefined_result_leaves_job Scenario3.env_client
              {| jobExecutor.ev_jobId := Some "uuid-0";
                 jobExecutor.ev_payload := Scenario3.notify |}
              Scenario3.notify_created "uuid-0" Scenario3.notify_job
              Scenario3.stamp Scenario3.random "" Scenario3.undefined_value)
    as (_ & Hresp & Hjob & _ & record & Hi & Hs & _);
    [reflexivity | intros n c; reflexivity | reflexivity
     | vm_compute; reflexivity | reflexivity | reflexivity | reflexivity |].
  fold r in Hresp, Hjob, Hi.
  split; [vm_compute; reflexivity|].
  split; [rewrite Hresp; reflexivity|].
  rewrite Hjob. split; [reflexivity|]. split; [reflexivity|].
  assert (Hk : uuidv4 Scenario3.env_client (uuids Scenario3.notify_created)
               = "uuid-1") by (vm_compute; reflexivity).
  rewrite Hk in Hi. rewrite Hi. cbn [fmap option_fmap option_map].
  rewrite Hs. reflexivity.
Defined.

(** An immediate job whose logic throws: the creation queues the executor
    with the request's payload; the dispatch answers 500 and leaves the job
    "failed" with one invocation, itself "failed". *)
Example immediate_job_that_throws :
  let w1 := (createJob.handler Example.env
               (Example.post Example.failing_request) Example.empty).2 in
  let event := {| jobExecutor.ev_jobId := Some "uuid-0";
                  jobExecutor.ev_payload := VObj [("action", VStr "fail")] |} in
  let r := jobExecutor.handler Example.env event w1 in
  queued w1 = [("uuid-0", VObj [("action", VStr "fail")])]
  /\ (status <$> (jobs w1 !! "uuid-0")) = Some "executing"
  /\ statusCode r.1 = 500%Z
  /\ (status <$> (jobs r.2 !! "uuid-0")) = Some "failed"
  /\ (invocationCount <$> (jobs r.2 !! "uuid-0")) = Some 1%Z
  /\ (inv_status <$> (invocations r.2 !! "uuid-1")) = Some "failed".
Proof. vm_compute. repeat split; reflexivity. Qed.

(** C2, as the code has it.  After the metadata update, [lastExecutedAt] and
    [updatedAt] both equal the [timestamp] of the invocation, which is the
    clock reading taken on entry to the handler; [completedAt] is the reading
    taken after the job logic ran, two readings later. *)
Theorem dispatch_stamps_entry_time
    (env : Env) (event : jobExecutor.Event) (w : World)
    (jobId : string) (job : Job) :
  present (jobExecutor.ev_jobId event) = Some jobId ->
  jobs w !! jobId = Some job ->
  StoreOk env ->
  let w' := (jobExecutor.handler env event w).2 in
  exists job' inv,
    jobs w' !! jobId = Some job'
    /\ invocations w' !! uuidv4 env (uuids w) = Some inv
    /\ lastExecutedAt job' = Some (timestamp inv)
    /\ updatedAt job' = timestamp inv
    /\ timestamp inv = clock env (ticks w)
    /\ completedAt inv = Some (clock env (S (S (ticks w)))).
Proof.
  intros Hid Hjob Hok.
  destruct (dispatch_found env event w jobId job Hid Hjob Hok)
    as (w' & -> & Hj & Hi).
  cbn [snd]. rewrite Hj, Hi, !lookup_insert_eq.
  do 2 eexists. split; [reflexivity|]. split; [reflexivity|].
  destruct (executeJobLogic env job _); repeat split; reflexivity.
Qed.

Lemma dispatch_stamps_entry_time_witness :
  exists job' inv,
    jobs (jobExecutor.handler Example.env (Example.fire "uuid-0")
            Scenario.once_created).2 !! "uuid-0" = Some job'
    /\ invocations (jobExecutor.handler Example.env (Example.fire "uuid-0")
            Scenario.once_created).2 !! "uuid-1" = Some inv
    /\ lastExecutedAt job' = Some 1700000000500%Z
    /\ timestamp inv = 1700000000500%Z
    /\ completedAt inv = Some 1700000001000%Z.
Proof.
  destruct (dispatch_stamps_entry_time Example.env (Example.fire "uuid-0")
              Scenario.once_created "uuid-0" Scenario.once_job)
    as (job' & inv & Hj & Hi & Hl & _ & Ht & Hc).
  - reflexivity.
  - vm_compute. reflexivity.
  - intros n c _. reflexivity.
  - exists job', inv. split; [exact Hj|]. split; [exact Hi|].
    rewrite Hl, Ht. split; [reflexivity|]. split; [reflexivity | exact Hc].
Defined.

(** C2, as stated, fails: with a clock that advances, the dispatch of the
    one-time job leaves [lastExecutedAt] at the entry time, half a second
    before the [completedAt] of its invocation. *)
Lemma dispatch_stamp_differs_from_completion :
  let w' := (jobExecutor.handler Example.env (Example.fire "uuid-0")
               Scenario.once_created).2 in
  exists job' inv,
    jobs w' !! "uuid-0" = Some job'
    /\ invocations w' !! "uuid-1" = Some inv
    /\ lastExecutedAt job' = Some 1700000000500%Z
    /\ updatedAt job' = 1700000000500%Z
    /\ completedAt inv = Some 1700000001000%Z
    /\ lastExecutedAt job' <> completedAt inv
    /\ Some (updatedAt job') <> completedAt inv.
Proof.
  vm_compute. do 2 eexists.
  split; [reflexivity|]. split; [reflexivity|].
  repeat split; discriminate.
Qed.

(** C9.  A dispatch whose job is not in the store stops after the lookup: it
    answers 404, the only command it has sent is the read, and neither table
    has changed.  The handler is a function to a response: nothing is
    thrown to its caller. *)
Theorem dispatch_of_absent_job_stops
    (env : Env) (event : jobExecutor.Event) (w : World) (jobId : string) :
  present (jobExecutor.ev_jobId event) = Some jobId ->
  jobs w !! jobId = None ->
  fault env (length (trace w)) (GetCommand jobId) = None ->
  exists w',
    jobExecutor.handler env event w =
      ({| statusCode := 404; body := BError "Job not found" |}, w')
    /\ invocations w' = invocations w
    /\ jobs w' = jobs w
    /\ trace w' = (trace w ++ [GetCommand jobId])%list.
Proof.
  intros Hid Hjob Hok.
  unfold jobExecutor.handler, catch_all, jobExecutor.run. rewrite Hid.
  rewrite bind_run, ddb_get_ok by exact Hok. world. rewrite Hjob.
  eexists. split; [reflexivity|]. repeat split; reflexivity.
Qed.

Lemma dispatch_of_absent_job_stops_witness :
  exists w',
    jobExecutor.handler Example.env (Example.fire "gone") Scenario.once_created =
      ({| statusCode := 404; body := BError "Job not found" |}, w')
    /\ invocations w' = invocations Scenario.once_created
    /\ jobs w' = jobs Scenario.once_created.
Proof.
  destruct (dispatch_of_absent_job_stops Example.env (Example.fire "gone")
              Scenario.once_created "gone")
    as (w' & Hr & Hi & Hj & _).
  - reflexivity.
  - vm_compute. reflexivity.
  - reflexivity.
  - exists w'. auto.
Defined.

(** ** Deletion *)

(** C7.  A delete request for an identifier that is not in the store answers
    404 and changes nothing: the lookup is the only command sent.  For an
    identifier that is in the store, on a store that answers, the record is
    removed and the answer is 200, whatever happens to the removal of the
    rule. *)
Theorem delete_absent_and_present
    (env : Env) (event : deleteJob.Event) (w : World) (jobId : string) :
  present (deleteJob.pathParameters_jobId event) = Some jobId ->
  (jobs w !! jobId = None ->
   fault env (length (trace w)) (GetCommand jobId) = None ->
   exists w',
     deleteJob.handler env event w =
       ({| statusCode := 404; body := BError "Job not found" |}, w')
     /\ services w' =
          (jobs w, invocations w, rules w, targets w, permissions w, queued w,
           (trace w ++ [GetCommand jobId])%list))
  /\ (forall job,
        jobs w !! jobId = Some job ->
        StoreOk env ->
        exists w',
          deleteJob.handler env event w =
            ({| statusCode := 200; body := BDeleted jobId (name job) |}, w')
          /\ jobs w' = delete jobId (jobs w)
          /\ jobs w' !! jobId = None).
Proof.
  intros Hid. split.
  - intros Hjob Hok.
    unfold deleteJob.handler, catch_all, deleteJob.run. rewrite Hid.
    rewrite bind_run, ddb_get_ok by exact Hok. rewrite Hjob.
    eexists. split; reflexivity.
  - intros job Hjob Hok.
    unfold deleteJob.handler, catch_all, deleteJob.run. rewrite Hid.
    rewrite bind_run, ddb_get_ok by (apply Hok; reflexivity). rewrite Hjob.
    rewrite bind_run.
    destruct (remove_rule_returns env job (log (GetCommand jobId) w))
      as (w1 & -> & Hj).
    rewrite bind_run. unfold ddb_delete.
    rewrite send_ok by (apply Hok; reflexivity).
    eexists. split; [reflexivity|]. world. rewrite Hj. world.
    split; [reflexivity | apply lookup_delete_eq].
Qed.

Lemma delete_absent_and_present_witness :
  (exists w',
     deleteJob.handler Example.env
       {| deleteJob.pathParameters_jobId := Some "gone" |}
       Scenario.once_created =
       ({| statusCode := 404; body := BError "Job not found" |}, w')
     /\ jobs w' = jobs Scenario.once_created)
  /\ (exists w',
        deleteJob.handler Example.env
          {| deleteJob.pathParameters_jobId := Some "uuid-0" |}
          Scenario.once_created =
          ({| statusCode := 200; body := BDeleted "uuid-0" (VStr "backup") |}, w')
        /\ jobs w' !! "uuid-0" = None).
Proof.
  split.
  - destruct (delete_absent_and_present Example.env
                {| deleteJob.pathParameters_jobId := Some "gone" |}
                Scenario.once_created "gone") as [Habsent _].
    + reflexivity.
    + destruct Habsent as (w' & Hr & Hs).
      * vm_compute. reflexivity.
      * reflexivity.
      * exists w'. split; [exact Hr|]. unfold services in Hs. congruence.
  - destruct (delete_absent_and_present Example.env
                {| deleteJob.pathParameters_jobId := Some "uuid-0" |}
                Scenario.once_created "uuid-0") as [_ Hpresent].
    + reflexivity.
    + destruct (Hpresent Scenario.once_job) as (w' & Hr & _ & Hn).
      * vm_compute. reflexivity.
      * intros n c _. reflexivity.
      * exists w'. split; [exact Hr | exact Hn].
Defined.

(** ** Creation *)

(** C10.  A request without a body, or whose body is not a JSON text, is
    answered 500 by the catch-all ("Failed to create job"), not 400, and the
    world is exactly as it was: no record is written.  [JSON.parse] rejects
    the text "undefined" and reads the text "null" as null. *)
Theorem create_without_json_body_fails
    (env : Env) (event : createJob.Event) (w : World) :
  JSON_parse env "undefined" = None ->
  JSON_parse env "null" = Some VNull ->
  createJob.event_body event = VUndefined
  \/ createJob.event_body event = VNull
  \/ JSON_parse env (to_string (createJob.event_body event)) = None ->
  exists details,
    createJob.handler env event w =
      ({| statusCode := 500;
          body := BFailure "Failed to create job" details |}, w).
Proof.
  intros Hundef Hnull Hbody.
  unfold createJob.handler, catch_all, createJob.run.
  rewrite bind_run. unfold createJob.parse.
  destruct Hbody as [-> | [-> | ->]]; cbn [to_string].
  - rewrite Hundef. eexists. reflexivity.
  - rewrite Hnull. eexists. reflexivity.
  - eexists. reflexivity.
Qed.

Lemma create_without_json_body_fails_witness :
  (exists details,
     createJob.handler Example.env {| createJob.event_body := VUndefined |}
Example.empty =
({| statusCode := 500;
    body := BFailure "Failed to create job" details |}, Example.empty))
/\ (exists details,
 createJob.handler Example.env
   {| createJob.event_body := VStr "{name:" |} Example.empty =
   ({| statusCode := 500;
       body := BFailure "Failed to create job" details |},
Example.empty)).
Proof.
  split.
  - apply (create_without_json_body_fails Example.env
             {| createJob.event_body := VUndefined |} Example.empty);
      [reflexivity | reflexivity | left; reflexivity].
  - apply (create_without_json_body_fails Example.env
             {| createJob.event_body := VStr "{name:" |} Example.empty);
      [reflexivity | reflexivity | right; right; reflexivity].
Defined.



(** C4, as the code has it.  Every record [createJob] writes has one of the
    three types; its [scheduleExpression] and its [executeAt] are the
    request's values when those are truthy and null otherwise, whatever the
    type; a cron record has its [scheduleExpression] set and a one-time record
    its [executeAt].  Nothing clears the field the type does not use. *)
Theorem written_record_fields
    (env : Env) (event : createJob.Event) (w : World)
    (pre post : list Call) (job : Job) :
  trace (createJob.handler env event w).2
    = (trace w ++ pre ++ PutJob job :: post)%list ->
  exists body,
    JSON_parse env (to_string (createJob.event_body event)) = Some body
    /\ In (type job) createJob.jobTypes
    /\ scheduleExpression job = js_or (get_field body "scheduleExpression") VNull
    /\ executeAt job = js_or (get_field body "executeAt") VNull
    /\ (type job = "cron" -> truthy (scheduleExpression job) = true)
    /\ (type job = "once" -> truthy (executeAt job) = true).
Proof.
  rewrite create_handler_world. intros Htrace.
  destruct (run_cases env event w)
    as [(e & Hr & _) | [(msg & w' & Hr & Hs)
                       | (body & ty & w0 & Hp & Hty & Hr & Hs & Hv)]].
  - rewrite Hr in Htrace. cbn [snd] in Htrace.
    rewrite <- (app_nil_r (trace w)) in Htrace at 1.
    apply app_inv_head in Htrace. destruct pre; discriminate.
  - rewrite Hr in Htrace. cbn [snd] in Htrace.
    assert (Ht : trace w' = trace w) by (unfold services in Hs; congruence).
    rewrite Ht in Htrace.
    rewrite <- (app_nil_r (trace w)) in Htrace at 1.
    apply app_inv_head in Htrace. destruct pre; discriminate.
  - rewrite Hr in Htrace.
    destruct (create_spec env (get_field body "name")
                (get_field body "description") ty
                (get_field body "scheduleExpression")
                (get_field body "executeAt") (get_field body "payload") w0)
      as (r & w' & rest & Hc & Ht & Hrest & _).
    rewrite Hc in Htrace. cbn [snd] in Htrace. rewrite Ht in Htrace.
    assert (Ht0 : trace w0 = trace w) by (unfold services in Hs; congruence).
    rewrite Ht0 in Htrace. apply app_inv_head in Htrace. symmetry in Htrace.
    apply new_segment_head in Htrace. destruct Htrace as [[_ [= ->]] | Hin].
    + exists body. destruct Hv as (Hin & Honce & Hcron).
      cbn [type scheduleExpression executeAt createJob.new_job].
      split; [exact Hp|]. split; [exact Hin|].
      split; [reflexivity|]. split; [reflexivity|]. split.
      * intros Hc'. rewrite truthy_js_or; auto.
      * intros Ho. destruct (Honce Ho) as (Hea & _).
        rewrite truthy_js_or; auto.
    + rewrite List.Forall_forall in Hrest. apply Hrest in Hin. discriminate.
Qed.

Lemma written_record_fields_witness :
  exists body,
    JSON_parse Example.env (Example.stringify Example.cron_request) = Some body
    /\ truthy (scheduleExpression Scenario.cron_job) = true
    /\ executeAt Scenario.cron_job = VNull.
Proof.
  destruct (written_record_fields Example.env
              (Example.post Example.cron_request) Example.empty []
              [PutRuleCommand "job-uuid-0"
                 {| ScheduleExpression := VStr "rate(15 minutes)";
                    State := "ENABLED";
                    Description := "Recurring job: sync" |};
               AddPermissionCommand "job-uuid-0-permission";
               PutTargetsCommand "job-uuid-0"
                 [{| Id := "1"; Input := ("uuid-0", VUndefined) |}]]
              Scenario.cron_job)
    as (body & Hp & _ & _ & Hea & Hcron & _).
  - vm_compute. reflexivity.
  - exists body. split; [exact Hp|]. split; [apply Hcron; reflexivity|].
    reflexivity.
Defined.

(** C4, as stated, fails: the record written for an immediate request that
    carries an [executeAt] has that [executeAt] set. *)
Lemma immediate_record_keeps_executeAt :
  let w' := (createJob.handler Example.env
               (Example.post Example.immediate_request) Example.empty).2 in
  exists job,
    trace w' = [PutJob job; InvokeCommand ("uuid-0", VUndefined)]
    /\ jobs w' !! "uuid-0" = Some job
    /\ type job = "immediate"
    /\ executeAt job = VStr "2030-01-01T00:00:00Z"
    /\ truthy (executeAt job) = true
    /\ ~ (truthy (executeAt job) = true <-> type job = "once").
Proof.
  vm_compute. eexists. split; [reflexivity|]. split; [reflexivity|].
  split; [reflexivity|]. split; [reflexivity|]. split; [reflexivity|].
  intros [H _]. specialize (H eq_refl). discriminate H.
Qed.

(** C8.  In every run of [createJob], a command to the rule service is
    preceded by the write of the record, which is the first command of the
    run, and the record is in the store when the run ends, whether the
    registration went through or failed.  A run that answers 201 for a
    one-time or a cron job has sent exactly the write, the rule, the
    permission and the target, in this order. *)
Theorem record_written_before_registration
    (env : Env) (event : createJob.Event) (w : World) :
  let r := createJob.handler env event w in
  (forall pre c post,
     trace r.2 = (trace w ++ pre ++ c :: post)%list ->
     rule_call c = true ->
     exists job pre',
       pre = PutJob job :: pre'
       /\ jobs r.2 !! jobId job = Some job)
  /\ (forall job,
        r.1 = createJob.created job ->
        type job = "once" \/ type job = "cron" ->
        exists stored rule payload,
          trace r.2 =
            (trace w ++ [PutJob stored;
                         PutRuleCommand ("job-" ++ jobId job) rule;
                         AddPermissionCommand
                           (("job-" ++ jobId job) ++ "-permission");
                         PutTargetsCommand ("job-" ++ jobId job)
                           [{| Id := "1"; Input := (jobId job, payload) |}]])%list
          /\ jobId stored = jobId job
          /\ jobs r.2 !! jobId job = Some stored).
Proof.
  cbv zeta. split.
  - intros pre c post. rewrite create_handler_world. intros Htrace Hc.
    destruct (run_cases env event w)
      as [(e & Hr & _) | [(msg & w' & Hr & Hs)
                         | (body & ty & w0 & Hp & Hty & Hr & Hs & Hv)]].
    + rewrite Hr in Htrace. cbn [snd] in Htrace.
      rewrite <- (app_nil_r (trace w)) in Htrace at 1.
      apply app_inv_head in Htrace. destruct pre; discriminate.
    + rewrite Hr in Htrace. cbn [snd] in Htrace.
      assert (Ht : trace w' = trace w) by (unfold services in Hs; congruence).
      rewrite Ht in Htrace.
      rewrite <- (app_nil_r (trace w)) in Htrace at 1.
      apply app_inv_head in Htrace. destruct pre; discriminate.
    + rewrite Hr in Htrace |- *.
      destruct (create_spec env (get_field body "name")
                  (get_field body "description") ty
                  (get_field body "scheduleExpression")
                  (get_field body "executeAt") (get_field body "payload") w0)
        as (r & w' & rest & Hcr & Ht & Hrest & Hjobs).
      rewrite Hcr in Htrace |- *. cbn [snd] in Htrace |- *.
      rewrite Ht in Htrace.
      assert (Ht0 : trace w0 = trace w) by (unfold services in Hs; congruence).
      rewrite Ht0 in Htrace. apply app_inv_head in Htrace.
      destruct pre as [|c0 pre'].
      * cbn [app] in Htrace. injection Htrace as <- _. discriminate Hc.
      * cbn [app] in Htrace. injection Htrace as <- Hrest'.
        eexists _, pre'. split; [reflexivity|].
        destruct Hjobs as [(e & _ & -> & _) | Hj].
        -- destruct pre'; discriminate Hrest'.
        -- rewrite Hj. apply lookup_insert_eq.
  - intros job Hresp Hty.
    destruct (creation_registered env event w job Hresp Hty)
      as (stored & rule & payload & Hjob & _ & Ht & Hj & _).
    exists stored, rule, payload. split; [exact Ht|]. split; [|exact Hj].
    rewrite Hjob. reflexivity.
Qed.

Lemma record_written_before_registration_witness :
  (exists job pre',
     [PutJob Scenario.cron_job] = PutJob job :: pre'
     /\ jobs (createJob.handler Example.env_rules_down
                (Example.post Example.cron_request) Example.empty).2
          !! jobId job = Some job)
  /\ (exists stored rule payload,
        trace Scenario.once_created =
          [PutJob stored;
           PutRuleCommand "job-uuid-0" rule;
           AddPermissionCommand "job-uuid-0-permission";
           PutTargetsCommand "job-uuid-0"
             [{| Id := "1"; Input := ("uuid-0", payload) |}]]
        /\ jobs Scenario.once_created !! "uuid-0" = Some stored).
Proof.
  split.
  - destruct (record_written_before_registration Example.env_rules_down
                (Example.post Example.cron_request) Example.empty)
      as [Horder _].
    apply (Horder [PutJob Scenario.cron_job]
             (PutRuleCommand "job-uuid-0"
                {| ScheduleExpression := VStr "rate(15 minutes)";
                   State := "ENABLED";
                   Description := "Recurring job: sync" |}) []).
    + vm_compute. reflexivity.
    + reflexivity.
  - destruct (record_written_before_registration Example.env
                (Example.post Example.once_request) Example.empty)
      as [_ Hdone].
    destruct (Hdone (createJob.with_ruleName "job-uuid-0" Scenario.once_job))
      as (stored & rule & payload & Ht & _ & Hj).
    + vm_compute. reflexivity.
    + left. reflexivity.
    + exists stored, rule, payload. split; [exact Ht | exact Hj].
Defined.

(** ** Statistics *)

(** C5.  Over [N] fetched invocations of which [K] are completed, with
    durations summing to [s] (an absent duration counting as 0):
    the average duration is 0 when [K = 0] and otherwise the integer nearest
    to [s / K], a tie going up; the success rate is the number 0 when
    [N = 0] and otherwise (for fewer than 2^32 invocations) the text of a
    number of hundredths [n] nearest to [100 * K / N], between 0.00 and
    100.00: its integer part, a point, its tenths digit and its hundredths
    digit; the three counts are the sizes of the three status classes, which
    are disjoint and add up to [N] when every status is one of completed,
    failed and running.  The rate is computed on binary64 numbers: at an
    exact tie the hundredth printed is the one on the side of the computed
    number. *)
Theorem statistics_are_rounded_means (invocations : list Invocation) :
  let st := getJob.statistics invocations in
  let of_status (s : string) :=
    List.filter (fun inv => String.eqb (inv_status inv) s) invocations in
  let finished := of_status "completed" in
  let N := Z.of_nat (length invocations) in
  let K := Z.of_nat (length finished) in
  let s := foldr Z.add 0%Z ((fun inv => default 0%Z (duration inv)) <$> finished) in
  (K = 0%Z -> getJob.averageDuration st = 0%Z)
  /\ ((0 < K)%Z ->
      (2 * K * getJob.averageDuration st - K <= 2 * s
       < 2 * K * getJob.averageDuration st + K)%Z)
  /\ (N = 0%Z -> getJob.successRate st = VNum 0)
  /\ ((0 < N)%Z -> (N < 2 ^ 32)%Z ->
      exists n,
        getJob.successRate st
          = VStr (string_of_Z (n / 100) ++ "."
                  ++ string_of_Z (n mod 100 / 10) ++ string_of_Z (n mod 10))
        /\ (2 * N * n - N <= 2 * (10000 * K) <= 2 * N * n + N)%Z
        /\ (0 <= n <= 10000)%Z)
  /\ getJob.totalInvocations st = length invocations
  /\ getJob.completed st = length finished
  /\ getJob.failed st = length (of_status "failed")
  /\ getJob.running st = length (of_status "running")
  /\ (getJob.completed st + getJob.failed st + getJob.running st
      <= getJob.totalInvocations st)%nat
  /\ ((forall inv, In inv invocations ->
         In (inv_status inv) ["completed"; "failed"; "running"]) ->
      (getJob.completed st + getJob.failed st + getJob.running st
       = getJob.totalInvocations st)%nat).
Proof.
  intros st of_status finished N K s.
  change finished
    with (List.filter (getJob.has_status "completed") invocations) in *.
  set (finished' := List.filter (getJob.has_status "completed") invocations)
    in *.
  assert (HKN : (K <= N)%Z).
  { unfold K, N, finished'. apply inj_le, filter_length_le. }
  split; [|split; [|split; [|split; [|split; [|split; [|split; [|split;
    [|split]]]]]]]]; try reflexivity.
  - (* no completed invocation *)
    intros HK. unfold st, getJob.statistics. fold finished'.
    cbn [getJob.averageDuration].
    destruct (length finished'); [reflexivity | discriminate HK].
  - (* the average *)
    intros HK. unfold st, getJob.statistics. fold finished'.
    cbn [getJob.averageDuration].
    rewrite (fold_left_sum (fun inv => default 0%Z (duration inv))). fold s.
    unfold K in *. destruct (length finished') as [|k]; [lia|].
    cbn [Nat.ltb Nat.leb]. rewrite Z.add_0_l.
    change (Z.of_nat (S k)) with (Zpos (Pos.of_succ_nat k)) in *.
    rewrite Math_round_quotient.
    apply (nearest_bounds s (Zpos (Pos.of_succ_nat k))). lia.
  - (* no invocation *)
    intros HN. unfold st, getJob.statistics. cbn [getJob.successRate].
    unfold N in HN.
    destruct (length invocations); [reflexivity | discriminate HN].
  - (* the success rate *)
    intros HN Hsmall. unfold st, getJob.statistics. fold finished'.
    cbn [getJob.successRate]. fold K. fold N.
    assert (Hlen : (0 <? length invocations)%nat = true).
    { apply Nat.ltb_lt. unfold N in HN. lia. }
    rewrite Hlen. unfold getJob.toFixed2.
    assert (H0 : (0 <= K)%Z) by (unfold K; lia).
    destruct (rate_nearest K N (conj H0 HKN) HN Hsmall) as [Hn Hrange].
    cbv zeta in Hn, Hrange.
    set (n := getJob.hundredths _) in *.
    exists n. split; [|split; [exact Hn | exact Hrange]].
    rewrite (two_digits_spec (n mod 100))
      by (apply Z.mod_pos_bound; lia).
    replace (n mod 100 mod 10)%Z with (n mod 10)%Z; [reflexivity|].
    symmetry. apply Z.mod_mod_divide. exists 10%Z. reflexivity.
  - apply (proj1 (status_classes invocations)).
  - apply (proj2 (status_classes invocations)).
Qed.

Lemma statistics_are_rounded_means_witness :
  let st := getJob.statistics
              [Scenario.finished_in 100; Scenario.failed_in 7;
               Scenario.finished_in 201] in
  (2 * 2 * getJob.averageDuration st - 2 <= 2 * 301
   < 2 * 2 * getJob.averageDuration st + 2)%Z
  /\ getJob.successRate st = VStr "66.67"
  /\ (getJob.completed st + getJob.failed st + getJob.running st
      = getJob.totalInvocations st)%nat.
Proof.
  intros st.
  destruct (statistics_are_rounded_means
              [Scenario.finished_in 100; Scenario.failed_in 7;
               Scenario.finished_in 201])
    as (_ & Havg & _ & Hrate & _ & _ & _ & _ & _ & Hall).
  split; [apply Havg; reflexivity|]. split.
  - destruct Hrate as (n & Htext & Hn & _); [reflexivity | reflexivity|].
    fold st in Htext. rewrite Htext.
    assert (Hval : n = 6667%Z).
    { change (Z.of_nat (length [Scenario.finished_in 100; Scenario.failed_in 7;
                                Scenario.finished_in 201])) with 3%Z in Hn.
      change (Z.of_nat (length _)) with 2%Z in Hn. lia. }
    rewrite Hval. reflexivity.
  - apply Hall. intros inv [<- | [<- | [<- | []]]]; cbn; auto.
Defined.

(** Two completed runs of 100 ms and 201 ms and a failed one: the mean 150.5
    is rounded up to 151, and two out of three is "66.67".  One out of
    eight is "12.50".  Twenty-three out of 160 is 14.375 exactly and is
    printed "14.37": the binary64 product is just below the tie. *)
Example statistics_of_three :
  getJob.statistics
    [Scenario.finished_in 100; Scenario.failed_in 7; Scenario.finished_in 201]
  = {| getJob.totalInvocations := 3; getJob.completed := 2;
       getJob.failed := 1; getJob.running := 0;
       getJob.averageDuration := 151; getJob.successRate := VStr "66.67" |}
  /\ getJob.statistics []
     = {| getJob.totalInvocations := 0; getJob.completed := 0;
          getJob.failed := 0; getJob.running := 0;
          getJob.averageDuration := 0; getJob.successRate := VNum 0 |}
  /\ getJob.successRate (getJob.statistics [Scenario.finished_in 5])
     = VStr "100.00"
  /\ getJob.successRate
       (getJob.statistics
          (Scenario.finished_in 5 :: List.repeat (Scenario.failed_in 5) 7))
     = VStr "12.50"
  /\ getJob.successRate
       (getJob.statistics
          (List.repeat (Scenario.finished_in 5) 23
           ++ List.repeat (Scenario.failed_in 5) 137))
     = VStr "14.37".
Proof. vm_compute. repeat split; reflexivity. Qed.

(** ** The rule of a one-time job *)

(** The executor does remove the rule of a one-time job whose record holds
    the rule's name, when the services answer: the rule, its permission and
    target "1" are gone after the dispatch. *)
Lemma dispatch_removes_recorded_rule
    (env : Env) (event : jobExecutor.Event) (w : World)
    (jobId rule : string) (job : Job) :
  present (jobExecutor.ev_jobId event) = Some jobId ->
  jobs w !! jobId = Some job ->
  type job = "once" ->
  present (ruleName job) = Some rule ->
  (forall n c, fault env n c = None) ->
  exists resp w',
    jobExecutor.handler env event w = (resp, w')
    /\ rules w' !! rule = None
    /\ ~ (rule ++ "-permission") ∈ permissions w'
    /\ targets w' !! rule
       = (List.filter (fun t => negb (has_id ["1"] t)) <$> (targets w !! rule)).
Proof.
  intros Hid Hjob Hty Hrule Hok.
  unfold jobExecutor.handler, catch_all, jobExecutor.run.
  rewrite Hid.
  rewrite bind_run, ddb_get_ok by apply Hok.
  world. rewrite Hjob.
  rewrite bind_run. unfold Date_now at 1. world.
  rewrite bind_run. unfold ddb_put_invocation at 1.
  rewrite send_ok by apply Hok. world.
  rewrite bind_run. unfold Date_now at 1. world.
  rewrite bind_run. unfold ddb_put_invocation at 1.
  rewrite send_ok by apply Hok. world.
  rewrite bind_run.
  erewrite ddb_update_ok; [| apply Hok | world; exact Hjob].
  rewrite bind_run. unfold jobExecutor.cleanup. rewrite Hty, Hrule.
  cbn [String.eqb Ascii.eqb Bool.eqb andb].
  rewrite try_catch_run, bind_run. unfold eb_remove_targets.
  rewrite send_ok by apply Hok.
  rewrite bind_run. unfold eb_delete_rule. rewrite send_ok by apply Hok.
  rewrite try_catch_run. unfold lambda_remove_permission.
  rewrite send_ok by apply Hok.
  unfold mret, M_ret. world. do 2 eexists. split; [reflexivity|]. world.
  split; [apply lookup_delete_eq|]. split;
    [apply not_elem_of_difference; right; apply elem_of_singleton; reflexivity|].
  apply lookup_alter_eq.
Qed.

(** Nothing the cleanup does reaches the caller: on a store that answers, the
    response of a dispatch is fixed by the outcome of the job logic, whatever
    the rule service and the function service do. *)
Lemma dispatch_response_ignores_cleanup
    (env : Env) (event : jobExecutor.Event) (w : World)
    (jobId : string) (job : Job) :
  present (jobExecutor.ev_jobId event) = Some jobId ->
  jobs w !! jobId = Some job ->
  StoreOk env ->
  let dur := (clock env (S (S (ticks w))) - clock env (S (ticks w)))%Z in
  (jobExecutor.handler env event w).1
  = match executeJobLogic env job
            (js_or (jobExecutor.ev_payload event) (VObj [])) with
    | inl executionError =>
        {| statusCode := 500;
           body := BExecutionFailed (uuidv4 env (uuids w)) jobId dur
                     (err_message executionError) |}
    | inr result =>
        {| statusCode := 200;
           body := BExecuted (uuidv4 env (uuids w)) jobId dur result |}
    end.
Proof.
  intros Hid Hjob Hok dur.
  destruct (dispatch_found env event w jobId job Hid Hjob Hok)
    as (w' & -> & _). reflexivity.
Qed.

(** C6 fails on the jobs this repository creates.  [createJob] writes the
    record before it knows the rule and sets [ruleName] only on the copy it
    returns; the stored record has no rule name, so the executor's cleanup is
    skipped.  For every one-time job created with a 201, the rule is
    registered after the creation and a dispatch of the job, whatever its
    outcome and whatever fails, leaves the rules, the targets and the
    permissions exactly as they were: the rule is still registered. *)
Theorem created_once_job_keeps_its_rule
    (env env' : Env) (request : createJob.Event)
    (fired : jobExecutor.Event) (w : World) (job : Job) :
  (createJob.handler env request w).1 = createJob.created job ->
  type job = "once" ->
  present (jobExecutor.ev_jobId fired) = Some (jobId job) ->
  let w1 := (createJob.handler env request w).2 in
  let w2 := (jobExecutor.handler env' fired w1).2 in
  ruleName job = Some ("job-" ++ jobId job)
  /\ (exists stored, jobs w1 !! jobId job = Some stored
                     /\ ruleName stored = None)
  /\ is_Some (rules w1 !! ("job-" ++ jobId job))
  /\ rules w2 = rules w1
  /\ targets w2 = targets w1
  /\ permissions w2 = permissions w1
  /\ is_Some (rules w2 !! ("job-" ++ jobId job)).
Proof.
  intros Hresp Hty Hid w1 w2.
  destruct (creation_registered env request w job Hresp (or_introl Hty))
    as (stored & rule & payload & Hjob & Hnone & _ & Hj & Hrule).
  fold w1 in Hj, Hrule.
  assert (Hno : forall job', jobs w1 !! jobId job = Some job' ->
                             present (ruleName job') = None).
  { intros job' Hj'. rewrite Hj in Hj'. injection Hj' as <-.
    rewrite Hnone. reflexivity. }
  assert (Hrules : rules w2 = rules w1)
    by (apply (dispatch_skips_cleanup env' rules) with (jobId := jobId job);
        try reflexivity; assumption).
  split; [exact (f_equal ruleName Hjob)|].
  split; [exists stored; auto|].
  split; [rewrite Hrule; eauto|].
  split; [exact Hrules|].
  split; [apply (dispatch_skips_cleanup env' targets) with (jobId := jobId job);
          try reflexivity; assumption|].
  split; [apply (dispatch_skips_cleanup env' permissions)
            with (jobId := jobId job); try reflexivity; assumption|].
  rewrite Hrules, Hrule. eauto.
Qed.

Lemma created_once_job_keeps_its_rule_witness :
  let w1 := Scenario.once_created in
  let w2 := (jobExecutor.handler Example.env (Example.fire "uuid-0") w1).2 in
  is_Some (rules w1 !! "job-uuid-0")
  /\ rules w2 = rules w1
  /\ is_Some (rules w2 !! "job-uuid-0").
Proof.
  destruct (created_once_job_keeps_its_rule Example.env Example.env
              (Example.post Example.once_request) (Example.fire "uuid-0")
Example.empty
(createJob.with_ruleName "job-uuid-0" Scenario.once_job))
as (_ & _ & H1 & H2 & _ & _ & H3).
- vm_compute. reflexivity.
- reflexivity.
- reflexivity.
- split; [exact H1|]. split; [exact H2 | exact H3].
Defined.

(** The same on the example: the one-time job is created, fires and
    completes, and its rule, target and permission are all still there. *)
Example once_job_completes_and_rule_stays :
  let w1 := Scenario.once_created in
  let r := jobExecutor.handler Example.env (Example.fire "uuid-0") w1 in
  statusCode r.1 = 200%Z
  /\ (status <$> (jobs r.2 !! "uuid-0")) = Some "completed"
  /\ (ScheduleExpression <$> (rules r.2 !! "job-uuid-0"))
     = Some (VStr "at(2030-01-01T00:00:00)")
  /\ (length <$> (targets r.2 !! "job-uuid-0")) = Some 1%nat
  /\ "job-uuid-0-permission" ∈ permissions r.2
  /\ List.filter rule_call (trace r.2) = List.filter rule_call (trace w1).
Proof.
  vm_compute. repeat split; reflexivity.
Qed.

(** * More about the handlers *)

(** ** Composition, again *)

Section MoreComposition.
Context (env : Env).

Lemma returns_ret {A} (P : A -> Prop) (a : A) : P a -> returns P (mret a : M A).
Proof. intros H w a' w' [= <- _]. exact H. Qed.

Lemma returns_throw {A} (P : A -> Prop) (e : Error) : returns P (throw e : M A).
Proof. intros w a w' [=]. Qed.

Lemma returns_bind {A B} (P : B -> Prop) (m : M A) (k : A -> M B) :
  (forall a, returns P (k a)) -> returns P (m ≫= k).
Proof.
  intros Hk w b w'. rewrite bind_run.
  destruct (m w) as [[e|a] w1]; [discriminate|]. apply Hk.
Qed.

Lemma preserves_ret {A} (I : World -> Prop) (a : A) : preserves I (mret a : M A).
Proof. intros w H. exact H. Qed.

Lemma preserves_throw {A} (I : World -> Prop) (e : Error) :
  preserves I (throw e : M A).
Proof. intros w H. exact H. Qed.

Lemma preserves_bind {A B} (I : World -> Prop) (m : M A) (k : A -> M B) :
  preserves I m -> (forall a, preserves I (k a)) -> preserves I (m ≫= k).
Proof.
  intros Hm Hk w H. rewrite bind_run. specialize (Hm w H).
  destruct (m w) as [[e|a] w1]; [exact Hm|]. apply Hk. exact Hm.
Qed.

Lemma preserves_try_catch {A} (I : World -> Prop) (m : M A) (h : Error -> M A) :
  preserves I m -> (forall e, preserves I (h e)) -> preserves I (try_catch m h).
Proof.
  intros Hm Hh w H. rewrite try_catch_run. specialize (Hm w H).
  destruct (m w) as [[e|a] w1]; [|exact Hm]. apply Hh. exact Hm.
Qed.

Lemma preserves_send (I : World -> Prop) (c : Call) (effect : World -> World) :
  (forall w, I w -> I (log c w)) ->
  (forall w, I w -> I (effect w)) ->
  preserves I (send env c effect).
Proof.
  intros Hl He w H. unfold send.
  destruct (fault env _ c); cbn [snd]; auto.
Qed.

Lemma preserves_Date_now (I : World -> Prop) :
  (forall w, I w -> I (tick w)) -> preserves I (Date_now env).
Proof. intros Ht w H. apply Ht, H. Qed.

End MoreComposition.

(** ** Every way a dispatch can go *)

Section ExecutorCases.
Context (env : Env).

Lemma known_running i j t s p : known_status (jobExecutor.running i j t s p).
Proof. right. right. left. reflexivity. Qed.

Lemma known_finalize inv o t d : known_status (jobExecutor.finalize inv o t d).
Proof. destruct o; [right; left | left]; reflexivity. Qed.

Lemma ledger_ok_insert w k inv g :
  ledger_ok w -> known_status inv ->
  (forall w0, invocations (g w0) = invocations w0) ->
  ledger_ok (set_invocations <[k := inv]> (g w)).
Proof.
  intros Hw Hinv Hg k' inv'. cbn [invocations set_invocations]. rewrite Hg.
  destruct (decide (k = k')) as [<-|Hne].
  - rewrite lookup_insert_eq. intros [= <-]. exact Hinv.
  - rewrite lookup_insert_ne by exact Hne. apply Hw.
Qed.

(** The handler's [catch]: the answer is 500 with the message of what was
    thrown; only the record of this invocation can have been written. *)
Lemma critical_world event i t e w :
  exists w',
    jobExecutor.critical env event i t e w =
      ({| statusCode := 500; body := BCritical (err_message e) i |}, w')
    /\ jobs w' = jobs w
    /\ rules w' = rules w
    /\ targets w' = targets w
    /\ permissions w' = permissions w
    /\ (forall k, k <> i -> invocations w' !! k = invocations w !! k)
    /\ (ledger_ok w -> ledger_ok w').
Proof.
  unfold jobExecutor.critical.
  match goal with
  | |- context [try_catch ?m ?h w] => destruct (try_catch m h w) as [r w'] eqn:Hrec
  end.
  exists w'. split; [reflexivity|].
  rewrite try_catch_run, bind_run in Hrec. unfold Date_now at 1 in Hrec.
  cbv beta iota in Hrec. rewrite bind_run in Hrec.
  unfold Date_now at 1 in Hrec. cbv beta iota in Hrec.
  unfold ddb_put_invocation, send in Hrec.
  destruct (fault env _ _); injection Hrec as _ <-; world.
  - repeat split; auto.
  - split; [reflexivity|]. split; [reflexivity|]. split; [reflexivity|].
    split; [reflexivity|]. split.
    + intros k Hk. apply lookup_insert_ne. congruence.
    + intros Hw k inv. cbn [invocations set_invocations log tick].
      destruct (decide (i = k)) as [<-|Hne].
      * rewrite lookup_insert_eq. intros [= <-]. right. left. reflexivity.
      * rewrite lookup_insert_ne by exact Hne. apply Hw.
Qed.

(** A dispatch goes one of four ways: the event names no job; the job is not
    in the store; some command of the store fails and the [catch] answers;
    or the bookkeeping goes through. *)
Lemma dispatch_outcomes event w :
  let i := uuidv4 env (uuids w) in
  let t := clock env (ticks w) in
  let s := clock env (S (ticks w)) in
  let e := clock env (S (S (ticks w))) in
  let payload := js_or (jobExecutor.ev_payload event) (VObj []) in
  exists resp w',
    jobExecutor.handler env event w = (resp, w')
    /\ ((present (jobExecutor.ev_jobId event) = None
         /\ resp = {| statusCode := 400;
                      body := BError "Invalid event format - jobId required" |}
         /\ services w' = services w)
        \/ (exists jobId,
              present (jobExecutor.ev_jobId event) = Some jobId
              /\ jobs w !! jobId = None
              /\ resp = {| statusCode := 404; body := BError "Job not found" |}
              /\ w' = log (GetCommand jobId) (tick (draw w)))
        \/ (exists err,
              resp = {| statusCode := 500;
                        body := BCritical (err_message err) i |}
              /\ jobs w' = jobs w
              /\ rules w' = rules w
              /\ targets w' = targets w
              /\ permissions w' = permissions w
              /\ (forall k, k <> i -> invocations w' !! k = invocations w !! k)
              /\ (ledger_ok w -> ledger_ok w'))
        \/ (exists jobId job,
              present (jobExecutor.ev_jobId event) = Some jobId
              /\ jobs w !! jobId = Some job
              /\ resp = match executeJobLogic env job payload with
                        | inl executionError =>
                            {| statusCode := 500;
                               body := BExecutionFailed i jobId (e - s)
                                         (err_message executionError) |}
                        | inr result =>
                            {| statusCode := 200;
                               body := BExecuted i jobId (e - s) result |}
                        end
              /\ jobs w' =
                   <[jobId := apply_update t
                                (jobExecutor.newStatus job
                                   (executeJobLogic env job payload)) job]>
                     (jobs w)
              /\ invocations w' =
                   <[i := jobExecutor.finalize
                            (jobExecutor.running i jobId t s payload)
                            (executeJobLogic env job payload) e (e - s)]>
                     (invocations w)
              /\ exists w1,
                   rules w1 = rules w /\ targets w1 = targets w
                   /\ permissions w1 = permissions w
                   /\ jobExecutor.cleanup env job w1 = (inr tt, w'))).
Proof.
  cbv zeta.
  destruct (jobExecutor.handler env event w) as [resp w'] eqn:H.
  exists resp, w'. split; [reflexivity|].
  unfold jobExecutor.handler, catch_all, jobExecutor.run in H.
  assert (Hcrit : forall err W,
    jobExecutor.critical env event (uuidv4 env (uuids w)) (clock env (ticks w))
      err W = (resp, w') ->
    jobs W = jobs w -> rules W = rules w -> targets W = targets w ->
    permissions W = permissions w ->
    (forall k, k <> uuidv4 env (uuids w) ->
               invocations W !! k = invocations w !! k) ->
    (ledger_ok w -> ledger_ok W) ->
    exists err,
      resp = {| statusCode := 500;
                body := BCritical (err_message err) (uuidv4 env (uuids w)) |}
      /\ jobs w' = jobs w /\ rules w' = rules w /\ targets w' = targets w
      /\ permissions w' = permissions w
      /\ (forall k, k <> uuidv4 env (uuids w) ->
                    invocations w' !! k = invocations w !! k)
      /\ (ledger_ok w -> ledger_ok w')).
  { intros err W Hc Hj Hr Ht Hp Hi Hl.
    destruct (critical_world event (uuidv4 env (uuids w)) (clock env (ticks w))
                err W) as (w2 & Hc2 & Hj2 & Hr2 & Ht2 & Hp2 & Hi2 & Hl2).
    rewrite Hc2 in Hc. injection Hc as <- <-. exists err.
    split; [reflexivity|]. split; [congruence|]. split; [congruence|].
    split; [congruence|]. split; [congruence|]. split.
    - intros k Hk. rewrite Hi2 by exact Hk. apply Hi. exact Hk.
    - intros Hw. apply Hl2, Hl, Hw. }
  destruct (present (jobExecutor.ev_jobId event)) as [jobId|] eqn:Hid.
  2: { injection H as <- <-. left. repeat split; reflexivity. }
  right.
  rewrite bind_run in H. unfold ddb_get in H. rewrite bind_run in H.
  unfold send at 1 in H.
  destruct (fault env _ (GetCommand jobId)); cbv beta iota in H.
  { right. left. eapply Hcrit; [exact H|..]; try reflexivity.
    intros Hw. exact Hw. }
  unfold gets, id in H. cbv beta iota in H.
  change (jobs (log (GetCommand jobId) (tick (draw w)))) with (jobs w) in H.
  destruct (jobs w !! jobId) as [job|] eqn:Hjob.
  2: { injection H as <- <-. left. exists jobId.
       split; [reflexivity|]. split; [exact Hjob|]. split; reflexivity. }
  right.
  rewrite bind_run in H. unfold Date_now at 1 in H. cbv beta iota in H.
  rewrite bind_run in H. unfold ddb_put_invocation at 1 in H.
  unfold send at 1 in H.
  destruct (fault env _ (PutInvocation _)); cbv beta iota in H.
  { left. eapply Hcrit; [exact H|..]; try reflexivity.
    intros Hw. exact Hw. }
  rewrite bind_run in H. unfold Date_now at 1 in H. cbv beta iota in H.
  rewrite bind_run in H. unfold ddb_put_invocation at 1 in H.
  unfold send at 1 in H. world.
  destruct (fault env _ (PutInvocation _)); cbv beta iota in H.
  { left. eapply Hcrit; [exact H|..]; try reflexivity.
    - intros k Hk. world. cbn [invocationId jobExecutor.running].
      apply lookup_insert_ne. congruence.
    - intros Hw k inv. world. cbn [invocationId jobExecutor.running].
      destruct (decide (uuidv4 env (uuids w) = k)) as [<-|Hne].
      + rewrite lookup_insert_eq. intros [= <-]. apply known_running.
      + rewrite lookup_insert_ne by exact Hne. apply Hw. }
  rewrite bind_run in H. unfold ddb_update in H. world.
  destruct (fault env _ (UpdateCommand _ _ _)); cbv beta iota in H.
  { left. eapply Hcrit; [exact H|..]; try reflexivity.
    - intros k Hk. world. rewrite finalize_id.
      cbn [invocationId jobExecutor.running].
      rewrite !lookup_insert_ne by congruence. reflexivity.
    - intros Hw k inv. world. rewrite finalize_id.
      cbn [invocationId jobExecutor.running].
      destruct (decide (uuidv4 env (uuids w) = k)) as [<-|Hne].
      + rewrite lookup_insert_eq. intros [= <-]. apply known_finalize.
      + rewrite !lookup_insert_ne by exact Hne. apply Hw. }
  rewrite Hjob in H. cbv beta iota in H. rewrite bind_run in H.
  match type of H with
  | context [jobExecutor.cleanup env job ?w1] =>
      destruct (cleanup_returns env job w1) as (w2 & Hcl & Hj & Hi);
      rewrite Hcl in H
  end.
  injection H as <- <-. right. exists jobId, job.
  split; [reflexivity|]. split; [exact Hjob|]. split; [reflexivity|].
  split; [exact Hj|]. split.
  - rewrite Hi. world. rewrite finalize_id.
    cbn [invocationId jobExecutor.running]. apply insert_insert_eq.
  - eexists. split; [|split; [|split; [|exact Hcl]]]; reflexivity.
Qed.

End ExecutorCases.

(** ** What a dispatch keeps, whatever fails *)

(** A dispatch never creates or removes a job, and of a job it changes only
    the status, the two time stamps and the invocation count, the latter by
    at most one: identifier, name, type, schedule, payload, creation time and
    rule name are kept.  This holds for every event and whatever fails. *)
Theorem dispatch_keeps_job_identity
    (env : Env) (event : jobExecutor.Event) (w : World) (k : string) :
  let w' := (jobExecutor.handler env event w).2 in
  match jobs w !! k with
  | None => jobs w' !! k = None
  | Some job =>
      exists job',
        jobs w' !! k = Some job'
        /\ jobId job' = jobId job /\ name job' = name job
        /\ description job' = description job /\ type job' = type job
        /\ scheduleExpression job' = scheduleExpression job
        /\ executeAt job' = executeAt job /\ payload job' = payload job
        /\ createdAt job' = createdAt job /\ ruleName job' = ruleName job
        /\ (invocationCount job <= invocationCount job'
            <= invocationCount job + 1)%Z
  end.
Proof.
  cbv zeta.
  destruct (dispatch_outcomes env event w)
    as (resp & w' & -> & [(_ & _ & Hs) | [(id0 & _ & _ & _ & ->)
       | [(err & _ & Hj & _) | (id0 & job & _ & Hjob & _ & Hj & _)]]]);
    cbn [snd].
  - assert (Hj : jobs w' = jobs w) by (unfold services in Hs; congruence).
    rewrite Hj. destruct (jobs w !! k) as [job|]; [|reflexivity].
    exists job. repeat split; lia.
  - cbn [jobs log tick draw].
    destruct (jobs w !! k) as [job|]; [|reflexivity].
    exists job. repeat split; lia.
  - rewrite Hj. destruct (jobs w !! k) as [job|]; [|reflexivity].
    exists job. repeat split; lia.
  - rewrite Hj. destruct (decide (id0 = k)) as [<-|Hne].
    + rewrite Hjob, lookup_insert_eq. eexists. split; [reflexivity|].
      cbn [apply_update jobId name description type scheduleExpression
             executeAt payload createdAt ruleName invocationCount].
      repeat split; lia.
    + rewrite lookup_insert_ne by exact Hne.
      destruct (jobs w !! k) as [job0|]; [|reflexivity].
      exists job0. repeat split; lia.
Qed.

(** Every invocation record a dispatch leaves has one of the three statuses,
    and the only record a dispatch can write is the one under the identifier
    it drew: whatever fails, the other records are as they were. *)
Theorem dispatch_keeps_ledger
    (env : Env) (event : jobExecutor.Event) (w : World) :
  let w' := (jobExecutor.handler env event w).2 in
  (ledger_ok w -> ledger_ok w')
  /\ (forall k, k <> uuidv4 env (uuids w) ->
                invocations w' !! k = invocations w !! k).
Proof.
  cbv zeta.
  destruct (dispatch_outcomes env event w)
    as (resp & w' & -> & [(_ & _ & Hs) | [(jobId & _ & _ & _ & ->)
       | [(err & _ & _ & _ & _ & _ & Hi & Hl)
         | (jobId & job & _ & _ & _ & _ & Hi & _)]]]);
    cbn [snd].
  - assert (Hi : invocations w' = invocations w)
      by (unfold services in Hs; congruence).
    unfold ledger_ok. rewrite Hi. auto.
  - split; [intros Hw; exact Hw | reflexivity].
  - auto.
  - unfold ledger_ok. rewrite Hi. split.
    + intros Hw k inv.
      destruct (decide (uuidv4 env (uuids w) = k)) as [<-|Hne].
      * rewrite lookup_insert_eq. intros [= <-]. apply known_finalize.
      * rewrite lookup_insert_ne by exact Hne. apply Hw.
    + intros k Hk. apply lookup_insert_ne. congruence.
Qed.

Lemma dispatch_keeps_ledger_witness :
  ledger_ok
    (jobExecutor.handler Example.env (Example.fire "uuid-0")
       Scenario.once_created).2.
Proof.
  apply (dispatch_keeps_ledger Example.env (Example.fire "uuid-0")
           Scenario.once_created).
  intros k inv. vm_compute. discriminate.
Defined.

(** ** What the answer of a dispatch tells *)

(** An answer "Job executed successfully" (200) or "Job execution failed"
    with an invocation identifier and a duration (500) is given only after the
    bookkeeping went through: the job was in the store, the job logic
    returned that result (or threw that message), the invocation is recorded
    as completed (or failed) with that duration, which is its [completedAt]
    minus its [startedAt], and the job's invocation count has grown by one.
    No assumption is made on what fails. *)
Theorem dispatch_answer_means_recorded
    (env : Env) (event : jobExecutor.Event) (w : World)
    (inv job_id : string) (dur : Z) :
  let r := jobExecutor.handler env event w in
  let payload := js_or (jobExecutor.ev_payload event) (VObj []) in
  (forall result,
     r.1 = {| statusCode := 200; body := BExecuted inv job_id dur result |} ->
     exists job job' record started finished,
       jobs w !! job_id = Some job
       /\ executeJobLogic env job payload = inr result
       /\ jobs r.2 !! job_id = Some job'
       /\ invocationCount job' = (invocationCount job + 1)%Z
       /\ invocations r.2 !! inv = Some record
       /\ inv_status record = "completed"
       /\ output record = Some result
       /\ input record = payload
       /\ inv_jobId record = job_id
       /\ startedAt record = started
       /\ completedAt record = Some finished
       /\ duration record = Some dur
       /\ dur = (finished - started)%Z)
  /\ (forall msg,
        r.1 = {| statusCode := 500;
                 body := BExecutionFailed inv job_id dur msg |} ->
        exists job job' record thrown,
          jobs w !! job_id = Some job
          /\ executeJobLogic env job payload = inl thrown
          /\ err_message thrown = msg
          /\ jobs r.2 !! job_id = Some job'
          /\ invocationCount job' = (invocationCount job + 1)%Z
          /\ invocations r.2 !! inv = Some record
          /\ inv_status record = "failed"
          /\ error record = Some msg
          /\ output record = None
          /\ duration record = Some dur).
Proof.
  cbv zeta.
  destruct (dispatch_outcomes env event w)
    as (resp & w' & -> & [(_ & -> & _) | [(id0 & _ & _ & -> & _)
       | [(err & -> & _) | (id0 & job & _ & Hjob & -> & Hj & Hi & _)]]]);
    cbn [fst snd]; try (split; intros ? ?; discriminate).
  destruct (executeJobLogic env job _) as [thrown|res] eqn:Hout; split.
  - intros x Heq. discriminate Heq.
  - intros msg Heq. injection Heq as <- <- <- <-.
    exists job. eexists. eexists. exists thrown.
    rewrite Hj, Hi, !lookup_insert_eq.
    repeat split; try reflexivity; assumption.
  - intros res' Heq. injection Heq as <- <- <- <-.
    exists job. do 4 eexists.
    rewrite Hj, Hi, !lookup_insert_eq.
    repeat split; try reflexivity; assumption.
  - intros x Heq. discriminate Heq.
Qed.

Lemma dispatch_answer_means_recorded_witness :
  exists job' record,
    jobs (jobExecutor.handler Example.env (Example.fire "uuid-0")
            Scenario.once_created).2 !! "uuid-0" = Some job'
    /\ invocationCount job' = 1%Z
    /\ invocations (jobExecutor.handler Example.env (Example.fire "uuid-0")
            Scenario.once_created).2 !! "uuid-1" = Some record
    /\ inv_status record = "completed"
    /\ duration record = Some 250%Z.
Proof.
  destruct (dispatch_answer_means_recorded Example.env (Example.fire "uuid-0")
              Scenario.once_created "uuid-1" "uuid-0" 250) as [Hok _].
  destruct (Hok (VObj [("message", VStr "Job completed successfully")]))
    as (job & job' & record & started & finished & Hjob & _ & Hj' & Hc & Hr
        & Hs & _ & _ & _ & _ & _ & Hd & _).
  - vm_compute. reflexivity.
  - exists job', record. rewrite Hjob in *.
    assert (Hjob0 : jobs Scenario.once_created !! "uuid-0"
                    = Some Scenario.once_job) by (vm_compute; reflexivity).
    rewrite Hjob0 in Hjob. injection Hjob as <-.
    repeat split; assumption.
Defined.

(** An answer 500 from the handler's [catch] (a command of the store failed)
    means that no job was changed and that nothing was asked of the rule
    service: rules, targets and permissions are as they were. *)
Theorem dispatch_critical_answer_means_untouched
    (env : Env) (event : jobExecutor.Event) (w : World)
    (details inv : string) :
  let r := jobExecutor.handler env event w in
  r.1 = {| statusCode := 500; body := BCritical details inv |} ->
  jobs r.2 = jobs w
  /\ rules r.2 = rules w
  /\ targets r.2 = targets w
  /\ permissions r.2 = permissions w.
Proof.
  cbv zeta.
  destruct (dispatch_outcomes env event w)
    as (resp & w' & -> & [(_ & -> & _) | [(id0 & _ & _ & -> & _)
       | [(err & -> & Hj & Hr & Ht & Hp & _) | (id0 & job & _ & _ & -> & _)]]]);
    cbn [fst snd]; try discriminate.
  - auto.
  - destruct (executeJobLogic env job _); discriminate.
Qed.

Lemma dispatch_critical_answer_means_untouched_witness :
  jobs (jobExecutor.handler Scenario2.env_updates_rejected
          (Example.fire "uuid-0") Scenario.once_created).2
  = jobs Scenario.once_created.
Proof.
  apply (dispatch_critical_answer_means_untouched
           Scenario2.env_updates_rejected (Example.fire "uuid-0")
           Scenario.once_created "unavailable" "uuid-1").
  vm_compute. reflexivity.
Defined.

(** ** When the update of the job fails *)

(** If the store accepts the invocation records and rejects the update of the
    job, the [catch] writes a failed record under the same invocation
    identifier: the invocation ends up "failed" with the store's message and
    without output, even when the job logic had returned, and the job keeps
    its status and its count. *)
Theorem update_failure_rewrites_invocation
    (env : Env) (event : jobExecutor.Event) (w : World)
    (jobId : string) (job : Job) (err : Error) :
  present (jobExecutor.ev_jobId event) = Some jobId ->
  jobs w !! jobId = Some job ->
  (forall n c, fault env n c = match c with
                               | UpdateCommand _ _ _ => Some err
                               | _ => None
                               end) ->
  exists w' record,
    jobExecutor.handler env event w =
      ({| statusCode := 500;
          body := BCritical (err_message err) (uuidv4 env (uuids w)) |}, w')
    /\ jobs w' = jobs w
    /\ invocations w' !! uuidv4 env (uuids w) = Some record
    /\ inv_status record = "failed"
    /\ error record = Some (err_message err)
    /\ output record = None
    /\ inv_jobId record = jobId.
Proof.
  intros Hid Hjob Hf.
  unfold jobExecutor.handler, catch_all, jobExecutor.run. rewrite Hid.
  rewrite bind_run, ddb_get_ok by (rewrite Hf; reflexivity).
  world. rewrite Hjob.
  rewrite bind_run. unfold Date_now at 1. world.
  rewrite bind_run. unfold ddb_put_invocation at 1.
  rewrite send_ok by (rewrite Hf; reflexivity). world.
  rewrite bind_run. unfold Date_now at 1. world.
  rewrite bind_run. unfold ddb_put_invocation at 1.
  rewrite send_ok by (rewrite Hf; reflexivity). world.
  rewrite bind_run. unfold ddb_update. rewrite Hf.
  unfold jobExecutor.critical.
  rewrite try_catch_run, bind_run. unfold Date_now at 1. cbv beta iota.
  rewrite bind_run. unfold Date_now at 1. cbv beta iota.
  unfold ddb_put_invocation. rewrite send_ok by (rewrite Hf; reflexivity).
  do 2 eexists. split; [reflexivity|]. world.
  split; [reflexivity|]. rewrite lookup_insert_eq.
  split; [reflexivity|]. rewrite Hid. repeat split; reflexivity.
Qed.

Lemma update_failure_rewrites_invocation_witness :
  exists w' record,
    jobExecutor.handler Scenario2.env_updates_rejected (Example.fire "uuid-0")
      Scenario.once_created =
      ({| statusCode := 500; body := BCritical "unavailable" "uuid-1" |}, w')
    /\ (status <$> (jobs w' !! "uuid-0")) = Some "scheduled"
    /\ invocations w' !! "uuid-1" = Some record
    /\ inv_status record = "failed".
Proof.
  destruct (update_failure_rewrites_invocation Scenario2.env_updates_rejected
              (Example.fire "uuid-0") Scenario.once_created "uuid-0"
              Scenario.once_job Example.unavailable)
    as (w' & record & Hr & Hj & Hi & Hs & _).
  - reflexivity.
  - vm_compute. reflexivity.
  - intros n c. reflexivity.
  - exists w', record. split; [exact Hr|]. rewrite Hj.
    split; [vm_compute; reflexivity|]. split; [exact Hi | exact Hs].
Defined.

(** ** Firing again and again *)

Section Repeated.
Context (env : Env).


End Repeated.


(** ** The rule service, seen from the executor *)

(** The dispatch of a job that is not of type once asks nothing of the rule
    service, even when its record holds a rule name: rules, targets and
    permissions are as they were, whatever fails.  The rule of a cron job
    outlives every firing. *)
Theorem dispatch_keeps_rules_of_recurring_jobs
    (env : Env) (event : jobExecutor.Event) (w : World) :
  (forall jobId job,
     present (jobExecutor.ev_jobId event) = Some jobId ->
     jobs w !! jobId = Some job -> type job <> "once") ->
  let w' := (jobExecutor.handler env event w).2 in
  rules w' = rules w /\ targets w' = targets w
  /\ permissions w' = permissions w.
Proof.
  intros Hty. cbv zeta.
  destruct (dispatch_outcomes env event w)
    as (resp & w' & -> & [(_ & _ & Hs) | [(id0 & _ & _ & _ & ->)
       | [(err & _ & _ & Hr & Ht & Hp & _)
         | (id0 & job & Hid & Hjob & _ & _ & _ & w1 & Hr & Ht & Hp & Hcl)]]]);
    cbn [snd].
  - unfold services in Hs. repeat split; congruence.
  - repeat split; reflexivity.
  - auto.
  - specialize (Hty id0 job Hid Hjob).
    unfold jobExecutor.cleanup in Hcl.
    apply String.eqb_neq in Hty. rewrite Hty in Hcl.
    injection Hcl as <-. auto.
Qed.

Lemma dispatch_keeps_rules_of_recurring_jobs_witness :
  let w' := (jobExecutor.handler Example.env (Example.fire "uuid-0")
               Scenario2.cron_recorded).2 in
  rules w' = rules Scenario2.cron_recorded
  /\ is_Some (rules w' !! "job-uuid-0").
Proof.
  destruct (dispatch_keeps_rules_of_recurring_jobs Example.env
              (Example.fire "uuid-0") Scenario2.cron_recorded)
    as (Hr & _).
  - intros jobId job [= <-] Hjob.
    assert (H : jobs Scenario2.cron_recorded !! "uuid-0"
                = Some (createJob.with_ruleName "job-uuid-0" Scenario.cron_job))
      by (vm_compute; reflexivity).
    rewrite H in Hjob. injection Hjob as <-. discriminate.
  - split; [exact Hr|]. rewrite Hr. vm_compute. eauto.
Defined.

(** With the rule name in the record and services that answer, the rule of
    the one-time job is gone after its dispatch. *)
Lemma dispatch_removes_recorded_rule_witness :
  exists resp w',
    jobExecutor.handler Example.env (Example.fire "uuid-0")
      Scenario2.once_recorded = (resp, w')
    /\ rules w' !! "job-uuid-0" = None
    /\ ~ "job-uuid-0-permission" ∈ permissions w'.
Proof.
  destruct (dispatch_removes_recorded_rule Example.env (Example.fire "uuid-0")
              Scenario2.once_recorded "uuid-0" "job-uuid-0"
              (createJob.with_ruleName "job-uuid-0" Scenario.once_job))
    as (resp & w' & Hr & Hrule & Hperm & _).
  - reflexivity.
  - vm_compute. reflexivity.
  - reflexivity.
  - reflexivity.
  - intros n c. reflexivity.
  - exists resp, w'. auto.
Defined.

(** With a rule service that is down, the dispatch of the one-time job whose
    record holds the rule name still answers 200. *)
Lemma dispatch_response_ignores_cleanup_witness :
  statusCode
    (jobExecutor.handler Example.env_rules_down (Example.fire "uuid-0")
       Scenario2.once_recorded).1 = 200%Z
  /\ is_Some
       (rules (jobExecutor.handler Example.env_rules_down
                 (Example.fire "uuid-0") Scenario2.once_recorded).2
          !! "job-uuid-0").
Proof.
  split.
  - rewrite (dispatch_response_ignores_cleanup Example.env_rules_down
               (Example.fire "uuid-0") Scenario2.once_recorded "uuid-0"
               (createJob.with_ruleName "job-uuid-0" Scenario.once_job)).
    + reflexivity.
    + reflexivity.
    + vm_compute. reflexivity.
    + intros n c H. destruct c; try discriminate H; reflexivity.
  - vm_compute. eauto.
Defined.

(** ** What the answer of a creation tells *)

Section CreationAnswers.
Context (env : Env).

(** What [schedule] returns is the record it was given, with the rule name
    added for a scheduled job. *)
Lemma schedule_returns job se ea p :
  returns
    (fun resp =>
       exists job',
         resp = createJob.created job'
         /\ jobId job' = jobId job /\ name job' = name job
         /\ type job' = type job
         /\ invocationCount job' = invocationCount job
         /\ createdAt job' = createdAt job /\ updatedAt job' = updatedAt job
         /\ (status job' = status job
             \/ (type job = "immediate" /\ status job' = "executing")))
    (createJob.schedule env job se ea p).
Proof.
  unfold createJob.schedule, createJob.register.
  destruct (type job =? "immediate") eqn:Hi.
  - apply String.eqb_eq in Hi. apply returns_bind. intros _.
    apply returns_ret. eexists. split; [reflexivity|]. cbn. auto 10.
  - destruct (type job =? "once");
      [destruct (Date_time env ea); [|apply returns_throw]|
       destruct (type job =? "cron")];
      repeat (apply returns_bind; intros ?); try apply returns_ret;
      eexists; (split; [reflexivity|]); cbn; auto 10.
Qed.

Lemma creation_stored event w job :
  (createJob.handler env event w).1 = createJob.created job ->
  exists stored,
    jobs (createJob.handler env event w).2 !! jobId job = Some stored
    /\ jobId stored = jobId job /\ name stored = name job
    /\ type stored = type job /\ status stored = status job
    /\ In (type stored) createJob.jobTypes
    /\ status stored = (if type stored =? "immediate"
                        then "executing" else "scheduled")
    /\ invocationCount stored = 0%Z
    /\ createdAt stored = updatedAt stored
    /\ lastExecutedAt stored = None
    /\ ruleName stored = None.
Proof.
  unfold createJob.handler, catch_all.
  destruct (run_cases env event w)
    as [(e & Hr & _) | [(msg & w' & Hr & Hs)
                       | (body & ty & w0 & Hp & Hty & Hr & Hs & Hv)]].
  - rewrite Hr. cbn [fst]. discriminate.
  - rewrite Hr. cbn [fst]. discriminate.
  - rewrite Hr.
    destruct (createJob.create env _ _ _ _ _ _ w0) as [[e|resp] w'] eqn:Hcr;
      cbn [fst snd]; [discriminate|].
    intros ->. apply create_returns in Hcr. cbv zeta in Hcr.
    set (stored := createJob.new_job _ _ _ _ _ _ _ _) in Hcr.
    destruct (schedule_returns stored _ _ _ _ _ _ Hcr)
      as (job' & Heq & Hid & Hn & Ht & Hc & Hca & Hua & Hst).
    injection Heq as <-.
    match type of Hcr with
    | createJob.schedule env stored ?se ?ea ?p ?w1 = _ =>
        pose proof (schedule_jobs env stored se ea p w1) as Hj
    end.
    rewrite Hcr in Hj. cbn [snd] in Hj.
    exists stored. rewrite Hj, <- Hid. world.
    split; [apply lookup_insert_eq|]. destruct Hv as (Hin & _).
    split; [reflexivity|]. split; [congruence|]. split; [congruence|].
    split.
    { destruct Hst as [Hst | (Himm & Hst)]; [congruence|].
      rewrite Hst. cbn [status stored createJob.new_job type] in *.
      rewrite Himm. reflexivity. }
    repeat split; try reflexivity. exact Hin.
Qed.

End CreationAnswers.

(** A creation answers 201 only once the record is in the store, under the
    identifier the answer gives, with the name and the type of the request,
    the status "executing" for an immediate job and "scheduled" otherwise, no
    invocation counted, equal creation and update times and no rule name. *)
Theorem created_answer_means_stored
    (env : Env) (event : createJob.Event) (w : World) :
  let r := createJob.handler env event w in
  statusCode r.1 = 201%Z ->
  exists job stored,
    body r.1 = BCreated job
    /\ jobs r.2 !! jobId job = Some stored
    /\ jobId stored = jobId job /\ name stored = name job
    /\ type stored = type job /\ status stored = status job
    /\ In (type stored) createJob.jobTypes
    /\ status stored = (if type stored =? "immediate"
                        then "executing" else "scheduled")
    /\ invocationCount stored = 0%Z
    /\ createdAt stored = updatedAt stored
    /\ lastExecutedAt stored = None
    /\ ruleName stored = None.
Proof.
  cbv zeta. intros Hcode.
  assert (Hcreated : exists job,
             (createJob.handler env event w).1 = createJob.created job).
  { unfold createJob.handler, catch_all in *.
    destruct (run_cases env event w)
      as [(e & Hr & _) | [(msg & w' & Hr & Hs)
                         | (body & ty & w0 & Hp & Hty & Hr & Hs & Hv)]].
    - rewrite Hr in Hcode. discriminate Hcode.
    - rewrite Hr in Hcode. discriminate Hcode.
    - rewrite Hr in Hcode |- *.
      destruct (createJob.create env _ _ _ _ _ _ w0) as [[e|resp] w'] eqn:Hcr;
        [discriminate Hcode|].
      apply create_returns in Hcr. cbv zeta in Hcr.
      destruct (schedule_returns env _ _ _ _ _ _ _ Hcr) as (job' & -> & _).
      exists job'. reflexivity. }
  destruct Hcreated as (job & Hjob).
  destruct (creation_stored env event w job Hjob) as (stored & H).
  exists job, stored. split; [rewrite Hjob; reflexivity | exact H].
Qed.

Lemma created_answer_means_stored_witness :
  exists job stored,
    body (createJob.handler Example.env (Example.post Example.cron_request)
            Example.empty).1 = BCreated job
    /\ jobs Scenario.cron_created !! jobId job = Some stored
    /\ status stored = "scheduled"
    /\ invocationCount stored = 0%Z.
Proof.
  destruct (created_answer_means_stored Example.env
              (Example.post Example.cron_request) Example.empty)
    as (job & stored & Hb & Hj & _ & _ & Hty & _ & _ & Hst & Hc & _).
  - vm_compute. reflexivity.
  - exists job, stored. split; [exact Hb|]. split; [exact Hj|].
    split; [|exact Hc].
    assert (Hjob : job = createJob.with_ruleName "job-uuid-0" Scenario.cron_job).
    { vm_compute in Hb. injection Hb as <-. reflexivity. }
    rewrite Hst, Hty, Hjob. reflexivity.
Defined.

(** A creation that answers 400 has sent nothing: the services are as they
    were.  Every answer is 201, 400 or 500. *)
Theorem rejected_answer_means_nothing_sent
    (env : Env) (event : createJob.Event) (w : World) :
  let r := createJob.handler env event w in
  (statusCode r.1 = 400%Z -> services r.2 = services w)
  /\ (statusCode r.1 = 201%Z \/ statusCode r.1 = 400%Z
      \/ statusCode r.1 = 500%Z).
Proof.
  cbv zeta. unfold createJob.handler, catch_all.
  destruct (run_cases env event w)
    as [(e & Hr & _) | [(msg & w' & Hr & Hs)
                       | (body & ty & w0 & Hp & Hty & Hr & Hs & Hv)]];
    rewrite Hr.
  - cbn. split; [discriminate | auto].
  - cbn. split; [intros _; exact Hs | auto].
  - destruct (createJob.create env _ _ _ _ _ _ w0) as [[e|resp] w'] eqn:Hcr.
    + cbn. split; [discriminate | auto].
    + apply create_returns in Hcr. cbv zeta in Hcr.
      destruct (schedule_returns env _ _ _ _ _ _ _ Hcr) as (job' & -> & _).
      cbn. split; [discriminate | auto].
Qed.

Lemma rejected_answer_means_nothing_sent_witness :
  services (createJob.handler Example.env (Example.post Example.late_request)
              Example.empty).2 = services Example.empty.
Proof.
  apply (rejected_answer_means_nothing_sent Example.env
           (Example.post Example.late_request) Example.empty).
  vm_compute. reflexivity.
Defined.

(** ** Validation, branch by branch *)

Section Validation.
Context (env : Env).

(** A request that passes validation reaches [create] with its own fields. *)
Lemma run_accepts event w body ty :
  JSON_parse env (to_string (createJob.event_body event)) = Some body ->
  get_field body "type" = VStr ty ->
  In ty createJob.jobTypes ->
  truthy (get_field body "name") = true ->
  (ty = "cron" -> truthy (get_field body "scheduleExpression") = true) ->
  (ty = "once" ->
   truthy (get_field body "executeAt") = true
   /\ exists t, Date_time env (get_field body "executeAt") = Some t
                /\ (clock env (ticks w) < t)%Z) ->
  createJob.run env event w =
    createJob.create env (get_field body "name")
      (get_field body "description") ty
      (get_field body "scheduleExpression") (get_field body "executeAt")
      (get_field body "payload")
      (if ty =? "once" then tick w else w).
Proof.
  intros Hp Hty Hin Hname Hcron Honce.
  unfold createJob.run. rewrite bind_run.
  unfold createJob.parse. rewrite Hp. cbv beta iota delta [mret M_ret].
  assert (Hnn : nullish body = false)
    by (destruct body; try reflexivity; discriminate Hty).
  rewrite Hnn, Hname, Hty. cbn [truthy negb orb].
  assert (Hne : negb (ty =? "") = true).
  { destruct Hin as [<- | [<- | [<- | []]]]; reflexivity. }
  rewrite Hne. cbn [negb].
  assert (Hex : existsb (String.eqb ty) createJob.jobTypes = true).
  { apply existsb_exists. exists ty. split; [exact Hin|].
    apply String.eqb_refl. }
  rewrite Hex. cbn [negb].
  destruct (ty =? "once") eqn:Ho.
  - apply String.eqb_eq in Ho. destruct (Honce Ho) as (Hea & t & Ht & Hlt).
    rewrite Hea, Ht. cbn [negb andb]. subst ty.
    cbn [String.eqb Ascii.eqb Bool.eqb andb].
    rewrite bind_run. unfold Date_now at 1. cbv beta iota.
    apply Z.leb_gt in Hlt. rewrite Hlt. reflexivity.
  - cbn [andb]. destruct (ty =? "cron") eqn:Hc; [|reflexivity].
    apply String.eqb_eq in Hc. rewrite (Hcron Hc). reflexivity.
Qed.

End Validation.

(** A request without a name or without a type is answered 400 "name and
    type are required fields"; nothing is read from the clock, drawn or
    sent. *)
Theorem create_requires_name_and_type
    (env : Env) (event : createJob.Event) (w : World) (body : value) :
  JSON_parse env (to_string (createJob.event_body event)) = Some body ->
  nullish body = false ->
  truthy (get_field body "name") = false
  \/ truthy (get_field body "type") = false ->
  createJob.handler env event w =
    (createJob.bad_request "name and type are required fields", w).
Proof.
  intros Hp Hnn Hmissing.
  unfold createJob.handler, catch_all, createJob.run. rewrite bind_run.
  unfold createJob.parse. rewrite Hp. cbv beta iota delta [mret M_ret].
  rewrite Hnn.
  destruct Hmissing as [-> | ->]; cbn [negb orb]; [reflexivity|].
  rewrite orb_true_r. reflexivity.
Qed.

Lemma create_requires_name_and_type_witness :
  createJob.handler Scenario2.env (Example.post Scenario2.nameless_request)
    Example.empty =
    (createJob.bad_request "name and type are required fields", Example.empty).
Proof.
  apply (create_requires_name_and_type Scenario2.env
           (Example.post Scenario2.nameless_request) Example.empty
           Scenario2.nameless_request);
    [reflexivity | reflexivity | left; reflexivity].
Defined.

(** A request whose type is not one of "immediate", "once" and "cron" (a
    string of another spelling, or no string at all) is answered 400
    "Invalid job type"; nothing is sent. *)
Theorem create_rejects_unknown_type
    (env : Env) (event : createJob.Event) (w : World) (body : value) :
  JSON_parse env (to_string (createJob.event_body event)) = Some body ->
  nullish body = false ->
  truthy (get_field body "name") = true ->
  truthy (get_field body "type") = true ->
  (forall ty, get_field body "type" = VStr ty -> ~ In ty createJob.jobTypes) ->
  createJob.handler env event w =
    (createJob.bad_request
       "Invalid job type. Must be: immediate, once, or cron", w).
Proof.
  intros Hp Hnn Hname Htype Hunknown.
  unfold createJob.handler, catch_all, createJob.run. rewrite bind_run.
  unfold createJob.parse. rewrite Hp. cbv beta iota delta [mret M_ret].
  rewrite Hnn, Hname, Htype. cbn [negb orb].
  destruct (get_field body "type") as [| | | |ty| |]; try reflexivity.
  destruct (existsb (String.eqb ty) createJob.jobTypes) eqn:Hex;
    [|reflexivity].
  exfalso. apply existsb_exists in Hex. destruct Hex as (ty' & Hin & Heq).
  apply String.eqb_eq in Heq. subst ty'. exact (Hunknown ty eq_refl Hin).
Qed.

Lemma create_rejects_unknown_type_witness :
  createJob.handler Scenario2.env (Example.post Scenario2.odd_request)
    Example.empty =
    (createJob.bad_request
       "Invalid job type. Must be: immediate, once, or cron", Example.empty).
Proof.
  apply (create_rejects_unknown_type Scenario2.env
           (Example.post Scenario2.odd_request) Example.empty
           Scenario2.odd_request);
    [reflexivity | reflexivity | reflexivity | reflexivity |].
  intros ty [= <-] [H | [H | [H | []]]]; discriminate H.
Defined.

(** A cron request without a schedule expression is answered 400; nothing is
    sent. *)
Theorem create_cron_needs_expression
    (env : Env) (event : createJob.Event) (w : World) (body : value) :
  JSON_parse env (to_string (createJob.event_body event)) = Some body ->
  get_field body "type" = VStr "cron" ->
  truthy (get_field body "scheduleExpression") = false ->
  exists msg,
    createJob.handler env event w = (createJob.bad_request msg, w)
    /\ (truthy (get_field body "name") = true ->
        msg = "scheduleExpression is required for cron type jobs").
Proof.
  intros Hp Hty Hse.
  assert (Hnn : nullish body = false)
    by (destruct body; try reflexivity; discriminate Hty).
  unfold createJob.handler, catch_all, createJob.run. rewrite bind_run.
  unfold createJob.parse. rewrite Hp. cbv beta iota delta [mret M_ret].
  rewrite Hnn, Hty, Hse.
  destruct (truthy (get_field body "name")); cbn.
  - eexists. split; [reflexivity|]. reflexivity.
  - eexists. split; [reflexivity|]. discriminate.
Qed.

Lemma create_cron_needs_expression_witness :
  createJob.handler Scenario2.env (Example.post Scenario2.bare_cron_request)
    Example.empty =
    (createJob.bad_request "scheduleExpression is required for cron type jobs",
     Example.empty).
Proof.
  destruct (create_cron_needs_expression Scenario2.env
              (Example.post Scenario2.bare_cron_request) Example.empty
              Scenario2.bare_cron_request) as (msg & Hr & Hmsg);
    [reflexivity | reflexivity | reflexivity |].
  rewrite Hr, Hmsg; reflexivity.
Defined.

(** ** An immediate job *)

(** With services that answer, a valid immediate request writes one record,
    with the status "executing", and queues the executor once, with the
    identifier of the record and the payload of the request; it registers no
    rule.  The answer is 201 with the record as it was written. *)
Theorem create_immediate_queues_executor
    (env : Env) (event : createJob.Event) (w : World) (body : value) :
  JSON_parse env (to_string (createJob.event_body event)) = Some body ->
  get_field body "type" = VStr "immediate" ->
  truthy (get_field body "name") = true ->
  (forall n c, fault env n c = None) ->
  exists job w',
    createJob.handler env event w = (createJob.created job, w')
    /\ status job = "executing"
    /\ jobId job = uuidv4 env (uuids w)
    /\ payload job = js_or (get_field body "payload") (VObj [])
    /\ jobs w' = <[jobId job := job]> (jobs w)
    /\ trace w' = (trace w ++ [PutJob job;
                               InvokeCommand (jobId job,
                                              get_field body "payload")])%list
    /\ queued w' = (queued w ++ [(jobId job, get_field body "payload")])%list
    /\ rules w' = rules w /\ targets w' = targets w
    /\ permissions w' = permissions w.
Proof.
  intros Hp Hty Hname Hok.
  unfold createJob.handler, catch_all.
  rewrite (run_accepts env event w body "immediate" Hp Hty);
    [| left; reflexivity | exact Hname | discriminate | discriminate].
  cbn [String.eqb Ascii.eqb Bool.eqb andb].
  unfold createJob.create.
  rewrite bind_run. unfold uuid. cbv beta iota.
  rewrite bind_run. unfold Date_now. cbv beta iota. world.
  rewrite bind_run. unfold ddb_put_job. rewrite send_ok by apply Hok.
  unfold createJob.schedule.
  cbn [type createJob.new_job String.eqb Ascii.eqb Bool.eqb andb].
  rewrite bind_run. unfold lambda_invoke. rewrite send_ok by apply Hok.
  unfold mret, M_ret. do 2 eexists. split; [reflexivity|]. world.
  cbn [createJob.with_status createJob.new_job status jobId payload
       String.eqb Ascii.eqb Bool.eqb andb].
  rewrite <- app_assoc.
  repeat split; reflexivity.
Qed.

Lemma create_immediate_queues_executor_witness :
  exists job w',
    createJob.handler Scenario2.env (Example.post Scenario2.plain_request)
      Example.empty = (createJob.created job, w')
    /\ status job = "executing"
    /\ trace w' = [PutJob job;
                   InvokeCommand ("uuid-0", VObj [("key", VStr "value")])]
    /\ queued w' = [("uuid-0", VObj [("key", VStr "value")])].
Proof.
  destruct (create_immediate_queues_executor Scenario2.env
              (Example.post Scenario2.plain_request) Example.empty
              Scenario2.plain_request)
    as (job & w' & Hr & Hs & Hid & _ & _ & Ht & Hq & _);
    [reflexivity | reflexivity | reflexivity | intros n c; reflexivity|].
  exists job, w'. split; [exact Hr|]. split; [exact Hs|].
  rewrite Ht, Hq, Hid. split; reflexivity.
Defined.

(** ** The permission *)

Section Permission.
Context (env : Env).


End Permission.





(** ** Every way a deletion can go *)

Section DeletionCases.
Context (env : Env).

Lemma remove_rule_frame {X} (f : World -> X) job :
  (forall c w, f (log c w) = f w) ->
  (forall g w, f (set_targets g w) = f w) ->
  (forall g w, f (set_rules g w) = f w) ->
  (forall g w, f (set_permissions g w) = f w) ->
  frame f (deleteJob.remove_rule env job).
Proof.
  intros Hl Ht Hr Hp.
  unfold deleteJob.remove_rule, eb_list_targets, eb_remove_targets,
    eb_delete_rule, lambda_remove_permission.
  compose; try (apply frame_send; auto).
Qed.

(** The removal of the rule only takes away: no rule and no permission is
    added. *)
Lemma remove_rule_shrinks job (w0 : World) :
  preserves (fun w => rules w ⊆ rules w0 /\ permissions w ⊆ permissions w0)
    (deleteJob.remove_rule env job).
Proof.
  unfold deleteJob.remove_rule.
  destruct (if _ : bool then present (ruleName job) else None) as [r|];
    [|apply preserves_ret].
  apply preserves_try_catch; [|intros ?; apply preserves_ret].
  apply preserves_bind.
  { unfold eb_list_targets. apply preserves_bind.
    - apply preserves_send; intros w H; exact H.
    - intros _ w H. exact H. }
  intros Targets. apply preserves_bind.
  { unfold when_. destruct (0 <? length Targets)%nat; [|apply preserves_ret].
    apply preserves_send; intros w H; exact H. }
  intros _. apply preserves_bind.
  { apply preserves_send; [intros w H; exact H|].
    intros w [Hr Hp]. split; [|exact Hp]. world.
    etransitivity; [apply delete_subseteq | exact Hr]. }
  intros _. apply preserves_try_catch; [|intros ?; apply preserves_ret].
  apply preserves_send; [intros w H; exact H|].
  intros w [Hr Hp]. split; [exact Hr|]. world.
  etransitivity; [apply subseteq_difference_l; reflexivity | exact Hp].
Qed.

(** A deletion goes one of these ways: the request names no job; the read
    of the record fails; the record is not there; or the record is read, the
    removal of its rule is attempted (it never throws), and the record is
    deleted, unless that last command fails. *)
Lemma delete_outcomes event w :
  exists resp w',
    deleteJob.handler env event w = (resp, w')
    /\ ((present (deleteJob.pathParameters_jobId event) = None
         /\ resp = {| statusCode := 400; body := BError "jobId is required" |}
         /\ w' = w)
        \/ exists jobId,
             present (deleteJob.pathParameters_jobId event) = Some jobId
             /\ ((exists e,
                    fault env (length (trace w)) (GetCommand jobId) = Some e
                    /\ resp = {| statusCode := 500;
                                 body := BFailure "Failed to delete job"
                                           (err_message e) |}
                    /\ w' = log (GetCommand jobId) w)
                 \/ (jobs w !! jobId = None
                     /\ resp = {| statusCode := 404;
                                  body := BError "Job not found" |}
                     /\ w' = log (GetCommand jobId) w)
                 \/ (exists job w1,
                       jobs w !! jobId = Some job
                       /\ deleteJob.remove_rule env job
                            (log (GetCommand jobId) w) = (inr tt, w1)
                       /\ ((exists e,
                              fault env (length (trace w1))
                                (DeleteCommand jobId) = Some e
                              /\ resp = {| statusCode := 500;
                                          body := BFailure "Failed to delete job"
                                                    (err_message e) |}
                              /\ w' = log (DeleteCommand jobId) w1)
                           \/ (fault env (length (trace w1))
                                 (DeleteCommand jobId) = None
                               /\ resp = {| statusCode := 200;
                                         body := BDeleted jobId (name job) |}
                               /\ w' = set_jobs (delete jobId)
                                         (log (DeleteCommand jobId) w1)))))).
Proof.
  destruct (deleteJob.handler env event w) as [resp w'] eqn:H.
  exists resp, w'. split; [reflexivity|].
  unfold deleteJob.handler, catch_all, deleteJob.run in H.
  destruct (present (deleteJob.pathParameters_jobId event)) as [id0|] eqn:Hid.
  2:{ injection H as <- <-. left. auto. }
  right. exists id0. split; [reflexivity|].
  rewrite bind_run in H. unfold ddb_get in H. rewrite bind_run in H.
  unfold send at 1 in H.
  destruct (fault env (length (trace w)) (GetCommand id0)) as [e|] eqn:Hf.
  { injection H as <- <-. left. exists e. auto. }
  right. unfold id, gets in H. world.
  destruct (jobs w !! id0) as [job|] eqn:Hjob.
  2:{ injection H as <- <-. left. auto. }
  right. rewrite bind_run in H.
  destruct (remove_rule_returns env job (log (GetCommand id0) w))
    as (w1 & Hrm & Hj).
  rewrite Hrm in H. rewrite bind_run in H. unfold ddb_delete, send in H.
  exists job, w1. split; [reflexivity|]. split; [exact Hrm|].
  destruct (fault env (length (trace w1)) (DeleteCommand id0)) as [e|] eqn:Hd;
    injection H as <- <-; [left; exists e | right]; auto.
Qed.

(** The removal of a rule whose name the record holds, with services that
    answer: every target of the rule is removed, then the rule, then the
    permission. *)
Lemma filter_own_ids (l : list Target) (ids : list string) :
  (forall t, In t l -> In (Id t) ids) ->
  List.filter (fun t => negb (has_id ids t)) l = [].
Proof.
  induction l as [|t l IH]; intros H; [reflexivity|].
  cbn [List.filter].
  assert (Ht : has_id ids t = true).
  { unfold has_id. apply existsb_exists. exists (Id t).
    split; [apply H; left; reflexivity | apply String.eqb_refl]. }
  rewrite Ht. cbn [negb]. apply IH. intros t' Hin. apply H. right. exact Hin.
Qed.

Lemma remove_rule_recorded job rule w :
  (forall n c, fault env n c = None) ->
  type job = "once" \/ type job = "cron" ->
  present (ruleName job) = Some rule ->
  exists w',
    deleteJob.remove_rule env job w = (inr tt, w')
    /\ jobs w' = jobs w
    /\ rules w' = delete rule (rules w)
    /\ default [] (targets w' !! rule) = []
    /\ (forall r, r <> rule -> targets w' !! r = targets w !! r)
    /\ permissions w' = permissions w ∖ {[(rule ++ "-permission")%string]}.
Proof.
  intros Hok Hty Hrule. unfold deleteJob.remove_rule.
  assert (Hg : (type job =? "once") || (type job =? "cron") = true).
  { destruct Hty as [-> | ->]; reflexivity. }
  rewrite Hg, Hrule.
  remember (default [] (targets w !! rule)) as Targets eqn:Hts.
  assert (Hlist : eb_list_targets env rule w
                  = (inr Targets, log (ListTargetsByRuleCommand rule) w)).
  { unfold eb_list_targets. rewrite bind_run, send_ok by apply Hok.
    rewrite Hts. reflexivity. }
  rewrite try_catch_run, bind_run, Hlist. rewrite bind_run. unfold when_.
  destruct Targets as [|t l].
  - cbn [length Nat.ltb Nat.leb]. unfold mret at 1, M_ret at 1.
    rewrite bind_run. unfold eb_delete_rule. rewrite send_ok by apply Hok.
    rewrite try_catch_run. unfold lambda_remove_permission.
    rewrite send_ok by apply Hok.
    eexists. split; [reflexivity|]. world.
    repeat split; try reflexivity. symmetry. exact Hts.
  - cbn [length Nat.ltb Nat.leb]. unfold eb_remove_targets.
    rewrite send_ok by apply Hok.
    rewrite bind_run. unfold eb_delete_rule. rewrite send_ok by apply Hok.
    rewrite try_catch_run. unfold lambda_remove_permission.
    rewrite send_ok by apply Hok.
    eexists. split; [reflexivity|]. world.
    split; [reflexivity|]. split; [reflexivity|]. split.
    + rewrite lookup_alter_eq.
      destruct (targets w !! rule) as [ts|]; [|discriminate Hts].
      cbn [default from_option id fmap option_fmap option_map] in *.
      unfold id in Hts. subst ts.
      apply filter_own_ids. intros t' Hin.
      apply (in_map Id) in Hin. exact Hin.
    + split; [|reflexivity]. intros r Hr. apply lookup_alter_ne. congruence.
Qed.

End DeletionCases.

(** The answer of a deletion tells what happened to the record, whatever the
    services do: on 200 the record named by the request was there and is
    gone, and the answer carries its identifier and its name; on any other
    answer the table of jobs is as it was. *)
Theorem delete_answer_tells_store
    (env : Env) (event : deleteJob.Event) (w : World) :
  let r := deleteJob.handler env event w in
  (statusCode r.1 = 200%Z ->
   exists jobId job,
     present (deleteJob.pathParameters_jobId event) = Some jobId
     /\ jobs w !! jobId = Some job
     /\ body r.1 = BDeleted jobId (name job)
     /\ jobs r.2 = delete jobId (jobs w))
  /\ (statusCode r.1 <> 200%Z -> jobs r.2 = jobs w).
Proof.
  cbv zeta.
  destruct (delete_outcomes env event w) as (resp & w' & -> & Hcases).
  cbn [fst snd].
  destruct Hcases
    as [(_ & -> & ->)
       | (id0 & Hid & [(e & _ & -> & ->)
                      | [(_ & -> & ->)
                        | (job & w1 & Hjob & Hrm & [(e & _ & -> & ->)
                                                   | (_ & -> & ->)])]])];
    cbn [statusCode body]; world.
  - split; [discriminate | reflexivity].
  - split; [discriminate | reflexivity].
  - split; [discriminate | reflexivity].
  - pose proof (remove_rule_jobs env job (log (GetCommand id0) w)) as Hj.
    rewrite Hrm in Hj. cbn [snd] in Hj.
    split; [discriminate | intros _; exact Hj].
  - pose proof (remove_rule_jobs env job (log (GetCommand id0) w)) as Hj.
    rewrite Hrm in Hj. cbn [snd] in Hj. split; [|intros Hn; now elim Hn].
    intros _. exists id0, job. rewrite Hj. auto.
Qed.

Lemma delete_answer_tells_store_witness :
  jobs (deleteJob.handler Example.env
          {| deleteJob.pathParameters_jobId := Some "gone" |}
          Scenario.once_created).2
  = jobs Scenario.once_created.
Proof.
  apply (proj2 (delete_answer_tells_store Example.env
                  {| deleteJob.pathParameters_jobId := Some "gone" |}
                  Scenario.once_created)).
  vm_compute. discriminate.
Defined.

(** A deletion never touches the table of invocations (the history of a
    deleted job stays) nor the queue of the executor, and it adds nothing:
    the jobs, the rules and the permissions after it are among those before
    it.  This holds whatever the services do. *)
Theorem delete_only_removes
    (env : Env) (event : deleteJob.Event) (w : World) :
  let w' := (deleteJob.handler env event w).2 in
  invocations w' = invocations w
  /\ queued w' = queued w
  /\ jobs w' ⊆ jobs w
  /\ rules w' ⊆ rules w
  /\ permissions w' ⊆ permissions w.
Proof.
  cbv zeta.
  destruct (delete_outcomes env event w) as (resp & w' & -> & Hcases).
  cbn [snd].
  assert (Hrm : forall job w0 w1,
            deleteJob.remove_rule env job w0 = (inr tt, w1) ->
            invocations w1 = invocations w0 /\ queued w1 = queued w0
            /\ jobs w1 = jobs w0
            /\ rules w1 ⊆ rules w0 /\ permissions w1 ⊆ permissions w0).
  { intros job w0 w1 H.
    pose proof (remove_rule_frame env invocations job
                  ltac:(reflexivity) ltac:(reflexivity) ltac:(reflexivity)
                  ltac:(reflexivity) w0) as Hi.
    pose proof (remove_rule_frame env queued job
                  ltac:(reflexivity) ltac:(reflexivity) ltac:(reflexivity)
                  ltac:(reflexivity) w0) as Hq.
    pose proof (remove_rule_jobs env job w0) as Hj.
    pose proof (remove_rule_shrinks env job w0 w0
                  (conj (reflexivity _) (reflexivity _))) as [Hr Hp].
    rewrite H in *. cbn [snd] in *. auto. }
  destruct Hcases
    as [(_ & _ & ->)
       | (id0 & Hid & [(e & _ & _ & ->)
                      | [(_ & _ & ->)
                        | (job & w1 & Hjob & Hrun & [(e & _ & _ & ->)
                                                    | (_ & _ & ->)])]])];
    world; try (repeat split; reflexivity).
  - destruct (Hrm _ _ _ Hrun) as (Hi & Hq & Hj & Hr & Hp). world.
    rewrite Hj. repeat split; auto.
  - destruct (Hrm _ _ _ Hrun) as (Hi & Hq & Hj & Hr & Hp). world.
    rewrite Hj. repeat split; auto. apply delete_subseteq.
Qed.

(** ** Deleting a job and its rule *)

Section DeletionFound.
Context (env : Env).

(** A deletion that finds its record, on a store that answers. *)
Lemma delete_found event w jobId job :
  present (deleteJob.pathParameters_jobId event) = Some jobId ->
  jobs w !! jobId = Some job ->
  StoreOk env ->
  exists w1,
    deleteJob.remove_rule env job (log (GetCommand jobId) w) = (inr tt, w1)
    /\ deleteJob.handler env event w =
         ({| statusCode := 200; body := BDeleted jobId (name job) |},
          set_jobs (delete jobId) (log (DeleteCommand jobId) w1)).
Proof.
  intros Hid Hjob Hok.
  destruct (delete_outcomes env event w) as (resp & w' & -> & Hcases).
  destruct Hcases
    as [(Hn & _)
       | (id0 & Hid' & [(e & Hf & _)
                       | [(Hn & _)
                         | (job' & w1 & Hjob' & Hrm & [(e & Hf & _)
                                                      | (_ & -> & ->)])]])].
  - congruence.
  - rewrite Hok in Hf by reflexivity. discriminate Hf.
  - congruence.
  - rewrite Hok in Hf by reflexivity. discriminate Hf.
  - assert (id0 = jobId) by congruence. subst id0.
    assert (job' = job) by congruence. subst job'.
    exists w1. split; [exact Hrm | reflexivity].
Qed.

End DeletionFound.

(** When the record of a one-time or cron job holds the name of its rule
    and the services answer, a deletion removes the record, the rule, every
    target of the rule and the permission of the rule, and answers 200. *)
Theorem delete_removes_recorded_rule
    (env : Env) (event : deleteJob.Event) (w : World)
    (jobId rule : string) (job : Job) :
  present (deleteJob.pathParameters_jobId event) = Some jobId ->
  jobs w !! jobId = Some job ->
  type job = "once" \/ type job = "cron" ->
  present (ruleName job) = Some rule ->
  (forall n c, fault env n c = None) ->
  exists w',
    deleteJob.handler env event w =
      ({| statusCode := 200; body := BDeleted jobId (name job) |}, w')
    /\ jobs w' = delete jobId (jobs w)
    /\ rules w' = delete rule (rules w)
    /\ default [] (targets w' !! rule) = []
    /\ (forall r, r <> rule -> targets w' !! r = targets w !! r)
    /\ permissions w' = permissions w ∖ {[(rule ++ "-permission")%string]}.
Proof.
  intros Hid Hjob Hty Hrule Hok.
  destruct (delete_found env event w jobId job Hid Hjob) as (w1 & Hrm & ->).
  { intros n c _. apply Hok. }
  destruct (remove_rule_recorded env job rule (log (GetCommand jobId) w)
              Hok Hty Hrule) as (w2 & Hrm2 & Hj & Hr & Ht & Hto & Hp).
  rewrite Hrm in Hrm2. injection Hrm2 as <-.
  eexists. split; [reflexivity|]. world. rewrite Hj. auto 10.
Qed.

Lemma delete_removes_recorded_rule_witness :
  exists w',
    deleteJob.handler Example.env
      {| deleteJob.pathParameters_jobId := Some "uuid-0" |}
      Scenario2.cron_recorded =
      ({| statusCode := 200; body := BDeleted "uuid-0" (VStr "sync") |}, w')
    /\ jobs w' = delete "uuid-0" (jobs Scenario2.cron_recorded)
    /\ rules w' = delete "job-uuid-0" (rules Scenario2.cron_recorded)
    /\ default [] (targets w' !! "job-uuid-0") = [].
Proof.
  destruct (delete_removes_recorded_rule Example.env
              {| deleteJob.pathParameters_jobId := Some "uuid-0" |}
              Scenario2.cron_recorded "uuid-0" "job-uuid-0"
              (createJob.with_ruleName "job-uuid-0" Scenario.cron_job))
    as (w' & Hr & Hj & Hru & Ht & _);
    [reflexivity | vm_compute; reflexivity | right; reflexivity
     | reflexivity | intros n c; reflexivity |].
  exists w'. auto.
Defined.

(** Deleting a job that a creation has just scheduled leaves its rule
    behind: the record that was stored has no rule name, so the deletion
    removes the record, answers 200, and sends nothing to the rule service;
    the rule registered by the creation, its targets and the permissions
    stay. *)
Theorem delete_of_created_job_keeps_rule
    (env : Env) (event : createJob.Event) (w : World) (job : Job) :
  (createJob.handler env event w).1 = createJob.created job ->
  type job = "once" \/ type job = "cron" ->
  jobId job <> "" ->
  StoreOk env ->
  let w1 := (createJob.handler env event w).2 in
  exists w2,
    deleteJob.handler env
      {| deleteJob.pathParameters_jobId := Some (jobId job) |} w1 =
      ({| statusCode := 200; body := BDeleted (jobId job) (name job) |}, w2)
    /\ jobs w2 !! jobId job = None
    /\ is_Some (rules w2 !! ("job-" ++ jobId job))
    /\ rules w2 = rules w1
    /\ targets w2 = targets w1
    /\ permissions w2 = permissions w1
    /\ trace w2 = (trace w1 ++ [GetCommand (jobId job);
                                DeleteCommand (jobId job)])%list.
Proof.
  intros Hresp Hty Hne Hok. cbv zeta.
  destruct (creation_registered env event w job Hresp Hty)
    as (stored & rule & p & Hjob & Hnone & _ & Hstored & Hrule).
  set (w1 := (createJob.handler env event w).2) in *.
  assert (Hid : present (Some (jobId job)) = Some (jobId job)).
  { cbn [present]. apply String.eqb_neq in Hne. rewrite Hne. reflexivity. }
  destruct (delete_found env
              {| deleteJob.pathParameters_jobId := Some (jobId job) |}
              w1 (jobId job) stored Hid Hstored Hok) as (w2 & Hrm & ->).
  assert (Hw2 : w2 = log (GetCommand (jobId job)) w1).
  { unfold deleteJob.remove_rule in Hrm. rewrite Hnone in Hrm.
    cbn [present] in Hrm.
    destruct ((type stored =? "once") || (type stored =? "cron"));
      injection Hrm as <-; reflexivity. }
  subst w2.
  assert (Hn : name job = name stored) by (rewrite Hjob; reflexivity).
  rewrite Hn. eexists. split; [reflexivity|].
  world. split; [apply lookup_delete_eq|].
  split; [rewrite Hrule; eexists; reflexivity|].
  rewrite <- app_assoc. repeat split; reflexivity.
Qed.

Lemma delete_of_created_job_keeps_rule_witness :
  exists w2,
    deleteJob.handler Example.env
      {| deleteJob.pathParameters_jobId := Some "uuid-0" |}
      Scenario.cron_created =
      ({| statusCode := 200; body := BDeleted "uuid-0" (VStr "sync") |}, w2)
    /\ jobs w2 !! "uuid-0" = None
    /\ is_Some (rules w2 !! "job-uuid-0").
Proof.
  destruct (delete_of_created_job_keeps_rule Example.env
              (Example.post Example.cron_request) Example.empty
              (createJob.with_ruleName "job-uuid-0" Scenario.cron_job))
    as (w2 & Hr & Hj & Hru & _);
    [vm_compute; reflexivity | right; reflexivity | discriminate
     | intros n c _; reflexivity |].
  exists w2. split; [exact Hr|]. split; [exact Hj | exact Hru].
Defined.

(** Once a job is deleted, an event for it does nothing: on a store that
    answers, the executor answers 404, records no invocation and leaves the
    table of jobs without the record. *)
Theorem deleted_job_is_not_dispatched
    (env : Env) (gone : deleteJob.Event) (fired : jobExecutor.Event)
    (w : World) (jobId : string) (job : Job) :
  present (deleteJob.pathParameters_jobId gone) = Some jobId ->
  present (jobExecutor.ev_jobId fired) = Some jobId ->
  jobs w !! jobId = Some job ->
  StoreOk env ->
  let w1 := (deleteJob.handler env gone w).2 in
  exists w2,
    jobExecutor.handler env fired w1 =
      ({| statusCode := 404; body := BError "Job not found" |}, w2)
    /\ invocations w2 = invocations w
    /\ jobs w2 = delete jobId (jobs w)
    /\ rules w2 = rules w1 /\ targets w2 = targets w1
    /\ permissions w2 = permissions w1.
Proof.
  intros Hgone Hfired Hjob Hok. cbv zeta.
  destruct (delete_found env gone w jobId job Hgone Hjob Hok)
    as (w1 & Hrm & ->). cbn [snd].
  pose proof (remove_rule_jobs env job (log (GetCommand jobId) w)) as Hj.
  pose proof (remove_rule_frame env invocations job
                ltac:(reflexivity) ltac:(reflexivity) ltac:(reflexivity)
                ltac:(reflexivity) (log (GetCommand jobId) w)) as Hi.
  rewrite Hrm in Hj, Hi. cbn [snd] in Hj, Hi. world.
  unfold jobExecutor.handler, catch_all, jobExecutor.run. rewrite Hfired.
  rewrite bind_run, ddb_get_ok by (apply Hok; reflexivity). world.
  rewrite Hj, lookup_delete_eq.
  eexists. split; [reflexivity|]. world. rewrite Hj, Hi.
  repeat split; reflexivity.
Qed.

Lemma deleted_job_is_not_dispatched_witness :
  exists w2,
    jobExecutor.handler Example.env (Example.fire "uuid-0")
      (deleteJob.handler Example.env
         {| deleteJob.pathParameters_jobId := Some "uuid-0" |}
         Scenario.once_created).2 =
      ({| statusCode := 404; body := BError "Job not found" |}, w2)
    /\ invocations w2 = invocations Scenario.once_created.
Proof.
  destruct (deleted_job_is_not_dispatched Example.env
              {| deleteJob.pathParameters_jobId := Some "uuid-0" |}
              (Example.fire "uuid-0") Scenario.once_created "uuid-0"
              Scenario.once_job)
    as (w2 & Hr & Hi & _);
    [reflexivity | reflexivity | vm_compute; reflexivity
     | intros n c _; reflexivity |].
  exists w2. split; [exact Hr | exact Hi].
Defined.

(** ** From the creation to the first dispatch *)



(** ** More about the statistics *)

Section Histories.

Lemma filter_all {A} (p : A -> bool) (l : list A) :
  Forall (fun x => p x = true) l -> List.filter p l = l.
Proof.
  induction 1 as [|x l Hx _ IH]; [reflexivity|].
  cbn [List.filter]. rewrite Hx, IH. reflexivity.
Qed.

Lemma filter_none {A} (p : A -> bool) (l : list A) :
  Forall (fun x => p x = false) l -> List.filter p l = [].
Proof.
  induction 1 as [|x l Hx _ IH]; [reflexivity|].
  cbn [List.filter]. rewrite Hx, IH. reflexivity.
Qed.

Lemma sum_bounds {A} (g : A -> Z) (l : list A) (lo hi : Z) :
  (forall x, In x l -> (lo <= g x <= hi)%Z) ->
  (Z.of_nat (length l) * lo <= foldr Z.add 0%Z (g <$> l)
   <= Z.of_nat (length l) * hi)%Z.
Proof.
  induction l as [|x l IH]; intros H; [cbn; lia|].
  specialize (IH (fun y Hy => H y (or_intror Hy))).
  pose proof (H x (or_introl eq_refl)) as Hx.
  cbn [fmap list_fmap foldr length]. lia.
Qed.

Lemma sum_Permutation (l l' : list Z) :
  Permutation l l' -> foldr Z.add 0%Z l = foldr Z.add 0%Z l'.
Proof. induction 1; cbn; lia. Qed.

Lemma List_filter_Permutation {A} (p : A -> bool) (l l' : list A) :
  Permutation l l' -> Permutation (List.filter p l) (List.filter p l').
Proof.
  induction 1 as [|x l l' _ IH|x y l|l l' l'' _ IH1 _ IH2].
  - constructor.
  - cbn [List.filter]. destruct (p x); [constructor|]; exact IH.
  - cbn [List.filter]. destruct (p x), (p y); try reflexivity. constructor.
  - etransitivity; eassumption.
Qed.

(** The rate when all, and when none, of [n] invocations are completed. *)
Lemma full_rate (n : positive) :
  getJob.toFixed2
    (binary64 (binary64 (inject_Z (Zpos n) / inject_Z (Zpos n)) * 100))
  = "100.00".
Proof.
  rewrite (binary64_Qeq (inject_Z (Zpos n) / inject_Z (Zpos n)) 1).
  - vm_compute. reflexivity.
  - unfold Qdiv. apply Qmult_inv_r. discriminate.
Qed.

Lemma null_rate (n : positive) :
  getJob.toFixed2
    (binary64 (binary64 (inject_Z 0 / inject_Z (Zpos n)) * 100))
  = "0.00".
Proof.
  rewrite (binary64_Qeq (inject_Z 0 / inject_Z (Zpos n)) 0).
  - vm_compute. reflexivity.
  - unfold Qdiv. apply Qmult_0_l.
Qed.

Lemma filter_status_eq s l :
  Forall (fun inv => inv_status inv = s) l ->
  List.filter (getJob.has_status s) l = l.
Proof.
  intros H. apply filter_all. eapply Forall_impl; [exact H|].
  intros inv Hs. unfold getJob.has_status. rewrite Hs. apply String.eqb_refl.
Qed.

Lemma filter_status_ne s l :
  Forall (fun inv => inv_status inv <> s) l ->
  List.filter (getJob.has_status s) l = [].
Proof.
  intros H. apply filter_none. eapply Forall_impl; [exact H|].
  intros inv Hs. unfold getJob.has_status. apply String.eqb_neq. exact Hs.
Qed.

End Histories.

(** When every fetched invocation is completed the success rate is the text
    100.00; when there are invocations and none is completed it is the text
    0.00 and the average duration is 0, whatever durations the others
    carry. *)
Theorem statistics_of_uniform_history (invocations : list Invocation) :
  invocations <> [] ->
  let st := getJob.statistics invocations in
  (Forall (fun inv => inv_status inv = "completed") invocations ->
   getJob.successRate st = VStr "100.00"
   /\ getJob.completed st = length invocations
   /\ getJob.failed st = 0%nat /\ getJob.running st = 0%nat)
  /\ (Forall (fun inv => inv_status inv <> "completed") invocations ->
      getJob.successRate st = VStr "0.00"
      /\ getJob.completed st = 0%nat
      /\ getJob.averageDuration st = 0%Z).
Proof.
  intros Hne st. split; intros Hall.
  - assert (Hc : List.filter (getJob.has_status "completed") invocations
                 = invocations) by (apply filter_status_eq, Hall).
    assert (Hf : List.filter (getJob.has_status "failed") invocations = []).
    { apply filter_status_ne. eapply Forall_impl; [exact Hall|].
      cbn. intros inv ->. discriminate. }
    assert (Hr : List.filter (getJob.has_status "running") invocations = []).
    { apply filter_status_ne. eapply Forall_impl; [exact Hall|].
      cbn. intros inv ->. discriminate. }
    unfold st, getJob.statistics. rewrite Hc, Hf, Hr.
    cbn [getJob.successRate getJob.completed getJob.failed getJob.running
         length].
    split; [|auto].
    destruct invocations as [|inv l]; [congruence|].
    cbn [length Nat.ltb Nat.leb].
    change (Z.of_nat (S (length l))) with (Zpos (Pos.of_succ_nat (length l))).
    rewrite full_rate. reflexivity.
  - assert (Hc : List.filter (getJob.has_status "completed") invocations = [])
      by (apply filter_status_ne, Hall).
    unfold st, getJob.statistics. rewrite Hc.
    cbn [getJob.successRate getJob.completed getJob.averageDuration length
         Nat.ltb Nat.leb].
    split; [|split; reflexivity].
    destruct invocations as [|inv l]; [congruence|].
    cbn [length Nat.ltb Nat.leb].
    change (Z.of_nat (S (length l))) with (Zpos (Pos.of_succ_nat (length l))).
    change (Z.of_nat 0) with 0%Z. rewrite null_rate. reflexivity.
Qed.

Lemma statistics_of_uniform_history_witness :
  getJob.successRate
    (getJob.statistics [Scenario.finished_in 10; Scenario.finished_in 25])
  = VStr "100.00".
Proof.
  apply (statistics_of_uniform_history
           [Scenario.finished_in 10; Scenario.finished_in 25]).
  - discriminate.
  - repeat constructor.
Defined.

(** The average duration lies between the shortest and the longest duration
    of the completed invocations (an absent duration counting as 0): the
    durations of failed and running invocations do not enter it. *)
Theorem average_duration_within_range
    (invocations : list Invocation) (lo hi : Z) :
  (exists inv, In inv invocations /\ inv_status inv = "completed") ->
  (forall inv, In inv invocations -> inv_status inv = "completed" ->
               (lo <= default 0 (duration inv) <= hi)%Z) ->
  (lo <= getJob.averageDuration (getJob.statistics invocations) <= hi)%Z.
Proof.
  intros (inv0 & Hin0 & Hst0) Hrange.
  unfold getJob.statistics. cbn [getJob.averageDuration].
  set (finished := List.filter (getJob.has_status "completed") invocations).
  assert (Hin : In inv0 finished).
  { apply filter_In. split; [exact Hin0|].
    unfold getJob.has_status. rewrite Hst0. reflexivity. }
  rewrite (fold_left_sum (fun inv => default 0%Z (duration inv))).
  pose proof (sum_bounds (fun inv => default 0%Z (duration inv)) finished
                lo hi) as Hs.
  destruct Hs as [Hlo Hhi].
  { intros inv Hinv. apply filter_In in Hinv as [Hi Hs].
    apply Hrange; [exact Hi|]. apply String.eqb_eq. exact Hs. }
  set (s := foldr Z.add 0%Z _) in *.
  destruct (length finished) as [|k] eqn:Hlen.
  { destruct finished; [destruct Hin | discriminate Hlen]. }
  cbn [Nat.ltb Nat.leb]. rewrite Z.add_0_l.
  change (Z.of_nat (S k)) with (Zpos (Pos.of_succ_nat k)) in *.
  rewrite Math_round_quotient.
  set (K := Zpos (Pos.of_succ_nat k)) in *.
  split.
  - apply Z.div_le_lower_bound; lia.
  - apply Z.lt_succ_r, Z.div_lt_upper_bound; lia.
Qed.

Lemma average_duration_within_range_witness :
  (10 <= getJob.averageDuration
           (getJob.statistics [Scenario.finished_in 10; Scenario.failed_in 900;
                               Scenario.finished_in 25]) <= 25)%Z.
Proof.
  apply average_duration_within_range.
  - exists (Scenario.finished_in 10). split; [left; reflexivity | reflexivity].
  - intros inv [<- | [<- | [<- | []]]] H; cbn; try lia; discriminate H.
Defined.

(** The statistics do not depend on the order in which the invocations were
    fetched. *)
Theorem statistics_ignore_order (l l' : list Invocation) :
  Permutation l l' -> getJob.statistics l = getJob.statistics l'.
Proof.
  intros Hp. unfold getJob.statistics.
  pose proof (List_filter_Permutation (getJob.has_status "completed") _ _ Hp)
    as Hc.
  pose proof (List_filter_Permutation (getJob.has_status "failed") _ _ Hp)
    as Hf.
  pose proof (List_filter_Permutation (getJob.has_status "running") _ _ Hp)
    as Hr.
  rewrite !(fold_left_sum (fun inv => default 0%Z (duration inv))).
  assert (Hs : foldr Z.add 0%Z
                 ((fun inv => default 0%Z (duration inv)) <$>
                  List.filter (getJob.has_status "completed") l)
               = foldr Z.add 0%Z
                   ((fun inv => default 0%Z (duration inv)) <$>
                    List.filter (getJob.has_status "completed") l')).
  { apply sum_Permutation, fmap_Permutation, Hc. }
  rewrite Hs.
  rewrite (Permutation_length Hp), (Permutation_length Hc),
    (Permutation_length Hf), (Permutation_length Hr).
  reflexivity.
Qed.

Lemma statistics_ignore_order_witness :
  getJob.statistics [Scenario.finished_in 10; Scenario.failed_in 900]
  = getJob.statistics [Scenario.failed_in 900; Scenario.finished_in 10].
Proof.
  apply statistics_ignore_order. apply perm_swap.
Defined.

(** ** The job logic *)

Section LogicFacts.
Context (stamp : nat -> string) (random : nat -> Q) (stack : string).

Lemma assoc_set_field k k' v l :
  assoc k (jobLogic.set_field k' v l)
  = if String.eqb k k' then v else assoc k l.
Proof.
  induction l as [|[k0 v0] l IH]; cbn [jobLogic.set_field assoc].
  - destruct (k =? k'); reflexivity.
  - destruct (k' =? k0) eqn:E0; cbn [assoc].
    + apply String.eqb_eq in E0. subst k0.
      destruct (k =? k'); reflexivity.
    + rewrite IH. destruct (k =? k0) eqn:E1; [|reflexivity].
      apply String.eqb_eq in E1. subst k0.
      rewrite String.eqb_sym, E0. reflexivity.
Qed.




End LogicFacts.



(** [processData] on an array returns as many items as it was given, in
    the same order.  Each returned item is an object marked
    [processed: true], [processedBy] the job's identifier and [processedAt]
    the time of its turn, whatever the item had under these names; when the
    item is an object, every other property of the returned item is the
    item's own, and when it is null, a boolean or a number the returned
    item has no other property. *)
Theorem processData_marks_every_item
    (stamp : nat -> string) (random : nat -> Q) (stack : string)
    (job : Job) (payload : value) (items : list value) :
  get_field payload "action" = VStr "process-data" ->
  get_field payload "data" = VArr items ->
  exists out,
    jobLogic.executeJobLogic stamp random stack job payload
    = inr (VObj [("message", VStr "Data processed successfully");
                 ("itemsProcessed", VNum (Z.of_nat (length items)));
                 ("data", VArr out)])
    /\ length out = length items
    /\ forall i item,
         items !! i = Some item ->
         exists fields,
           out !! i = Some (VObj fields)
           /\ assoc "processed" fields = VBool true
           /\ assoc "processedBy" fields = VStr (jobId job)
           /\ assoc "processedAt" fields = VStr (stamp i)
           /\ forall k,
                ~ In k ["processed"; "processedAt"; "processedBy"] ->
                match item with
                | VObj own => assoc k fields = assoc k own
                | VUndefined | VNull | VBool _ | VNum _ =>
                    assoc k fields = VUndefined
                | _ => True
                end.
Proof.
  intros Ha Hd.
  assert (Hnn : nullish payload = false)
    by (destruct payload; try reflexivity; discriminate Ha).
  unfold jobLogic.executeJobLogic. rewrite Hnn, Ha.
  cbn [jobLogic.is_string String.eqb Ascii.eqb Bool.eqb andb].
  unfold jobLogic.processData, js_or. rewrite Hd. cbn [truthy].
  exists (imap (jobLogic.mark stamp job) items).
  rewrite length_imap. split; [reflexivity|]. split; [reflexivity|].
  intros i item Hi. eexists.
  split; [rewrite list_lookup_imap, Hi; reflexivity|].
  rewrite !assoc_set_field.
  split; [reflexivity|]. split; [reflexivity|]. split; [reflexivity|].
  intros k Hk. 
  assert (Hother : forall l,
            assoc k
              (jobLogic.set_field "processedBy" (VStr (jobId job))
                 (jobLogic.set_field "processedAt" (VStr (stamp i))
                    (jobLogic.set_field "processed" (VBool true) l)))
            = assoc k l).
  { intros l. rewrite !assoc_set_field.
    destruct (k =? "processedBy") eqn:E1;
      [apply String.eqb_eq in E1; exfalso; apply Hk; subst k; cbn; auto|].
    destruct (k =? "processedAt") eqn:E2;
      [apply String.eqb_eq in E2; exfalso; apply Hk; subst k; cbn; auto|].
    destruct (k =? "processed") eqn:E3;
      [apply String.eqb_eq in E3; exfalso; apply Hk; subst k; cbn; auto|].
    reflexivity. }
  destruct item; try exact I; rewrite Hother; reflexivity.
Qed.

Lemma processData_marks_every_item_witness :
  Scenario3.logic Scenario.once_job Scenario3.process_rows
  = inr (VObj
           [("message", VStr "Data processed successfully");
            ("itemsProcessed", VNum 2);
            ("data",
             VArr [VObj [("id", VNum 1);
                         ("processed", VBool true);
                         ("processedAt", VStr (Scenario3.stamp 0));
                         ("processedBy", VStr "uuid-0")];
                   VObj [("id", VNum 2);
                         ("processed", VBool true);
                         ("processedAt", VStr (Scenario3.stamp 1));
                         ("processedBy", VStr "uuid-0")]])]).
Proof.
  destruct (processData_marks_every_item Scenario3.stamp Scenario3.random ""
              Scenario.once_job Scenario3.process_rows Scenario3.rows)
    as (out & Hr & _ & _); [reflexivity | reflexivity |].
  change (jobLogic.executeJobLogic Scenario3.stamp Scenario3.random ""
            Scenario.once_job Scenario3.process_rows)
    with (Scenario3.logic Scenario.once_job Scenario3.process_rows) in Hr.
  rewrite Hr. f_equal. f_equal. f_equal. f_equal. f_equal.
  assert (Hc : Scenario3.logic Scenario.once_job Scenario3.process_rows
               = inr (VObj
                        [("message", VStr "Data processed successfully");
                         ("itemsProcessed", VNum 2);
                         ("data",
                          VArr [VObj [("id", VNum 1);
                                      ("processed", VBool true);
                                      ("processedAt",
                                       VStr (Scenario3.stamp 0));
                                      ("processedBy", VStr "uuid-0")];
                                VObj [("id", VNum 2);
                                      ("processed", VBool true);
                                      ("processedAt",
                                       VStr (Scenario3.stamp 1));
                                      ("processedBy", VStr "uuid-0")]])]))
    by (vm_compute; reflexivity).
  rewrite Hc in Hr. injection Hr as <-. reflexivity.
Defined.

(** A string item is spread by code units: a character outside the basic
    plane gives two properties, one of the basic plane gives one. *)
Example spread_of_strings :
  length (jobLogic.own_properties (VStr "ab")) = 2%nat
  /\ length (jobLogic.own_properties
               (VStr (String "195"%char (String "169"%char EmptyString))))
     = 1%nat
  /\ jobLogic.code_units
       (String "240"%char
          (String "159"%char (String "152"%char (String "128"%char "a"))))
     = [String "237"%char (String "160"%char (String "189"%char EmptyString));
        String "237"%char (String "184"%char (String "128"%char EmptyString));
        "a"].
Proof. vm_compute. repeat split; reflexivity. Qed.



(** The count is the floor of the binary64 product, not of the exact one:
    with [Math.random()] the number nearest to 0.03 the product is 3 and the
    cleanup reports 3 records, where the exact product is below 3. *)
Example cleanup_floors_the_rounded_product :
  let r := (8646911284551352 # 288230376151711744)%Q in
  exists result,
    jobLogic.executeJobLogic Scenario3.stamp (fun _ => r) ""
      Scenario.once_job Scenario3.cleanup_logs = inr result
    /\ get_field result "recordsDeleted" = VNum 3
    /\ Qfloor (r * 100) = 2%Z.
Proof. eexists. vm_compute. repeat split; reflexivity. Qed.

(** ** The job logic under the executor *)



(** ** Listing the jobs *)

Section Sorting.
Context {A : Type} (key : A -> Z).

Let newest (a b : A) : Z := (key b - key a)%Z.

Lemma sort_insert_Permutation (compare : A -> A -> Z) x l :
  Permutation (sort_insert compare x l) (x :: l).
Proof.
  induction l as [|y l IH]; cbn [sort_insert]; [reflexivity|].
  destruct (compare x y <=? 0)%Z; [reflexivity|].
  rewrite IH. apply perm_swap.
Qed.

Lemma Array_sort_Permutation (compare : A -> A -> Z) l :
  Permutation (Array_sort compare l) l.
Proof.
  induction l as [|x l IH]; [reflexivity|].
  unfold Array_sort in *. cbn [foldr].
  rewrite sort_insert_Permutation, IH. reflexivity.
Qed.

Lemma In_take (n : nat) (l : list A) (x : A) : In x (take n l) -> In x l.
Proof.
  revert l. induction n as [|n IH]; intros [|y l] H; cbn in *;
    try contradiction.
  destruct H as [->|H]; auto.
Qed.

Lemma sort_insert_sorted x l :
  sorted_down key l -> sorted_down key (sort_insert newest x l).
Proof.
  induction l as [|y l IH]; intros Hs; cbn [sort_insert].
  - cbn. auto.
  - destruct Hs as [Hy Hl]. unfold newest at 1.
    destruct (key y - key x <=? 0)%Z eqn:E.
    + apply Z.leb_le in E. cbn [sorted_down]. split; [|split; assumption].
      constructor; [lia|].
      eapply Forall_impl; [exact Hy|]. cbn. intros z Hz. lia.
    + apply Z.leb_gt in E. cbn [sorted_down]. split; [|apply IH, Hl].
      rewrite sort_insert_Permutation. constructor; [lia | exact Hy].
Qed.

Lemma Array_sort_sorted l : sorted_down key (Array_sort newest l).
Proof.
  induction l as [|x l IH]; [exact I|].
  unfold Array_sort in *. cbn [foldr]. apply sort_insert_sorted, IH.
Qed.

Lemma sorted_down_descending l : sorted_down key l -> descending key l.
Proof.
  induction l as [|x l IH]; intros Hs i j a b Hij Hi Hj.
  - rewrite lookup_nil in Hi. discriminate Hi.
  - destruct Hs as [Hx Hl]. destruct j as [|j]; [lia|].
    cbn in Hj. destruct i as [|i].
    + cbn in Hi. injection Hi as <-.
      rewrite List.Forall_forall in Hx. apply Hx.
      apply list_elem_of_In, list_elem_of_lookup. exists j. exact Hj.
    + cbn in Hi. apply (IH Hl i j); [lia | exact Hi | exact Hj].
Qed.

Lemma Array_sort_descending l : descending key (Array_sort newest l).
Proof. apply sorted_down_descending, Array_sort_sorted. Qed.

End Sorting.

Section ListingFacts.
Context (parseInt : string -> option Z) (nan_limit : Error + nat).
Context (scan_order : gmap string Job -> list Job).
Context (scan_fault : option Error).

Let handler := listJobs.handler parseInt nan_limit scan_order scan_fault.

Lemma passes_spec conditions j :
  listJobs.passes conditions j = true <->
  forall a v, In (a, v) conditions -> listJobs.attribute j a = Some v.
Proof.
  unfold listJobs.passes. rewrite forallb_forall. split.
  - intros H a v Hin. specialize (H (a, v) Hin). cbn [fst snd] in H.
    destruct (listJobs.attribute j a) as [x|]; [|discriminate H].
    apply String.eqb_eq in H. congruence.
  - intros H [a v] Hin. cbn [fst snd]. rewrite (H a v Hin).
    apply String.eqb_refl.
Qed.

(** What a 200 of the listing is made of. *)
Lemma listing_cases event w :
  (exists details,
     handler event w
     = {| listJobs.statusCode := 500;
          listJobs.body := listJobs.BFailure "Failed to fetch jobs" details |})
  \/ (exists n,
        scan_fault = None
        /\ evaluated nan_limit (sent_limit parseInt event) = inr n
        /\ let q := default listJobs.no_parameters
                      (listJobs.queryStringParameters event) in
           let conditions :=
             (match present (listJobs.qs_type q) with
              | Some t => [("type", t)]
              | None => []
              end
              ++ match present (listJobs.qs_status q) with
                 | Some s => [("status", s)]
                 | None => []
                 end)%list in
           let page := take n (scan_order (jobs w)) in
           let found := List.filter (listJobs.passes conditions) page in
           let sorted :=
             Array_sort (fun a b => (createdAt b - createdAt a)%Z) found in
           handler event w
           = {| listJobs.statusCode := 200;
                listJobs.body :=
                  listJobs.BJobs (length sorted) sorted (length page) |}).
Proof.
  unfold handler, listJobs.handler, listJobs.scan.
  cbn [listJobs.Limit listJobs.FilterExpression].
  fold (sent_limit parseInt event).
  destruct scan_fault as [e|]; [left; eexists; reflexivity|].
  destruct (evaluated nan_limit (sent_limit parseInt event)) as [e|n];
    [left; eexists; reflexivity|].
  right. exists n. split; [reflexivity|]. split; [reflexivity|].
  reflexivity.
Qed.

End ListingFacts.

(** The jobs of a listing come newest first: along the list the creation
    times never grow.  The count is the length of the list; it is at most
    the number of scanned items, which is at most the limit sent (100 when
    the request gives none).  When the store scans the records of the
    table, each once, the number of scanned items is at most the size of
    the table and every listed job is a record of the table. *)
Theorem listed_jobs_are_newest_first
    (parseInt : string -> option Z) (nan_limit : Error + nat)
    (scan_order : gmap string Job -> list Job) (scan_fault : option Error)
    (event : listJobs.Event) (w : World)
    (count scanned : nat) (listed : list Job) :
  listJobs.body (listJobs.handler parseInt nan_limit scan_order scan_fault
                   event w)
  = listJobs.BJobs count listed scanned ->
  descending createdAt listed
  /\ count = length listed
  /\ (count <= scanned)%nat
  /\ (forall n, sent_limit parseInt event = Some n ->
                (Z.of_nat scanned <= n)%Z)
  /\ (scan_order (jobs w) ≡ₚ (map_to_list (jobs w)).*2 ->
      (scanned <= size (jobs w))%nat
      /\ forall j, In j listed -> exists id, jobs w !! id = Some j).
Proof.
  intros Hbody.
  destruct (listing_cases parseInt nan_limit scan_order scan_fault event w)
    as [(details & Hr) | (n & _ & Hev & Hr)];
    rewrite Hr in Hbody; [discriminate Hbody|].
  cbv zeta in Hbody. cbn [listJobs.body] in Hbody.
  injection Hbody as <- <- <-.
  split; [apply (Array_sort_descending createdAt)|].
  split; [reflexivity|].
  rewrite (Permutation_length (Array_sort_Permutation _ _)).
  split; [apply filter_length_le|].
  rewrite length_take. split.
  - intros m Hm. rewrite Hm in Hev. cbn [evaluated] in Hev.
    destruct (m <? 1)%Z eqn:E; [discriminate Hev|].
    injection Hev as <-. apply Z.ltb_ge in E. lia.
  - intros Hscan. split.
    + rewrite (Permutation_length Hscan), length_fmap, length_map_to_list.
      lia.
    + intros j Hin.
      apply (Permutation_in _ (Array_sort_Permutation _ _)) in Hin.
      apply filter_In in Hin as [Hpage _]. apply In_take in Hpage.
      apply (Permutation_in _ Hscan) in Hpage.
      apply list_elem_of_In, list_elem_of_fmap in Hpage
        as ([id j'] & -> & Hj).
      exists id. apply elem_of_map_to_list. exact Hj.
Qed.

Lemma listed_jobs_are_newest_first_witness :
  listJobs.handler Scenario4.parseInt (inr 0%nat) Scenario4.scan_order None
    Scenario4.list_cron Scenario4.three_jobs
  = {| listJobs.statusCode := 200;
       listJobs.body :=
         listJobs.BJobs 2
           [Scenario4.job_at "c" "cron" "scheduled" 200;
            Scenario4.job_at "a" "cron" "scheduled" 100] 3 |}
  /\ descending createdAt
       [Scenario4.job_at "c" "cron" "scheduled" 200;
        Scenario4.job_at "a" "cron" "scheduled" 100]
  /\ (3 <= size (jobs Scenario4.three_jobs))%nat.
Proof.
  assert (Hrun : listJobs.handler Scenario4.parseInt (inr 0%nat)
                   Scenario4.scan_order None Scenario4.list_cron
                   Scenario4.three_jobs
                 = {| listJobs.statusCode := 200;
                      listJobs.body :=
                        listJobs.BJobs 2
                          [Scenario4.job_at "c" "cron" "scheduled" 200;
                           Scenario4.job_at "a" "cron" "scheduled" 100] 3 |})
    by (vm_compute; reflexivity).
  split; [exact Hrun|].
  destruct (listed_jobs_are_newest_first Scenario4.parseInt (inr 0%nat)
              Scenario4.scan_order None Scenario4.list_cron
              Scenario4.three_jobs 2 3
              [Scenario4.job_at "c" "cron" "scheduled" 200;
               Scenario4.job_at "a" "cron" "scheduled" 100])
    as (Hd & _ & _ & _ & Htable); [rewrite Hrun; reflexivity|].
  split; [exact Hd|]. apply Htable. reflexivity.
Defined.

(** Every job of a listing is a record of the table and satisfies the
    filters of the request: it has the requested type, when one is given,
    and the requested status, when one is given.  (The store is assumed to
    scan records of the table.) *)
Theorem listed_jobs_match_filters
    (parseInt : string -> option Z) (nan_limit : Error + nat)
    (scan_order : gmap string Job -> list Job) (scan_fault : option Error)
    (event : listJobs.Event) (w : World)
    (count scanned : nat) (listed : list Job) :
  (forall j, In j (scan_order (jobs w)) -> jobs w !! jobId j = Some j) ->
  listJobs.body (listJobs.handler parseInt nan_limit scan_order scan_fault
                   event w)
  = listJobs.BJobs count listed scanned ->
  let q := default listJobs.no_parameters
             (listJobs.queryStringParameters event) in
  forall j,
    In j listed ->
    jobs w !! jobId j = Some j
    /\ (forall t, present (listJobs.qs_type q) = Some t -> type j = t)
    /\ (forall s, present (listJobs.qs_status q) = Some s -> status j = s).
Proof.
  intros Horder Hbody q j Hin.
  destruct (listing_cases parseInt nan_limit scan_order scan_fault event w)
    as [(details & Hr) | (n & _ & Hev & Hr)];
    rewrite Hr in Hbody; [discriminate Hbody|].
  cbv zeta in Hbody. cbn [listJobs.body] in Hbody.
  injection Hbody as _ <- _. fold q in Hin.
  apply (Permutation_in _ (Array_sort_Permutation _ _)) in Hin.
  apply filter_In in Hin as [Hpage Hpass].
  split.
  { apply Horder. eapply In_take. exact Hpage. }
  rewrite passes_spec in Hpass. split.
  - intros t Ht. rewrite Ht in Hpass.
    specialize (Hpass "type" t ltac:(apply in_or_app; left; left; reflexivity)).
    cbn in Hpass. congruence.
  - intros s Hs. rewrite Hs in Hpass.
    specialize (Hpass "status" s
                  ltac:(apply in_or_app; right; left; reflexivity)).
    cbn in Hpass. congruence.
Qed.

Lemma listed_jobs_match_filters_witness :
  jobs Scenario4.three_jobs !! "c"
  = Some (Scenario4.job_at "c" "cron" "scheduled" 200)
  /\ (forall t, Some "cron" = Some t ->
                type (Scenario4.job_at "c" "cron" "scheduled" 200) = t).
Proof.
  destruct (listed_jobs_match_filters Scenario4.parseInt (inr 0%nat)
              Scenario4.scan_order None Scenario4.list_cron
              Scenario4.three_jobs 2 3
              [Scenario4.job_at "c" "cron" "scheduled" 200;
               Scenario4.job_at "a" "cron" "scheduled" 100])
    with (j := Scenario4.job_at "c" "cron" "scheduled" 200)
    as (Hj & Ht & _).
  - intros j Hin. vm_compute in Hin.
    destruct Hin as [<- | [<- | [<- | []]]]; vm_compute; reflexivity.
  - vm_compute. reflexivity.
  - left. reflexivity.
  - split; [exact Hj | exact Ht].
Defined.

(** Within the limit a listing is complete: when the store scans the
    records of the table, each once, the scan answers and the table has no
    more records than the limit sent (which must be at least 1), the
    scanned count is the size of the table and every record that satisfies
    the filters of the request is listed. *)
Theorem listing_is_complete_within_limit
    (parseInt : string -> option Z) (nan_limit : Error + nat)
    (scan_order : gmap string Job -> list Job)
    (event : listJobs.Event) (w : World) (n : Z) :
  scan_order (jobs w) ≡ₚ (map_to_list (jobs w)).*2 ->
  sent_limit parseInt event = Some n ->
  (1 <= n)%Z ->
  (Z.of_nat (size (jobs w)) <= n)%Z ->
  let q := default listJobs.no_parameters
             (listJobs.queryStringParameters event) in
  exists listed,
    listJobs.handler parseInt nan_limit scan_order None event w
    = {| listJobs.statusCode := 200;
         listJobs.body :=
           listJobs.BJobs (length listed) listed (size (jobs w)) |}
    /\ forall id j,
         jobs w !! id = Some j ->
         (forall t, present (listJobs.qs_type q) = Some t -> type j = t) ->
         (forall s, present (listJobs.qs_status q) = Some s -> status j = s) ->
         In j listed.
Proof.
  intros Hscan Hlimit Hn Hsize q.
  assert (Hlen : length (scan_order (jobs w)) = size (jobs w)).
  { rewrite (Permutation_length Hscan), length_fmap.
    apply length_map_to_list. }
  destruct (listing_cases parseInt nan_limit scan_order None event w)
    as [(details & Hr) | (k & _ & Hev & Hr)].
  { exfalso. unfold listJobs.handler, listJobs.scan in Hr.
    cbn [listJobs.Limit] in Hr. fold (sent_limit parseInt event) in Hr.
    rewrite Hlimit in Hr. cbn [evaluated] in Hr.
    apply Z.ltb_ge in Hn. rewrite Hn in Hr. discriminate Hr. }
  rewrite Hlimit in Hev. cbn [evaluated] in Hev.
  destruct (n <? 1)%Z; [discriminate Hev|]. injection Hev as <-.
  cbv zeta in Hr. fold q in Hr.
  rewrite take_ge in Hr by lia. rewrite Hlen in Hr.
  eexists. split; [exact Hr|].
  intros id j Hj Hty Hst.
  apply (Permutation_in _ (Permutation_sym (Array_sort_Permutation _ _))).
  apply filter_In. split.
  { apply (Permutation_in _ (Permutation_sym Hscan)).
    apply list_elem_of_In, list_elem_of_fmap. exists (id, j).
    split; [reflexivity|]. apply elem_of_map_to_list. exact Hj. }
  apply passes_spec. intros a v Hin.
  apply in_app_or in Hin as [Hin | Hin].
  - destruct (present (listJobs.qs_type q)) as [t|]; [|destruct Hin].
    destruct Hin as [[= <- <-] | []]. cbn. rewrite (Hty t eq_refl).
    reflexivity.
  - destruct (present (listJobs.qs_status q)) as [s|]; [|destruct Hin].
    destruct Hin as [[= <- <-] | []]. cbn. rewrite (Hst s eq_refl).
    reflexivity.
Qed.

Lemma listing_is_complete_within_limit_witness :
  exists listed,
    listJobs.handler Scenario4.parseInt (inr 0%nat) Scenario4.scan_order None
      Scenario4.list_cron Scenario4.three_jobs
    = {| listJobs.statusCode := 200;
         listJobs.body := listJobs.BJobs (length listed) listed 3 |}
    /\ In (Scenario4.job_at "a" "cron" "scheduled" 100) listed
    /\ In (Scenario4.job_at "c" "cron" "scheduled" 200) listed.
Proof.
  destruct (listing_is_complete_within_limit Scenario4.parseInt (inr 0%nat)
              Scenario4.scan_order Scenario4.list_cron Scenario4.three_jobs 10)
    as (listed & Hr & Hall).
  - reflexivity.
  - reflexivity.
  - lia.
  - vm_compute. discriminate.
  - exists listed. split; [exact Hr|]. split.
    + apply (Hall "a").
      * vm_compute. reflexivity.
      * intros t [= <-]. reflexivity.
      * intros s H. discriminate H.
    + apply (Hall "c").
      * vm_compute. reflexivity.
      * intros t [= <-]. reflexivity.
      * intros s H. discriminate H.
Defined.

(** ** Fetching a job with its invocations *)

Section FetchFacts.
Context (parseInt : string -> option Z) (nan_limit : Error + nat).
Context (index : gmap string Invocation -> string -> list Invocation).
Context (get_fault query_fault : option Error).

Let handler :=
  getJobHandler.handler parseInt nan_limit index get_fault query_fault.

(** What a 200 of the fetch is made of. *)
Lemma fetch_cases event w job invs st :
  getJobHandler.body (handler event w) = getJobHandler.BJob job invs st ->
  exists jobId n,
    present (getJobHandler.pathParameters_jobId event) = Some jobId
    /\ jobs w !! jobId = Some job
    /\ evaluated nan_limit (fetch_limit parseInt event) = inr n
    /\ st = getJob.statistics invs
    /\ handler event w
       = {| getJobHandler.statusCode := 200;
            getJobHandler.body := getJobHandler.BJob job invs st |}
    /\ let page := take n (index (invocations w) jobId) in
       invs = match present (getJobHandler.invocationStatus
                               (default getJobHandler.no_parameters
                                  (getJobHandler.queryStringParameters
                                     event))) with
              | Some s => List.filter (getJob.has_status s) page
              | None => page
              end.
Proof.
  unfold handler, getJobHandler.handler, getJobHandler.query.
  cbn [getJobHandler.Limit getJobHandler.key_jobId
       getJobHandler.filter_status].
  fold (fetch_limit parseInt event).
  destruct (present (getJobHandler.pathParameters_jobId event)) as [id0|];
    [|discriminate].
  destruct get_fault; [discriminate|].
  destruct (jobs w !! id0) as [job0|] eqn:Hjob; [|discriminate].
  destruct query_fault; [discriminate|].
  destruct (evaluated nan_limit (fetch_limit parseInt event)) as [e|n];
    [discriminate|].
  cbn [getJobHandler.body]. intros [= <- <- <-].
  exists id0, n. auto 10.
Qed.

End FetchFacts.

(** A fetch answers with the record of the requested job and with
    counts taken over exactly the invocations it returns: the total is
    their number, and the completed, failed and running counts are the
    numbers of those with that status.  The invocations are taken from the
    head of the job's index, at most as many as the limit sent (50 when the
    request gives none), so the statistics cover at most that many
    invocations, not the whole history; when the index holds invocations of
    the job that are in the table, so are the invocations returned; with a
    status filter all of them have that status. *)
Theorem fetched_history_is_bounded
    (parseInt : string -> option Z) (nan_limit : Error + nat)
    (index : gmap string Invocation -> string -> list Invocation)
    (get_fault query_fault : option Error)
    (event : getJobHandler.Event) (w : World)
    (job : Job) (invs : list Invocation) (st : getJob.Statistics) :
  getJobHandler.body
    (getJobHandler.handler parseInt nan_limit index get_fault query_fault
       event w)
  = getJobHandler.BJob job invs st ->
  let with_status (s : string) :=
    List.filter (fun inv => String.eqb (inv_status inv) s) invs in
  exists jobId,
    present (getJobHandler.pathParameters_jobId event) = Some jobId
    /\ jobs w !! jobId = Some job
    /\ getJob.totalInvocations st = length invs
    /\ getJob.completed st = length (with_status "completed")
    /\ getJob.failed st = length (with_status "failed")
    /\ getJob.running st = length (with_status "running")
    /\ (forall n, fetch_limit parseInt event = Some n ->
                  (Z.of_nat (length invs) <= n)%Z)
    /\ (forall inv, In inv invs -> In inv (index (invocations w) jobId))
    /\ ((forall inv, In inv (index (invocations w) jobId) ->
          inv_jobId inv = jobId
          /\ invocations w !! invocationId inv = Some inv) ->
        forall inv, In inv invs ->
          inv_jobId inv = jobId
          /\ invocations w !! invocationId inv = Some inv)
    /\ (forall s,
          present (getJobHandler.invocationStatus
                     (default getJobHandler.no_parameters
                        (getJobHandler.queryStringParameters event)))
          = Some s ->
          Forall (fun inv => inv_status inv = s) invs).
Proof.
  intros Hbody with_status.
  destruct (fetch_cases parseInt nan_limit index get_fault query_fault
              event w job invs st Hbody)
    as (id0 & n & Hid & Hjob & Hev & Hst & _ & Hinvs).
  cbv zeta in Hinvs. exists id0.
  split; [exact Hid|]. split; [exact Hjob|].
  split; [rewrite Hst; reflexivity|].
  split; [rewrite Hst; reflexivity|].
  split; [rewrite Hst; reflexivity|].
  split; [rewrite Hst; reflexivity|].
  set (page := take n (index (invocations w) id0)) in *.
  set (wanted := present (getJobHandler.invocationStatus _)) in *.
  assert (Hsub : forall inv, In inv invs -> In inv page).
  { intros inv. rewrite Hinvs.
    destruct wanted; [|auto]. intros H. apply filter_In in H. tauto. }
  assert (Hlen : (length invs <= length page)%nat).
  { rewrite Hinvs. destruct wanted; [apply filter_length_le | lia]. }
  split.
  { intros m Hm. rewrite Hm in Hev. cbn [evaluated] in Hev.
    destruct (m <? 1)%Z eqn:E; [discriminate Hev|].
    injection Hev as <-. apply Z.ltb_ge in E.
    unfold page in Hlen. rewrite length_take in Hlen. lia. }
  split.
  { intros inv Hin. eapply In_take. apply Hsub, Hin. }
  split.
  { intros Hindex inv Hin. apply Hindex. eapply In_take. apply Hsub, Hin. }
  intros s Hs. rewrite Hs in Hinvs. rewrite Hinvs.
  apply List.Forall_forall. intros inv Hin.
  apply filter_In in Hin as [_ Hin]. apply String.eqb_eq. exact Hin.
Qed.

(** The job "a" has three invocations, two of them completed; fetched with
    the filter "completed": the two are returned, the newest first, and the
    statistics are theirs. *)
Lemma fetched_history_is_bounded_witness :
  getJobHandler.handler Scenario4.parseInt (inr 0%nat) Scenario4.index
    None None Scenario4.completed_only Scenario4.with_history
  = {| getJobHandler.statusCode := 200;
       getJobHandler.body :=
         getJobHandler.BJob (Scenario4.job_at "a" "cron" "scheduled" 100)
           [Scenario4.run "i3" "completed" 3000;
            Scenario4.run "i1" "completed" 1000]
           {| getJob.totalInvocations := 2; getJob.completed := 2;
              getJob.failed := 0; getJob.running := 0;
              getJob.averageDuration := 40;
              getJob.successRate := VStr "100.00" |} |}
  /\ Forall (fun inv => inv_status inv = "completed")
       [Scenario4.run "i3" "completed" 3000;
        Scenario4.run "i1" "completed" 1000].
Proof.
  assert (Hrun : getJobHandler.handler Scenario4.parseInt (inr 0%nat)
                   Scenario4.index None None Scenario4.completed_only
                   Scenario4.with_history
                 = {| getJobHandler.statusCode := 200;
                      getJobHandler.body :=
                        getJobHandler.BJob
                          (Scenario4.job_at "a" "cron" "scheduled" 100)
                          [Scenario4.run "i3" "completed" 3000;
                           Scenario4.run "i1" "completed" 1000]
                          {| getJob.totalInvocations := 2;
                             getJob.completed := 2;
                             getJob.failed := 0; getJob.running := 0;
                             getJob.averageDuration := 40;
                             getJob.successRate := VStr "100.00" |} |})
    by (vm_compute; reflexivity).
  split; [exact Hrun|].
  destruct (fetched_history_is_bounded Scenario4.parseInt (inr 0%nat)
              Scenario4.index None None Scenario4.completed_only
              Scenario4.with_history
              (Scenario4.job_at "a" "cron" "scheduled" 100)
              [Scenario4.run "i3" "completed" 3000;
               Scenario4.run "i1" "completed" 1000]
              {| getJob.totalInvocations := 2; getJob.completed := 2;
                 getJob.failed := 0; getJob.running := 0;
                 getJob.averageDuration := 40;
                 getJob.successRate := VStr "100.00" |})
    as (id0 & _ & _ & _ & _ & _ & _ & _ & _ & _ & Hs);
    [rewrite Hrun; reflexivity|].
  apply Hs. reflexivity.
Defined.

(** A status filter empties the success rate of its meaning: the rate is
    computed over the filtered invocations, so with the filter "completed"
    it is 100.00 (or the number 0 when nothing is returned), and with any
    other filter it is 0.00 (or the number 0), with no completed invocation
    and an average duration of 0, whatever the job's history. *)
Theorem status_filter_fixes_success_rate
    (parseInt : string -> option Z) (nan_limit : Error + nat)
    (index : gmap string Invocation -> string -> list Invocation)
    (get_fault query_fault : option Error)
    (event : getJobHandler.Event) (w : World)
    (job : Job) (invs : list Invocation) (st : getJob.Statistics)
    (s : string) :
  getJobHandler.body
    (getJobHandler.handler parseInt nan_limit index get_fault query_fault
       event w)
  = getJobHandler.BJob job invs st ->
  present (getJobHandler.invocationStatus
             (default getJobHandler.no_parameters
                (getJobHandler.queryStringParameters event))) = Some s ->
  (invs = [] /\ getJob.successRate st = VNum 0)
  \/ (invs <> []
      /\ if String.eqb s "completed"
         then getJob.successRate st = VStr "100.00"
              /\ getJob.completed st = length invs
         else getJob.successRate st = VStr "0.00"
              /\ getJob.completed st = 0%nat
              /\ getJob.averageDuration st = 0%Z).
Proof.
  intros Hbody Hs.
  destruct (fetch_cases parseInt nan_limit index get_fault query_fault
              event w job invs st Hbody)
    as (id0 & n & _ & _ & _ & Hst & _ & Hinvs).
  cbv zeta in Hinvs. rewrite Hs in Hinvs.
  set (page := take n (index (invocations w) id0)) in *.
  assert (Hall : Forall (fun inv => inv_status inv = s) invs).
  { rewrite Hinvs. apply List.Forall_forall. intros inv Hin.
    apply filter_In in Hin as [_ Hin]. apply String.eqb_eq. exact Hin. }
  clearbody page. clear Hinvs.
  destruct invs as [|inv0 invs']; [left; rewrite Hst; auto|].
  right. split; [discriminate|]. rewrite Hst. unfold getJob.statistics.
  set (invs := inv0 :: invs') in *.
  destruct (s =? "completed") eqn:E.
  - apply String.eqb_eq in E. subst s.
    rewrite (filter_status_eq "completed" invs Hall).
    cbn [getJob.successRate getJob.completed].
    unfold invs at 1 2. cbn [length Nat.ltb Nat.leb].
    change (Z.of_nat (S (length invs')))
      with (Zpos (Pos.of_succ_nat (length invs'))).
    rewrite full_rate. split; reflexivity.
  - apply String.eqb_neq in E.
    rewrite (filter_status_ne "completed" invs).
    2:{ eapply Forall_impl; [exact Hall|]. cbn. intros inv ->. exact E. }
    cbn [getJob.successRate getJob.completed getJob.averageDuration length
         Nat.ltb Nat.leb].
    unfold invs. cbn [length Nat.ltb Nat.leb].
    change (Z.of_nat (S (length invs')))
      with (Zpos (Pos.of_succ_nat (length invs'))).
    change (Z.of_nat 0) with 0%Z. rewrite null_rate. auto.
Qed.

Lemma status_filter_fixes_success_rate_witness :
  getJob.successRate
    (getJob.statistics [Scenario4.run "i3" "completed" 3000;
                        Scenario4.run "i1" "completed" 1000])
  = VStr "100.00".
Proof.
  destruct (status_filter_fixes_success_rate Scenario4.parseInt (inr 0%nat)
              Scenario4.index None None Scenario4.completed_only
              Scenario4.with_history
              (Scenario4.job_at "a" "cron" "scheduled" 100)
              [Scenario4.run "i3" "completed" 3000;
               Scenario4.run "i1" "completed" 1000]
              (getJob.statistics [Scenario4.run "i3" "completed" 3000;
                                  Scenario4.run "i1" "completed" 1000])
              "completed")
    as [(H & _) | (_ & H)].
  - vm_compute. reflexivity.
  - reflexivity.
  - discriminate H.
  - exact (proj1 H).
Defined.
